(** * s3_versioned_bucket: removal of a versioned S3 bucket

    A shallow embedding of [src/s3_versioned_bucket.py] (the Ansible module
    that deletes a versioned bucket) and the properties of its
    [destroy_bucket] workflow.

    The module talks to S3 through a boto3 client.  The client is an
    interface here ([S3Client]): every method is a transition on an abstract
    store state that answers with a value or with a botocore error.  The
    workflow itself is written in a small monad that threads the store,
    records every client call together with its answer, and distinguishes the
    three ways a Python function of the module stops: it returns, it raises,
    or the Ansible module object ends the process ([exit_json], [fail_json],
    [fail_json_aws]). *)

From stdpp Require Import gmap strings list.
From Stdlib Require Import Permutation.

Local Open Scope string_scope.
Local Open Scope list_scope.

(** ** Exceptions *)

(** The botocore exceptions the module names.  In botocore,
    [EndpointConnectionError] and [WaiterError] are subclasses of
    [BotoCoreError]; [ClientError] carries [response['Error']['Code']]. *)
Inductive BotoError : Type :=
| EndpointConnectionError
| BotoCoreError
| ClientError (Code : string)
| WaiterError.

(** What can escape from a function of the module: an error of the client,
    or one of the interpreter's own errors. *)
Inductive PyException : Type :=
| Boto (e : BotoError)
| UnboundLocalError (var : string)
| NameError (var : string)
| TypeError.

(** [isinstance(e, ClientError)] and [isinstance(e, BotoCoreError)]. *)
Definition is_ClientError (e : PyException) : bool :=
  match e with Boto (ClientError _) => true | _ => false end.

Definition is_BotoCoreError (e : PyException) : bool :=
  match e with
  | Boto EndpointConnectionError | Boto BotoCoreError | Boto WaiterError => true
  | _ => false
  end.

Definition is_EndpointConnectionError (e : PyException) : bool :=
  match e with Boto EndpointConnectionError => true | _ => false end.

Definition is_WaiterError (e : PyException) : bool :=
  match e with Boto WaiterError => true | _ => false end.

(** [to_text(e)]: the class of the exception stands for its text. *)
Definition to_text (e : PyException) : string :=
  match e with
  | Boto EndpointConnectionError => "EndpointConnectionError"
  | Boto BotoCoreError => "BotoCoreError"
  | Boto (ClientError c) => c
  | Boto WaiterError => "WaiterError"
  | UnboundLocalError v => v
  | NameError v => v
  | TypeError => "TypeError"
  end.

(** ** Responses of the client *)

(** A key of a response dictionary: missing, present with [None], or
    present with a value.  The module tests both ['k' in page] and
    [page['k'] is not None]. *)
Inductive field (A : Type) : Type :=
| Missing
| PyNone
| Value (a : A).
Arguments Missing {A}.
Arguments PyNone {A}.
Arguments Value {A} a.

(** An entry of ['Versions'] or ['DeleteMarkers']. *)
Record Entry : Type := { Key : string; VersionId : string }.

(** A page of [list_object_versions]. *)
Record VersionsPage : Type :=
  { DeleteMarkers : field (list Entry); Versions : field (list Entry) }.

(** A page of [list_objects_v2]; an element of ['Contents'] is kept as its
    ['Key']. *)
Record ObjectsPage : Type := { Contents : field (list string) }.

(** ** The trace of a run *)

Inductive Call : Type :=
| ListBuckets (Bucket : string)
| GetBucketVersioning (Bucket : string)
| PutBucketVersioning (Bucket : string) (Status : string)
| ListObjectVersions (Bucket : string)
| ListObjectsV2 (Bucket : string)
| DeleteObject (Bucket : string) (key : string) (versionId : option string)
| DeleteBucket (Bucket : string)
| WaitBucketNotExists (Bucket : string).

Inductive Response : Type :=
| Failed (e : BotoError)
| Done
| Buckets (names : list string)
| Versioning (Status : option string)
| PageOfVersions (p : VersionsPage)
| PageOfObjects (p : ObjectsPage).

(** [Api c r]: the client was called and answered [r]; [Sleep n]: the module's
    own [time.sleep(n)]; [Backoff n]: the sleep inside the retry decorator. *)
Inductive Event : Type :=
| Api (c : Call) (r : Response)
| Sleep (seconds : nat)
| Backoff (seconds : nat).

(** ** The client interface *)

(** The boto3 client as the module uses it.  A paginator is the finite
    sequence of its pages, fixed when [paginate] is called (the listing
    follows key markers, so deleting the entries of a page already seen does
    not change the pages still to come); a page whose request fails ends the
    sequence with the error. *)
Record S3Client (St : Type) : Type := {
  s3_list_buckets : string -> St -> (BotoError + list string) * St;
  s3_get_bucket_versioning : string -> St -> (BotoError + option string) * St;
  s3_put_bucket_versioning : string -> string -> St -> (BotoError + unit) * St;
  s3_list_object_versions : string -> St -> list (BotoError + VersionsPage);
  s3_list_objects_v2 : string -> St -> list (BotoError + ObjectsPage);
  s3_delete_object : string -> string -> option string -> St -> (BotoError + unit) * St;
  s3_delete_bucket : string -> St -> (BotoError + unit) * St;
  s3_wait_bucket_not_exists : string -> St -> (BotoError + unit) * St
}.
Arguments s3_list_buckets {St}.
Arguments s3_get_bucket_versioning {St}.
Arguments s3_put_bucket_versioning {St}.
Arguments s3_list_object_versions {St}.
Arguments s3_list_objects_v2 {St}.
Arguments s3_delete_object {St}.
Arguments s3_delete_bucket {St}.
Arguments s3_wait_bucket_not_exists {St}.

(** ** The monad of the module *)

(** How the Ansible module object ends the process. *)
Inductive ModuleExit : Type :=
| ExitJson (changed : bool)
| FailJson (msg : string)
| FailJsonAws (e : PyException) (msg : string).

Inductive Result (A : Type) : Type :=
| Return (a : A)
| Raise (e : PyException)
| SystemExit (o : ModuleExit).
Arguments Return {A} a.
Arguments Raise {A} e.
Arguments SystemExit {A} o.

(** A computation runs from a store state and gives its result, the store
    it leaves and the events it produced, oldest first. *)
Definition M (St A : Type) : Type := St -> Result A * St * list Event.

Definition ret {St A} (a : A) : M St A := fun s => (Return a, s, []).

Definition raise {St A} (e : PyException) : M St A := fun s => (Raise e, s, []).

Definition bind {St A B} (m : M St A) (k : A -> M St B) : M St B :=
  fun s =>
    match m s with
    | (Return a, s1, t1) =>
        match k a s1 with (r, s2, t2) => (r, s2, t1 ++ t2) end
    | (Raise e, s1, t1) => (Raise e, s1, t1)
    | (SystemExit o, s1, t1) => (SystemExit o, s1, t1)
    end.

Notation "x <- m ;; k" := (bind m (fun x => k))
  (at level 100, m at next level, right associativity).
Notation "m ;;; k" := (bind m (fun _ => k))
  (at level 100, right associativity).

(** [try: m except ...: h]: the handler [h] says, for an exception, what the
    matching [except] clause does, or [None] when no clause matches.
    [SystemExit] is not an [Exception] and passes through. *)
Definition try_except {St A} (m : M St A)
    (h : PyException -> option (M St A)) : M St A :=
  fun s =>
    match m s with
    | (Raise e, s1, t1) =>
        match h e with
        | Some k => match k s1 with (r, s2, t2) => (r, s2, t1 ++ t2) end
        | None => (Raise e, s1, t1)
        end
    | other => other
    end.

Definition emit {St} (ev : Event) : M St unit := fun s => (Return tt, s, [ev]).

(** [time.sleep(n)] *)
Definition time_sleep {St} (n : nat) : M St unit := emit (Sleep n).

(** [module.exit_json], [module.fail_json], [module.fail_json_aws]: none of
    them returns. *)
Definition exit_json {St A} (changed : bool) : M St A :=
  fun s => (SystemExit (ExitJson changed), s, []).

Definition fail_json {St A} (msg : string) : M St A :=
  fun s => (SystemExit (FailJson msg), s, []).

Definition fail_json_aws {St A} (e : PyException) (msg : string) : M St A :=
  fun s => (SystemExit (FailJsonAws e msg), s, []).

(** A call of a client method: the store moves, the call and its answer are
    recorded, an error answer is raised. *)
Definition api {St A} (c : Call) (answer : A -> Response)
    (op : St -> (BotoError + A) * St) : M St A :=
  fun s =>
    match op s with
    | (inr a, s1) => (Return a, s1, [Api c (answer a)])
    | (inl e, s1) => (Raise (Boto e), s1, [Api c (Failed e)])
    end.

(** [for x in xs: body]. *)
Fixpoint for_in {St A} (xs : list A) (body : A -> M St unit) : M St unit :=
  match xs with
  | [] => ret tt
  | x :: rest => body x ;;; for_in rest body
  end.

(** [for page in page_iterator: body]: each step of the iterator is a request
    to the store. *)
Fixpoint for_page {St P} (c : Call) (answer : P -> Response)
    (pages : list (BotoError + P)) (body : P -> M St unit) : M St unit :=
  match pages with
  | [] => ret tt
  | inl e :: _ => emit (Api c (Failed e)) ;;; raise (Boto e)
  | inr p :: rest => emit (Api c (answer p)) ;;; body p ;;; for_page c answer rest body
  end.

(** Reading a local variable that may not have been assigned. *)
Definition local {St A} (var : string) (slot : option A) : M St A :=
  match slot with
  | Some v => ret v
  | None => raise (UnboundLocalError var)
  end.

(** Truth value of a Python string. *)
Definition truthy (v : string) : bool := negb (String.eqb v "").

(** ** The retry decorator *)

(** Modelled from the spec: [AWSRetry.exponential_backoff] belongs to
    Ansible's module_utils, not to this repository.  The spec describes it as
    exponential backoff with a maximum delay ceiling, applied to transient
    errors, with extra error codes treated as retryable.  The number of
    retries, the first delay, the factor and the table of transient codes are
    the library's: they are the fields of [RetryPolicy]. *)
Record RetryPolicy : Type := {
  retries : nat;
  delay : nat;
  backoff : nat;
  transient : string -> bool
}.

Definition found (policy : RetryPolicy) (catch_extra_error_codes : list string)
    (code : string) : bool :=
  transient policy code || existsb (String.eqb code) catch_extra_error_codes.

Definition backoff_strategy (policy : RetryPolicy) (max_delay : nat) : list nat :=
  map (fun retry => Nat.min (delay policy * backoff policy ^ retry) max_delay)
      (seq 0 (retries policy)).

(** One guarded attempt per delay, then a last attempt whose error is the
    caller's. *)
Fixpoint retry_func {St A} (policy : RetryPolicy) (extra : list string)
    (delays : list nat) (f : M St A) : M St A :=
  match delays with
  | [] => f
  | d :: rest =>
      try_except f (fun e =>
        match e with
        | Boto (ClientError code) =>
            if found policy extra code
            then Some (emit (Backoff d) ;;; retry_func policy extra rest f)
            else None
        | _ => None
        end)
  end.

Definition exponential_backoff {St A} (policy : RetryPolicy) (max_delay : nat)
    (catch_extra_error_codes : list string) (f : M St A) : M St A :=
  retry_func policy catch_extra_error_codes (backoff_strategy policy max_delay) f.

(** ** The module *)

Section Module.

Context {St : Type}.
Variable s3_client : S3Client St.
Variable policy : RetryPolicy.

(** [bucket_exists]: not decorated. *)
Definition bucket_exists (bucket_name : string) : M St bool :=
  all_buckets <- api (ListBuckets bucket_name) Buckets
                     (s3_list_buckets s3_client bucket_name) ;;
  ret (existsb (String.eqb bucket_name) all_buckets).

(** [get_bucket_versioning]: the answer is kept as its ['Status'], which may
    be missing. *)
Definition get_bucket_versioning (bucket_name : string) : M St (option string) :=
  exponential_backoff policy 120 ["NoSuchBucket"]
    (api (GetBucketVersioning bucket_name) Versioning
         (s3_get_bucket_versioning s3_client bucket_name)).

Definition put_bucket_versioning (bucket_name required_versioning : string)
    : M St unit :=
  exponential_backoff policy 120 ["NoSuchBucket"]
    (api (PutBucketVersioning bucket_name required_versioning) (fun _ => Done)
         (s3_put_bucket_versioning s3_client bucket_name required_versioning)).

(** The loop of [wait_versioning_is_applied] over [range(0, 12)]; what follows
    the loop is reached when the range is exhausted. *)
Fixpoint wait_versioning_loop (dummies : list nat)
    (bucket_name required_versioning : string) : M St (option string) :=
  match dummies with
  | [] => fail_json "Bucket versioning failed to apply in the excepted time"
  | _ :: rest =>
      versioning_status <-
        try_except (get_bucket_versioning bucket_name) (fun e =>
          if is_BotoCoreError e || is_ClientError e
          then Some (fail_json_aws e "Failed to get updated versioning for bucket")
          else None) ;;
      if negb (bool_decide (versioning_status = Some required_versioning))
      then time_sleep 5 ;;; wait_versioning_loop rest bucket_name required_versioning
      else ret versioning_status
  end.

Definition wait_versioning_is_applied (bucket_name required_versioning : string)
    : M St (option string) :=
  wait_versioning_loop (seq 0 12) bucket_name required_versioning.

(** The body of [delete_bucket], under its decorator. *)
Definition delete_bucket_undecorated (bucket_name : string) : M St unit :=
  try_except
    (api (DeleteBucket bucket_name) (fun _ => Done)
         (s3_delete_bucket s3_client bucket_name))
    (fun e =>
       match e with
       | Boto (ClientError code) =>
           if String.eqb code "NoSuchBucket" then Some (ret tt) else Some (raise e)
       | _ => None
       end).

Definition delete_bucket (bucket_name : string) : M St unit :=
  exponential_backoff policy 120 [] (delete_bucket_undecorated bucket_name).

(** [s3_client.delete_object(Bucket=..., Key=..., VersionId=...)] *)
Definition delete_object (bucket key : string) (versionId : option string)
    : M St unit :=
  api (DeleteObject bucket key versionId) (fun _ => Done)
      (s3_delete_object s3_client bucket key versionId).

(** The body of the loop over the pages of [list_object_versions]. *)
Definition purge_versions_page (name : string) (page : VersionsPage) : M St unit :=
  match DeleteMarkers page with
  | Value delete_markers =>
      for_in delete_markers (fun delete_marker =>
        delete_object name (Key delete_marker) (Some (VersionId delete_marker)))
  | PyNone | Missing => ret tt
  end ;;;
  match Versions page with
  | Value versions =>
      for_in versions (fun version =>
        delete_object name (Key version) (Some (VersionId version)))
  | PyNone | Missing => ret tt
  end.

(** The body of the loop over the pages of [list_objects_v2].  The call of
    [delete_object] names [bucket_name], which is neither a local of
    [destroy_bucket] nor a global of the module: evaluating the argument
    raises before the client is called. *)
Definition purge_objects_page (name : string) (page : ObjectsPage) : M St unit :=
  match Contents page with
  | Missing => ret tt
  | PyNone => raise TypeError
  | Value contents =>
      for_in contents (fun content =>
        bucket_name <- raise (NameError "bucket_name") ;;
        delete_object bucket_name content None)
  end.

(** [destroy_bucket] is one function in the source; its blocks are named
    here after the states of the workflow. *)

(** Lines 105-110: the [try] around [bucket_exists]. *)
Definition probe_existence (name : string) : M St bool :=
  try_except (bucket_exists name) (fun e =>
    if is_EndpointConnectionError e
    then Some (fail_json_aws e ("Invalid endpoint provided: " ++ to_text e))
    else if is_BotoCoreError e || is_ClientError e
    then Some (fail_json_aws e "Failed to check bucket presence")
    else None).

(** Lines 117-132: [required_versioning] is assigned only when the status
    read is "Enabled", and read in any case. *)
Definition suspend_versioning (name : string) : M St (option string) :=
  versioning_status <-
    try_except (get_bucket_versioning name) (fun e =>
      if is_ClientError e || is_BotoCoreError e
      then Some (fail_json_aws e "Failed to get bucket versioning")
      else None) ;;
  let required_versioning : option string :=
    if bool_decide (versioning_status = Some "Enabled")
    then Some "Suspended" else None in
  rv <- local "required_versioning" required_versioning ;;
  (if truthy rv
   then try_except (put_bucket_versioning name rv) (fun e =>
          if is_BotoCoreError e || is_ClientError e
          then Some (fail_json_aws e "Failed to update bucket versioning")
          else None)
   else ret tt) ;;;
  rv <- local "required_versioning" required_versioning ;;
  wait_versioning_is_applied name rv.

(** Lines 134-150: the pages of [list_object_versions]. *)
Definition purge_versions (name : string) : M St unit :=
  fun s =>
    for_page (ListObjectVersions name) PageOfVersions
      (s3_list_object_versions s3_client name s) (purge_versions_page name) s.

(** Lines 152-159: the pages of [list_objects_v2]. *)
Definition purge_plain_objects (name : string) : M St unit :=
  fun s =>
    for_page (ListObjectsV2 name) PageOfObjects
      (s3_list_objects_v2 s3_client name s) (purge_objects_page name) s.

(** Lines 115-159: the [if force:] block. *)
Definition purge_bucket (name : string) : M St unit :=
  suspend_versioning name ;;;
  purge_versions name ;;;
  purge_plain_objects name.

(** Lines 161-167: the [try] around [delete_bucket] and the waiter. *)
Definition remove_bucket (name : string) : M St unit :=
  try_except
    (delete_bucket name ;;;
     api (WaitBucketNotExists name) (fun _ => Done)
         (s3_wait_bucket_not_exists s3_client name))
    (fun e =>
       if is_WaiterError e
       then Some (fail_json_aws e "An error occurred waiting for the bucket to be deleted.")
       else if is_BotoCoreError e || is_ClientError e
       then Some (fail_json_aws e "Failed to delete bucket")
       else None).

Definition destroy_bucket (force : bool) (name : string) : M St unit :=
  bucket_is_present <- probe_existence name ;;
  (if negb bucket_is_present then exit_json false else ret tt) ;;;
  (if force then purge_bucket name else ret tt) ;;;
  remove_bucket name ;;;
  exit_json true.

End Module.

(** ** A reference store *)

(** Modelled from the spec: S3 itself is not part of the repository.  The
    store below follows the spec's data model: a bucket has a versioning mode
    that a write changes only after some reads (the transition is confirmed
    asynchronously), a set of object-version records (data versions and delete
    markers) and a separate catalogue of plain objects; the store deletes a
    bucket only when both are empty; deleting an absent record succeeds. *)
Inductive VersioningMode : Type := Unset | Enabled | Suspended.

Record ObjectVersionRecord : Type :=
  { key : string; versionId : string; isDeleteMarker : bool }.

Record BucketState : Type := {
  mode : VersioningMode;
  pending : option (VersioningMode * nat);
  lag : nat;
  records : list ObjectVersionRecord;
  objects : list string
}.

Definition status_of_mode (m : VersioningMode) : option string :=
  match m with
  | Unset => None
  | Enabled => Some "Enabled"
  | Suspended => Some "Suspended"
  end.

Definition mode_of_status (st : string) : option VersioningMode :=
  if String.eqb st "Enabled" then Some Enabled
  else if String.eqb st "Suspended" then Some Suspended
  else None.

Definition with_versioning (bk : BucketState) (m : VersioningMode)
    (p : option (VersioningMode * nat)) : BucketState :=
  {| mode := m; pending := p; lag := lag bk;
     records := records bk; objects := objects bk |}.

Definition with_contents (bk : BucketState) (rs : list ObjectVersionRecord)
    (os : list string) : BucketState :=
  {| mode := mode bk; pending := pending bk; lag := lag bk;
     records := rs; objects := os |}.

Definition same_record (k v : string) (r : ObjectVersionRecord) : bool :=
  String.eqb (key r) k && String.eqb (versionId r) v.

(** The pages of a listing: at most [max_keys] entries each (at least one),
    and a single empty page for an empty listing. *)
Fixpoint chunks {A} (fuel per_page : nat) (l : list A) : list (list A) :=
  match fuel with
  | 0 => []
  | S fuel' =>
      match l with
      | [] => []
      | _ => take (S per_page) l :: chunks fuel' per_page (drop (S per_page) l)
      end
  end.

Definition paginate {A} (max_keys : nat) (l : list A) : list (list A) :=
  match l with
  | [] => [[]]
  | _ => chunks (length l) (Nat.pred max_keys) l
  end.

Definition entry_of (r : ObjectVersionRecord) : Entry :=
  {| Key := key r; VersionId := versionId r |}.

(** A response leaves out a key that would hold an empty list. *)
Definition listed {A} (l : list A) : field (list A) :=
  match l with [] => Missing | _ => Value l end.

Definition versions_page (rs : list ObjectVersionRecord) : VersionsPage :=
  {| DeleteMarkers := listed (map entry_of (List.filter isDeleteMarker rs));
     Versions := listed (map entry_of (List.filter (fun r => negb (isDeleteMarker r)) rs)) |}.

Definition objects_page (ks : list string) : ObjectsPage :=
  {| Contents := listed ks |}.

Definition no_such_bucket {A} : BotoError + A := inl (ClientError "NoSuchBucket").

Definition ref_client (max_keys : nat) : S3Client (gmap string BucketState) := {|
  s3_list_buckets := fun _ s => (inr (map fst (map_to_list s)), s);
  s3_get_bucket_versioning := fun b s =>
    match s !! b with
    | None => (no_such_bucket, s)
    | Some bk =>
        match pending bk with
        | None => (inr (status_of_mode (mode bk)), s)
        | Some (m, 0) => (inr (status_of_mode m), <[b := with_versioning bk m None]> s)
        | Some (m, S n) =>
            (inr (status_of_mode (mode bk)),
             <[b := with_versioning bk (mode bk) (Some (m, n))]> s)
        end
    end;
  s3_put_bucket_versioning := fun b st s =>
    match s !! b with
    | None => (no_such_bucket, s)
    | Some bk =>
        match mode_of_status st with
        | None => (inl (ClientError "MalformedXML"), s)
        | Some m => (inr tt, <[b := with_versioning bk (mode bk) (Some (m, lag bk))]> s)
        end
    end;
  s3_list_object_versions := fun b s =>
    match s !! b with
    | None => [no_such_bucket]
    | Some bk => map (fun c => inr (versions_page c)) (paginate max_keys (records bk))
    end;
  s3_list_objects_v2 := fun b s =>
    match s !! b with
    | None => [no_such_bucket]
    | Some bk => map (fun c => inr (objects_page c)) (paginate max_keys (objects bk))
    end;
  s3_delete_object := fun b k v s =>
    match s !! b with
    | None => (no_such_bucket, s)
    | Some bk =>
        match v with
        | Some vid =>
            (inr tt,
             <[b := with_contents bk
                      (List.filter (fun r => negb (same_record k vid r)) (records bk))
                      (objects bk)]> s)
        | None =>
            (inr tt,
             <[b := with_contents bk (records bk)
                      (List.filter (fun o => negb (String.eqb o k)) (objects bk))]> s)
        end
    end;
  s3_delete_bucket := fun b s =>
    match s !! b with
    | None => (no_such_bucket, s)
    | Some bk =>
        match records bk, objects bk with
        | [], [] => (inr tt, delete b s)
        | _, _ => (inl (ClientError "BucketNotEmpty"), s)
        end
    end;
  s3_wait_bucket_not_exists := fun b s =>
    match s !! b with
    | None => (inr tt, s)
    | Some _ => (inl WaiterError, s)
    end
|}.

(** What the claims speak of: presence of a bucket, its object-version set
    and its plain-object set. *)
Definition bucket_present (s : gmap string BucketState) (b : string) : bool :=
  bool_decide (is_Some (s !! b)).

Definition object_versions (s : gmap string BucketState) (b : string)
    : list ObjectVersionRecord :=
  match s !! b with Some bk => records bk | None => [] end.

Definition plain_objects (s : gmap string BucketState) (b : string) : list string :=
  match s !! b with Some bk => objects bk | None => [] end.

(** ** A client whose calls can fail *)

(** A schedule of faults in front of a client: each call of a method takes
    the head of the schedule; [Some e] makes the call fail with [e] and leaves
    the store as it is, [None] (or an empty schedule) lets the call through.
    Pages of a listing are let through. *)
Definition inject {St A} (op : St -> (BotoError + A) * St)
    (fs : list (option BotoError) * St)
    : (BotoError + A) * (list (option BotoError) * St) :=
  match fs with
  | (Some e :: rest, s) => (inl e, (rest, s))
  | (None :: rest, s) => match op s with (r, s1) => (r, (rest, s1)) end
  | ([], s) => match op s with (r, s1) => (r, ([], s1)) end
  end.

Definition faulty {St} (c : S3Client St) : S3Client (list (option BotoError) * St) := {|
  s3_list_buckets := fun b => inject (s3_list_buckets c b);
  s3_get_bucket_versioning := fun b => inject (s3_get_bucket_versioning c b);
  s3_put_bucket_versioning := fun b st => inject (s3_put_bucket_versioning c b st);
  s3_list_object_versions := fun b fs => s3_list_object_versions c b (snd fs);
  s3_list_objects_v2 := fun b fs => s3_list_objects_v2 c b (snd fs);
  s3_delete_object := fun b k v => inject (s3_delete_object c b k v);
  s3_delete_bucket := fun b => inject (s3_delete_bucket c b);
  s3_wait_bucket_not_exists := fun b => inject (s3_wait_bucket_not_exists c b)
|}.

(** ** Sample data *)

(** The retry policy of the examples: three retries, delays 3, 6, 12, the
    throttling and server-side codes as transient. *)
Definition sample_policy : RetryPolicy :=
  {| retries := 3; delay := 3; backoff := 2;
     transient := fun code =>
       existsb (String.eqb code)
         ["RequestLimitExceeded"; "ServiceUnavailable"; "InternalError"; "Throttling"] |}.

Definition v (k i : string) : ObjectVersionRecord :=
  {| key := k; versionId := i; isDeleteMarker := false |}.

Definition dm (k i : string) : ObjectVersionRecord :=
  {| key := k; versionId := i; isDeleteMarker := true |}.

(** Bucket "b1" of the spec's scenario: versioning [Enabled], three data
    versions and two delete markers. *)
Definition b1 (m : VersioningMode) (lag_reads : nat) : BucketState :=
  {| mode := m; pending := None; lag := lag_reads;
     records := [v "a" "1"; dm "a" "2"; v "b" "1"; v "c" "1"; dm "c" "2"];
     objects := [] |}.

Definition store1 (m : VersioningMode) (lag_reads : nat) : gmap string BucketState :=
  {[ "b1" := b1 m lag_reads ]}.

(** A bucket that also holds plain objects. *)
Definition store2 : gmap string BucketState :=
  {[ "b1" := with_contents (b1 Enabled 0) [v "a" "1"] ["x"; "y"; "z"] ]}.

(** ** Reading a trace *)

Definition count (p : Event -> bool) (t : list Event) : nat :=
  length (List.filter p t).

Definition is_api (ev : Event) : bool :=
  match ev with Api _ _ => true | _ => false end.

Definition is_sleep (ev : Event) : bool :=
  match ev with Sleep _ => true | _ => false end.

(** A request for the versioning status, whatever the answer. *)
Definition is_poll (ev : Event) : bool :=
  match ev with Api (GetBucketVersioning _) _ => true | _ => false end.

(** A request for the versioning status answered with the status waited
    for. *)
Definition is_observation (target : string) (ev : Event) : bool :=
  match ev with
  | Api (GetBucketVersioning _) (Versioning st) => bool_decide (st = Some target)
  | _ => false
  end.

Definition is_put_versioning (ev : Event) : bool :=
  match ev with Api (PutBucketVersioning _ _) _ => true | _ => false end.

Definition is_delete_object (ev : Event) : bool :=
  match ev with Api (DeleteObject _ _ _) _ => true | _ => false end.

(** A delete-object call without a version id. *)
Definition is_plain_delete (ev : Event) : bool :=
  match ev with Api (DeleteObject _ _ None) _ => true | _ => false end.

Definition is_delete_bucket (ev : Event) : bool :=
  match ev with Api (DeleteBucket _) _ => true | _ => false end.

(** The version-aware delete-object calls of a trace, as the records they
    name, in the order of the calls. *)
Definition version_deletes (t : list Event) : list (string * string * string) :=
  flat_map (fun ev =>
    match ev with
    | Api (DeleteObject b k (Some i)) _ => [(b, k, i)]
    | _ => []
    end) t.

(** A page of the plain listing that holds at least one object. *)
Definition has_contents (p : ObjectsPage) : bool :=
  match Contents p with Value (_ :: _) => true | _ => false end.

(** [answered answer r resp]: the result [r] of a single client call whose
    answer was [resp]. *)
Definition answered {A} (answer : A -> Response) (r : Result A) (resp : Response)
    : Prop :=
  (exists a, r = Return a /\ resp = answer a)
  \/ (exists e, r = Raise (Boto e) /\ resp = Failed e).

(** An event of an attempt of a decorated function that was retried: the
    failed call, whose error code the policy retries, or the backoff. *)
Definition retried {A} (policy : RetryPolicy) (extra : list string) (c : Call)
    (Q : Result A -> Response -> Prop) (ev : Event) : Prop :=
  (exists d, ev = Backoff d)
  \/ (exists code resp, ev = Api c resp
        /\ Q (Raise (Boto (ClientError code))) resp
        /\ found policy extra code = true).

Definition retried_poll (name : string) (ev : Event) : Prop :=
  (exists d, ev = Backoff d)
  \/ (exists code, ev = Api (GetBucketVersioning name) (Failed (ClientError code))).

Definition timeout_msg : string :=
  "Bucket versioning failed to apply in the excepted time".

Definition poll_failed_msg : string :=
  "Failed to get updated versioning for bucket".

(** What a run of the wait over [n] attempts looks like: the status waited
    for was observed by the last request of the run, before the [n]-th sleep;
    or [n] attempts missed it, each followed by its sleep; or a request
    failed. *)
Definition wait_outcome (n : nat) (name target : string)
    (r : Result (option string)) (t : list Event) : Prop :=
  match r with
  | Return st =>
      st = Some target /\ count is_sleep t < n
      /\ count (is_observation target) t = 1
      /\ exists pre, t = pre ++ [Api (GetBucketVersioning name) (Versioning (Some target))]
  | SystemExit (FailJson msg) =>
      msg = timeout_msg /\ count is_sleep t = n
      /\ count (is_observation target) t = 0
      /\ (t = [] \/ exists pre, t = pre ++ [Sleep 5])
  | SystemExit (FailJsonAws e msg) =>
      msg = poll_failed_msg /\ count is_sleep t < n
      /\ count (is_observation target) t = 0
      /\ exists b pre, e = Boto b /\ t = pre ++ [Api (GetBucketVersioning name) (Failed b)]
  | _ => False
  end.

(** [within I P X m]: from a store that satisfies [I], every run of [m] leaves
    a store that satisfies [I], produces only events that satisfy [P], and
    ends the process only in a way that satisfies [X]. *)
Definition within {St A} (I : St -> Prop) (P : Event -> Prop)
    (X : ModuleExit -> Prop) (m : M St A) : Prop :=
  forall s r s' t, I s -> m s = (r, s', t) ->
    I s' /\ Forall P t /\ (forall o, r = SystemExit o -> X o).

(** A client method that keeps the store within [I]. *)
Definition preserved {St A} (I : St -> Prop) (op : St -> (BotoError + A) * St)
    : Prop :=
  forall s r s', I s -> op s = (r, s') -> I s'.

(** The blocks of [destroy_bucket] and the events each of them can produce
    on bucket [name]. *)
Inductive Stage : Type :=
| ProbeExistence
| SuspendVersioning
| PurgeVersions
| PurgePlainObjects
| DeleteBucketStage.

Definition stage_event (st : Stage) (name : string) (ev : Event) : Prop :=
  match st, ev with
  | ProbeExistence, Api (ListBuckets b) _ => b = name
  | SuspendVersioning, Api (GetBucketVersioning b) _ => b = name
  | SuspendVersioning, Api (PutBucketVersioning b status) _ =>
      b = name /\ status = "Suspended"
  | SuspendVersioning, Sleep n => n = 5
  | SuspendVersioning, Backoff _ => True
  | PurgeVersions, Api (ListObjectVersions b) _ => b = name
  | PurgeVersions, Api (DeleteObject b _ (Some _)) _ => b = name
  | PurgePlainObjects, Api (ListObjectsV2 b) _ => b = name
  | DeleteBucketStage, Api (DeleteBucket b) _ => b = name
  | DeleteBucketStage, Api (WaitBucketNotExists b) _ => b = name
  | DeleteBucketStage, Backoff _ => True
  | _, _ => False
  end.

(** An event of some block of the workflow. *)
Definition module_event (name : string) (ev : Event) : Prop :=
  exists st, stage_event st name ev.

(** The process ends through [fail_json] or [fail_json_aws]. *)
Definition is_failure (o : ModuleExit) : Prop :=
  match o with ExitJson _ => False | _ => True end.

(** The result of the workflow once the bucket-delete block has run. *)
Definition after_removal (rC : Result unit) : Result unit :=
  match rC with
  | Return _ => SystemExit (ExitJson true)
  | Raise e => Raise e
  | SystemExit o => SystemExit o
  end.

Definition bucket_not_empty : PyException := Boto (ClientError "BucketNotEmpty").

(** What the bucket-delete step makes of the store's answer to the
    delete-bucket call: an answer, or the error "NoSuchBucket", is a success;
    any other error is raised. *)
Definition bucket_delete_result (resp : Response) : option (Result unit) :=
  match resp with
  | Done => Some (Return tt)
  | Failed (ClientError code) =>
      if String.eqb code "NoSuchBucket"
      then Some (Return tt)
      else Some (Raise (Boto (ClientError code)))
  | Failed e => Some (Raise (Boto e))
  | _ => None
  end.

(** The events of the attempts of [delete_bucket] that were retried: a
    delete-bucket call that failed with a code the policy retries, which is
    never "NoSuchBucket", or a backoff. *)
Definition retried_delete (policy : RetryPolicy) (name : string) (ev : Event)
    : Prop :=
  (exists d, ev = Backoff d)
  \/ (exists code, ev = Api (DeleteBucket name) (Failed (ClientError code))
        /\ code <> "NoSuchBucket" /\ found policy [] code = true).

(** The data versions and the delete markers of a bucket. *)
Definition data_versions (s : gmap string BucketState) (b : string)
    : list ObjectVersionRecord :=
  List.filter (fun r => negb (isDeleteMarker r)) (object_versions s b).

Definition delete_markers (s : gmap string BucketState) (b : string)
    : list ObjectVersionRecord :=
  List.filter isDeleteMarker (object_versions s b).

(** A record as a version-aware delete-object call names it. *)
Definition record_id (name : string) (r : ObjectVersionRecord)
    : string * string * string :=
  (name, key r, versionId r).

(** The successful delete-object call for a record. *)
Definition deleted (name : string) (r : ObjectVersionRecord) : Event :=
  Api (DeleteObject name (key r) (Some (versionId r))) Done.

(** The events of one page of the version listing on the reference store:
    the page, then its delete markers, then its data versions. *)
Definition page_trace (name : string) (page : list ObjectVersionRecord)
    : list Event :=
  Api (ListObjectVersions name) (PageOfVersions (versions_page page))
  :: map (deleted name) (List.filter isDeleteMarker page)
  ++ map (deleted name) (List.filter (fun r => negb (isDeleteMarker r)) page).

(** The bucket is in the store with the given contents. *)
Definition holds (name : string) (rs : list ObjectVersionRecord)
    (os : list string) (s : gmap string BucketState) : Prop :=
  exists bk, s !! name = Some bk /\ records bk = rs /\ objects bk = os.

(** ** The entry point *)

(** Lines 192-198 of [main]: the location handed to the connection.  The
    region comes from [get_aws_connection_info] and may be [None]. *)
Definition location_of (region : option string) : string :=
  match region with
  | None => "us-east-1"
  | Some r =>
      if String.eqb r "us-east-1" || String.eqb r "" then "us-east-1" else r
  end.

Definition no_connection_msg : string :=
  "Unknown error, failed to create s3 connection, no information from boto.".

(** [main], lines 177-211.  [get_s3_client] wraps [boto3_conn], which is
    Ansible's: it is a parameter, from the location to a client or [None].
    The call for [state == 'present'] is commented out in the source, so
    that only ['absent'] does anything. *)
Definition main {St} (get_s3_client : string -> option (S3Client St))
    (policy : RetryPolicy) (region : option string)
    (state : string) (force : bool) (name : string) : M St unit :=
  let location := location_of region in
  match get_s3_client location with
  | None => fail_json no_connection_msg
  | Some s3_client =>
      if String.eqb state "absent"
      then destroy_bucket s3_client policy force name
      else ret tt
  end.

(** ** More readings of a trace *)

(** The bucket a call is made on. *)
Definition call_bucket (c : Call) : string :=
  match c with
  | ListBuckets b | GetBucketVersioning b | PutBucketVersioning b _
  | ListObjectVersions b | ListObjectsV2 b | DeleteObject b _ _
  | DeleteBucket b | WaitBucketNotExists b => b
  end.

(** What the workflow on bucket [name] may do: calls on that bucket only, no
    versioning status written but "Suspended", no sleep but of 5. *)
Definition on_bucket (name : string) (ev : Event) : Prop :=
  match ev with
  | Api c _ =>
      call_bucket c = name
      /\ match c with
         | PutBucketVersioning _ status => status = "Suspended"
         | _ => True
         end
  | Sleep n => n = 5
  | Backoff _ => True
  end.

(** The value of a key of a page that is iterated: nothing when the key is
    missing or [None]. *)
Definition entries {A} (f : field (list A)) : list A :=
  match f with Value l => l | PyNone | Missing => [] end.

(** The entries of a page of versions in the order the module deletes them:
    the delete markers, then the versions. *)
Definition page_entries (page : VersionsPage) : list Entry :=
  entries (DeleteMarkers page) ++ entries (Versions page).

Definition delete_answered (name : string) (resp : Response) (e : Entry) : Event :=
  Api (DeleteObject name (Key e) (Some (VersionId e))) resp.


(** The records left when the records named in [l] are deleted. *)
Definition purged (l rs : list ObjectVersionRecord) : list ObjectVersionRecord :=
  List.filter (fun r' =>
    negb (existsb (fun r => same_record (key r) (versionId r) r') l)) rs.

(** The records of a listing in the order the module deletes them. *)
Definition deletion_order (pages : list (list ObjectVersionRecord))
    : list ObjectVersionRecord :=
  flat_map (fun page =>
    List.filter isDeleteMarker page
    ++ List.filter (fun r => negb (isDeleteMarker r)) page) pages.

Definition probe_failed_msg (e : BotoError) : string :=
  match e with
  | EndpointConnectionError => "Invalid endpoint provided: " ++ to_text (Boto e)
  | _ => "Failed to check bucket presence"
  end.

Definition removal_failed_msg (e : BotoError) : string :=
  match e with
  | WaiterError => "An error occurred waiting for the bucket to be deleted."
  | _ => "Failed to delete bucket"
  end.

(** How a run of [suspend_versioning] that ends the process does so: the
    message, and the call whose failure is reported (none for the timeout). *)
Definition suspend_failure (name : string) (o : ModuleExit) (t : list Event)
    : Prop :=
  match o with
  | ExitJson _ => False
  | FailJson msg => msg = timeout_msg /\ count is_sleep t = 12
  | FailJsonAws e msg =>
      exists b pre c,
        e = Boto b /\ t = pre ++ [Api c (Failed b)]
        /\ ((msg = "Failed to get bucket versioning"
              /\ c = GetBucketVersioning name
              /\ count is_put_versioning t = 0)
            \/ (msg = "Failed to update bucket versioning"
                /\ c = PutBucketVersioning name "Suspended")
            \/ (msg = poll_failed_msg
                /\ c = GetBucketVersioning name
                /\ In (Api (PutBucketVersioning name "Suspended") Done) t))
  end.

(** An event of an attempt at call [c] that the decorator repeated. *)
Definition retried_call (c : Call) (ev : Event) : Prop :=
  (exists d, ev = Backoff d)
  \/ (exists code, ev = Api c (Failed (ClientError code))).

(** Lines 117-120 and 126-130 of [destroy_bucket]: the two guarded calls of
    the suspension, as [suspend_versioning] has them. *)
Definition read_status {St} (s3_client : S3Client St) (policy : RetryPolicy)
    (name : string) : M St (option string) :=
  try_except (get_bucket_versioning s3_client policy name) (fun e =>
    if is_ClientError e || is_BotoCoreError e
    then Some (fail_json_aws e "Failed to get bucket versioning")
    else None).

Definition write_suspended {St} (s3_client : S3Client St) (policy : RetryPolicy)
    (name : string) : M St unit :=
  try_except (put_bucket_versioning s3_client policy name "Suspended") (fun e =>
    if is_BotoCoreError e || is_ClientError e
    then Some (fail_json_aws e "Failed to update bucket versioning")
    else None).

(** ** The attempts of the wait *)

(** The events of the attempts at call [c] that the decorator repeated: each
    failed call, with the code of its error, is followed by the backoff of its
    rank in the strategy. *)
Definition retried_attempts (c : Call) (codes : list string) (delays : list nat)
    : list Event :=
  flat_map (fun p => [Api c (Failed (ClientError (fst p))); Backoff (snd p)])
    (combine codes delays).

(** One call of a decorated client method [c] that ended with the answer
    [resp]: the attempts repeated before it failed with codes the policy
    retries, at most as many as the strategy has delays, and an answer that is
    itself such a failure ends the call only when the delays are used up. *)
Definition decorated_call (policy : RetryPolicy) (extra : list string)
    (delays : list nat) (c : Call) (resp : Response) (ta : list Event) : Prop :=
  exists codes,
    length codes <= length delays
    /\ Forall (fun code => found policy extra code = true) codes
    /\ ta = retried_attempts c codes delays ++ [Api c resp]
    /\ (forall code, resp = Failed (ClientError code) ->
          found policy extra code = true -> length codes = length delays).

(** One attempt of the wait: one call of [get_bucket_versioning]. *)
Definition read_attempt (policy : RetryPolicy) (name : string)
    (resp : Response) (ta : list Event) : Prop :=
  decorated_call policy ["NoSuchBucket"] (backoff_strategy policy 120)
    (GetBucketVersioning name) resp ta.

(** An attempt that read a status other than the one waited for. *)
Definition missed_attempt (policy : RetryPolicy) (name target : string)
    (ta : list Event) : Prop :=
  exists st, st <> Some target /\ read_attempt policy name (Versioning st) ta.

(** A run of the wait over at most [n] attempts: the attempts that missed the
    status, each followed by a sleep of 5, then the end of the run.  The run
    returns the status waited for when an attempt before the [n]-th sleep
    reads it; it ends with [fail_json_aws] when an attempt fails; it ends with
    [fail_json] and the timeout message when [n] attempts have missed, and
    then nothing follows the [n]-th sleep. *)
Definition wait_run (policy : RetryPolicy) (n : nat) (name target : string)
    (r : Result (option string)) (t : list Event) : Prop :=
  exists misses final,
    t = flat_map (fun ta => ta ++ [Sleep 5]) misses ++ final
    /\ Forall (missed_attempt policy name target) misses
    /\ match r with
       | Return st =>
           st = Some target /\ length misses < n
           /\ read_attempt policy name (Versioning (Some target)) final
       | SystemExit (FailJson msg) =>
           msg = timeout_msg /\ length misses = n /\ final = []
       | SystemExit (FailJsonAws e msg) =>
           msg = poll_failed_msg /\ length misses < n
           /\ exists b, e = Boto b /\ read_attempt policy name (Failed b) final
       | _ => False
       end.

(** ** Calls made directly and calls made through the decorator *)

(** The client methods the module calls through a function that carries the
    retry decorator: [get_bucket_versioning], [put_bucket_versioning],
    [delete_bucket]. *)
Definition is_decorated (c : Call) : bool :=
  match c with
  | GetBucketVersioning _ | PutBucketVersioning _ _ | DeleteBucket _ => true
  | _ => false
  end.

(** How the workflow ends when a call made directly fails with [e]: a failure
    of the existence probe or of the waiter is reported through
    [fail_json_aws]; a failure of a listing page or of a delete-object call is
    not caught. *)
Definition direct_failure (c : Call) (e : BotoError) : Result unit :=
  match c with
  | ListBuckets _ => SystemExit (FailJsonAws (Boto e) (probe_failed_msg e))
  | WaitBucketNotExists _ => SystemExit (FailJsonAws (Boto e) (removal_failed_msg e))
  | _ => Raise (Boto e)
  end.

(** The first delay of the strategy of the decorator. *)
Definition first_backoff (policy : RetryPolicy) (max_delay : nat) : nat :=
  Nat.min (delay policy) max_delay.

(** A failed call among those made directly, without the decorator. *)
Definition direct_failure_event (ev : Event) : bool :=
  match ev with
  | Api c (Failed _) => negb (is_decorated c)
  | _ => false
  end.

(** A backoff, if the event is one, is a delay of the decorator's strategy. *)
Definition scheduled_backoff (policy : RetryPolicy) (max_delay : nat) (ev : Event)
    : Prop :=
  match ev with
  | Backoff d => In d (backoff_strategy policy max_delay)
  | _ => True
  end.

(** Another bucket, for the examples. *)
Definition store3 : gmap string BucketState :=
  <[ "other" := b1 Suspended 0 ]> (store1 Enabled 1).

(** * Reasoning about runs *)

(** ** Inversion of the monad's operations *)

Section Runs.

Context {St : Type}.

Lemma bind_inv {A B} (m : M St A) (k : A -> M St B) s r s' t :
  bind m k s = (r, s', t) ->
  (exists a s1 t1 t2,
      m s = (Return a, s1, t1) /\ k a s1 = (r, s', t2) /\ t = t1 ++ t2)
  \/ (exists e, m s = (Raise e, s', t) /\ r = Raise e)
  \/ (exists o, m s = (SystemExit o, s', t) /\ r = SystemExit o).
Proof.
  unfold bind. destruct (m s) as [[[a|e|o] s1] t1].
  - destruct (k a s1) as [[r2 s2] t2] eqn:Hk. intros [= <- <- <-].
    left. exists a, s1, t1, t2. auto.
  - intros [= <- <- <-]. right. left. eauto.
  - intros [= <- <- <-]. right. right. eauto.
Qed.

Lemma bind_Return {A B} (m : M St A) (k : A -> M St B) s a s1 t1 :
  m s = (Return a, s1, t1) ->
  bind m k s = match k a s1 with (r, s2, t2) => (r, s2, t1 ++ t2) end.
Proof. unfold bind. intros ->. reflexivity. Qed.

Lemma bind_Raise {A B} (m : M St A) (k : A -> M St B) s e s1 t1 :
  m s = (Raise e, s1, t1) -> bind m k s = (Raise e, s1, t1).
Proof. unfold bind. intros ->. reflexivity. Qed.

Lemma bind_SystemExit {A B} (m : M St A) (k : A -> M St B) s o s1 t1 :
  m s = (SystemExit o, s1, t1) -> bind m k s = (SystemExit o, s1, t1).
Proof. unfold bind. intros ->. reflexivity. Qed.

Lemma try_except_inv {A} (m : M St A) h s r s' t :
  try_except m h s = (r, s', t) ->
  (m s = (r, s', t) /\ forall e, r = Raise e -> h e = None)
  \/ (exists e k s1 t1 t2,
        m s = (Raise e, s1, t1) /\ h e = Some k /\
        k s1 = (r, s', t2) /\ t = t1 ++ t2).
Proof.
  unfold try_except. destruct (m s) as [[[a|e|o] s1] t1].
  - intros [= <- <- <-]. left. split; [reflexivity | discriminate].
  - destruct (h e) as [k|] eqn:Hh.
    + destruct (k s1) as [[r2 s2] t2] eqn:Hk. intros [= <- <- <-].
      right. exists e, k, s1, t1, t2. auto.
    + intros [= <- <- <-]. left. split; [reflexivity |].
      intros e' [= <-]. exact Hh.
  - intros [= <- <- <-]. left. split; [reflexivity | discriminate].
Qed.

Lemma try_except_Return {A} (m : M St A) h s a s1 t1 :
  m s = (Return a, s1, t1) -> try_except m h s = (Return a, s1, t1).
Proof. unfold try_except. intros ->. reflexivity. Qed.

Lemma try_except_caught {A} (m : M St A) h s e k s1 t1 :
  m s = (Raise e, s1, t1) -> h e = Some k ->
  try_except m h s = match k s1 with (r, s2, t2) => (r, s2, t1 ++ t2) end.
Proof. unfold try_except. intros -> ->. reflexivity. Qed.

Lemma try_except_uncaught {A} (m : M St A) h s e s1 t1 :
  m s = (Raise e, s1, t1) -> h e = None ->
  try_except m h s = (Raise e, s1, t1).
Proof. unfold try_except. intros -> ->. reflexivity. Qed.

Lemma api_inv {A} c (answer : A -> Response) op (s : St) r s' t :
  api c answer op s = (r, s', t) ->
  (exists a, op s = (inr a, s') /\ r = Return a /\ t = [Api c (answer a)])
  \/ (exists e, op s = (inl e, s') /\ r = Raise (Boto e) /\ t = [Api c (Failed e)]).
Proof.
  unfold api. destruct (op s) as [[e|a] s1]; intros [= <- <- <-]; eauto.
Qed.

(** ** Rules for [within] *)

Section Within.

Variable I : St -> Prop.
Variable P : Event -> Prop.
Variable X : ModuleExit -> Prop.

Lemma within_ret {A} (a : A) : within I P X (ret a).
Proof. intros s r s' t HI [= <- <- <-]. repeat split; [assumption | constructor | discriminate]. Qed.

Lemma within_raise {A} e : within I P X (@raise St A e).
Proof. intros s r s' t HI [= <- <- <-]. repeat split; [assumption | constructor | discriminate]. Qed.

Lemma within_exit_json {A} b : X (ExitJson b) -> within I P X (@exit_json St A b).
Proof.
  intros HX s r s' t HI [= <- <- <-].
  repeat split; [assumption | constructor |]. intros o [= <-]. exact HX.
Qed.

Lemma within_fail_json {A} msg : X (FailJson msg) -> within I P X (@fail_json St A msg).
Proof.
  intros HX s r s' t HI [= <- <- <-].
  repeat split; [assumption | constructor |]. intros o [= <-]. exact HX.
Qed.

Lemma within_fail_json_aws {A} e msg :
  X (FailJsonAws e msg) -> within I P X (@fail_json_aws St A e msg).
Proof.
  intros HX s r s' t HI [= <- <- <-].
  repeat split; [assumption | constructor |]. intros o [= <-]. exact HX.
Qed.

Lemma within_emit ev : P ev -> within I P X (@emit St ev).
Proof.
  intros HP s r s' t HI [= <- <- <-].
  repeat split; [assumption | repeat constructor; exact HP | discriminate].
Qed.

Lemma within_api {A} c (answer : A -> Response) op :
  (forall resp, P (Api c resp)) -> preserved I op -> within I P X (api c answer op).
Proof.
  intros HP Hop s r s' t HI H.
  apply api_inv in H as [(a & Hs & -> & ->) | (e & Hs & -> & ->)];
    (repeat split; [eapply Hop; eassumption | repeat constructor; apply HP | discriminate]).
Qed.

Lemma within_bind {A B} (m : M St A) (k : A -> M St B) :
  within I P X m -> (forall a, within I P X (k a)) -> within I P X (bind m k).
Proof.
  intros Hm Hk s r s' t HI H.
  apply bind_inv in H as [(a & s1 & t1 & t2 & H1 & H2 & ->) | [(e & H1 & ->) | (o & H1 & ->)]].
  - destruct (Hm _ _ _ _ HI H1) as (HI1 & HP1 & _).
    destruct (Hk a _ _ _ _ HI1 H2) as (HI2 & HP2 & HX2).
    repeat split; [assumption | apply Forall_app; auto | assumption].
  - destruct (Hm _ _ _ _ HI H1) as (HI1 & HP1 & HX1).
    split; [assumption |]. split; [assumption | discriminate].
  - destruct (Hm _ _ _ _ HI H1) as (HI1 & HP1 & HX1).
    split; [assumption |]. split; [assumption |].
    intros o' [= <-]. apply HX1. reflexivity.
Qed.

Lemma within_try_except {A} (m : M St A) h :
  within I P X m -> (forall e k, h e = Some k -> within I P X k) ->
  within I P X (try_except m h).
Proof.
  intros Hm Hh s r s' t HI H.
  apply try_except_inv in H as [[H _] | (e & k & s1 & t1 & t2 & H1 & He & H2 & ->)].
  - eapply Hm; eassumption.
  - destruct (Hm _ _ _ _ HI H1) as (HI1 & HP1 & _).
    destruct (Hh e k He _ _ _ _ HI1 H2) as (HI2 & HP2 & HX2).
    repeat split; [assumption | apply Forall_app; auto | assumption].
Qed.

Lemma within_for_in {A} (xs : list A) (body : A -> M St unit) :
  (forall x, within I P X (body x)) -> within I P X (for_in xs body).
Proof.
  intros Hb. induction xs as [|x xs IH]; simpl.
  - apply within_ret.
  - apply within_bind; [apply Hb | intros _; exact IH].
Qed.

Lemma within_for_page {Pg} c (answer : Pg -> Response) pages
    (body : Pg -> M St unit) :
  (forall resp, P (Api c resp)) -> (forall p, within I P X (body p)) ->
  within I P X (for_page c answer pages body).
Proof.
  intros Hc Hb. induction pages as [|[e|p] pages IH]; simpl.
  - apply within_ret.
  - apply within_bind; [apply within_emit, Hc | intros _; apply within_raise].
  - apply within_bind; [apply within_emit, Hc | intros _].
    apply within_bind; [apply Hb | intros _; exact IH].
Qed.

Lemma within_paginated {A} (m : St -> M St A) :
  (forall s0, within I P X (m s0)) -> within I P X (fun s => m s s).
Proof. intros Hm s r s' t HI H. eapply Hm; eassumption. Qed.

Lemma within_local {A} var (slot : option A) : within I P X (@local St A var slot).
Proof. destruct slot; [apply within_ret | apply within_raise]. Qed.

Lemma within_retry_func {A} policy extra delays (f : M St A) :
  (forall d, P (Backoff d)) -> within I P X f ->
  within I P X (retry_func policy extra delays f).
Proof.
  intros Hb Hf. induction delays as [|d rest IH]; simpl; [exact Hf |].
  apply within_try_except; [exact Hf |].
  intros e k Hk. destruct e as [[| |code|]| | |]; try discriminate.
  destruct (found policy extra code); [|discriminate].
  injection Hk as <-.
  apply within_bind; [apply within_emit, Hb | intros _; exact IH].
Qed.

End Within.

Lemma within_impl {A} (I : St -> Prop) (P P' : Event -> Prop)
    (X X' : ModuleExit -> Prop) (m : M St A) :
  (forall ev, P ev -> P' ev) -> (forall o, X o -> X' o) ->
  within I P X m -> within I P' X' m.
Proof.
  intros HP HX Hm s r s' t HI H.
  destruct (Hm _ _ _ _ HI H) as (HI' & Ht & Ho).
  repeat split; [assumption | eapply Forall_impl; eassumption | auto].
Qed.

End Runs.

(** ** Counting events *)

Lemma count_app p t1 t2 : count p (t1 ++ t2) = count p t1 + count p t2.
Proof. unfold count. rewrite List.filter_app, length_app. reflexivity. Qed.

Lemma count_none p t : Forall (fun ev => p ev = false) t -> count p t = 0.
Proof.
  unfold count. induction 1 as [|ev t Hev _ IH]; simpl; [reflexivity |].
  rewrite Hev. exact IH.
Qed.

(** ** Runs of a decorated function *)

Section Retry.

Context {St A : Type}.
Variable policy : RetryPolicy.
Variable extra : list string.
Variable c : Call.
Variable Q : Result A -> Response -> Prop.
Variable f : M St A.

(** [f] calls the client once, and [Q] relates its result to the answer. *)
Hypothesis f_calls_once :
  forall s r s' t, f s = (r, s', t) -> exists resp, t = [Api c resp] /\ Q r resp.

Lemma retry_func_run delays s r s' t :
  retry_func policy extra delays f s = (r, s', t) ->
  exists pre resp,
    t = pre ++ [Api c resp] /\ Q r resp /\ Forall (retried policy extra c Q) pre
    /\ count is_api pre <= length delays.
Proof.
  revert s r s' t. induction delays as [|d rest IH]; simpl; intros s r s' t H.
  - apply f_calls_once in H as (resp & -> & HQ).
    exists [], resp. split; [reflexivity |]. split; [exact HQ |].
    split; [constructor | cbn; lia].
  - apply try_except_inv in H as [[H _] | (e & k & s1 & t1 & t2 & H1 & He & H2 & ->)].
    + apply f_calls_once in H as (resp & -> & HQ).
      exists [], resp. split; [reflexivity |]. split; [exact HQ |].
      split; [constructor | cbn; lia].
    + destruct e as [[| |code|]| | |]; try discriminate.
      destruct (found policy extra code) eqn:Hfound; [|discriminate].
      injection He as <-.
      apply f_calls_once in H1 as (resp1 & -> & HQ1).
      apply bind_inv in H2 as [(a & s2 & t3 & t4 & Hemit & Hrest & ->) | [(e & Hemit & _) | (o & Hemit & _)]];
        try discriminate.
      injection Hemit as <- <- <-.
      apply IH in Hrest as (pre & resp & -> & HQ & Hpre & Hn).
      exists (Api c resp1 :: Backoff d :: pre), resp.
      split; [reflexivity |]. split; [exact HQ |]. split.
      * constructor; [right; eauto | constructor; [left; eauto | exact Hpre]].
      * unfold count in *. cbn. lia.
Qed.

(** The first attempt decides when it succeeds, and when its error is not one
    the policy retries. *)
Lemma retry_func_Return delays s a s' t :
  f s = (Return a, s', t) -> retry_func policy extra delays f s = (Return a, s', t).
Proof. destruct delays; simpl; [auto | apply try_except_Return]. Qed.

Lemma retry_func_not_retried delays s e s' t :
  f s = (Raise e, s', t) ->
  (forall code, e = Boto (ClientError code) -> found policy extra code = false) ->
  retry_func policy extra delays f s = (Raise e, s', t).
Proof.
  intros Hf Hne. destruct delays as [|d rest]; simpl; [exact Hf |].
  apply try_except_uncaught; [exact Hf |].
  destruct e as [[| |code|]| | |]; try reflexivity.
  rewrite (Hne code eq_refl). reflexivity.
Qed.

(** A retried attempt is followed by the backoff and the remaining
    attempts. *)
Lemma retry_func_retried d rest s code s1 t1 :
  f s = (Raise (Boto (ClientError code)), s1, t1) ->
  found policy extra code = true ->
  retry_func policy extra (d :: rest) f s =
    match retry_func policy extra rest f s1 with
    | (r, s2, t2) => (r, s2, t1 ++ Backoff d :: t2)
    end.
Proof.
  intros Hf Hfound. simpl.
  erewrite try_except_caught; [| exact Hf | cbn; rewrite Hfound; reflexivity].
  unfold bind, emit.
  destruct (retry_func policy extra rest f s1) as [[r s2] t2]. reflexivity.
Qed.

End Retry.

(** * The functions of the module, for every client *)

Lemma api_calls_once {St A} c (answer : A -> Response) op (s : St) r s' t :
  api c answer op s = (r, s', t) ->
  exists resp, t = [Api c resp] /\ answered answer r resp.
Proof.
  intros H. apply api_inv in H as [(a & _ & -> & ->) | (e & _ & -> & ->)].
  - eexists. split; [reflexivity | left; eauto].
  - eexists. split; [reflexivity | right; eauto].
Qed.

Lemma length_backoff_strategy policy max_delay :
  length (backoff_strategy policy max_delay) = retries policy.
Proof. unfold backoff_strategy. rewrite length_map, length_seq. reflexivity. Qed.

Section Versioning.

Context {St : Type}.
Variable s3_client : S3Client St.
Variable policy : RetryPolicy.

Lemma get_bucket_versioning_run name s r s' t :
  get_bucket_versioning s3_client policy name s = (r, s', t) ->
  exists pre resp,
    t = pre ++ [Api (GetBucketVersioning name) resp]
    /\ answered Versioning r resp
    /\ Forall (retried_poll name) pre
    /\ count is_api pre <= retries policy.
Proof.
  intros H.
  eapply (retry_func_run policy _ (GetBucketVersioning name) (answered Versioning))
    in H; [| intros; eapply api_calls_once; eassumption].
  destruct H as (pre & resp & -> & HQ & Hpre & Hn).
  rewrite length_backoff_strategy in Hn.
  exists pre, resp. repeat split; auto.
  eapply Forall_impl; [exact Hpre |].
  intros ev [(d & ->) | (code & resp' & -> & Hans & _)]; [left; eauto |].
  right. exists code.
  destruct Hans as [(a & Hr & _) | (e & [= <-] & ->)]; [discriminate | reflexivity].
Qed.

Lemma retried_poll_counts name target pre :
  Forall (retried_poll name) pre ->
  count is_sleep pre = 0
  /\ count (is_observation target) pre = 0
  /\ count is_poll pre = count is_api pre
  /\ Forall (fun ev => forall n, ev = Sleep n -> n = 5) pre.
Proof.
  unfold count. induction 1 as [|ev pre Hev _ (IH1 & IH2 & IH3 & IH4)]; cbn.
  - repeat split; constructor.
  - destruct Hev as [(d & ->) | (code & ->)]; cbn.
    + repeat split; auto. constructor; [discriminate | exact IH4].
    + repeat split; auto. constructor; [discriminate | exact IH4].
Qed.

Lemma wait_outcome_later n name target r t1 t :
  count is_sleep t1 = 0 -> count (is_observation target) t1 = 0 ->
  wait_outcome n name target r t ->
  wait_outcome (S n) name target r (t1 ++ Sleep 5 :: t).
Proof.
  intros Hs Ho. unfold wait_outcome.
  assert (Hsl : count is_sleep (t1 ++ Sleep 5 :: t) = S (count is_sleep t)).
  { rewrite count_app, Hs. reflexivity. }
  assert (Hob : count (is_observation target) (t1 ++ Sleep 5 :: t)
                = count (is_observation target) t).
  { rewrite count_app, Ho. reflexivity. }
  rewrite Hsl, Hob.
  destruct r as [st | e | [b | msg | e msg]]; try tauto.
  - intros (-> & Hn & H1 & pre & ->). repeat split; [lia | exact H1 |].
    exists (t1 ++ Sleep 5 :: pre). rewrite <- app_assoc. reflexivity.
  - intros (-> & Hn & H0 & Hlast). repeat split; [lia | exact H0 |].
    right. destruct Hlast as [-> | (pre & ->)].
    + exists t1. reflexivity.
    + exists (t1 ++ Sleep 5 :: pre). rewrite <- app_assoc. reflexivity.
  - intros (-> & Hn & H0 & b & pre & -> & ->). repeat split; [lia | exact H0 |].
    exists b, (t1 ++ Sleep 5 :: pre). rewrite <- app_assoc. split; reflexivity.
Qed.

Lemma wait_versioning_loop_run dummies name target s r s' t :
  wait_versioning_loop s3_client policy dummies name target s = (r, s', t) ->
  Forall (fun ev => forall n, ev = Sleep n -> n = 5) t
  /\ count is_poll t <= length dummies * S (retries policy)
  /\ wait_outcome (length dummies) name target r t.
Proof.
  revert s r s' t. induction dummies as [|dummy rest IH]; intros s r s' t H.
  - injection H as <- <- <-. cbn. repeat split; auto.
  - cbn [wait_versioning_loop] in H.
    apply bind_inv in H as [(st & s1 & t1 & t2 & H1 & H2 & ->) | [(e & H1 & ->) | (o & H1 & ->)]].
    + (* the status was read *)
      apply try_except_inv in H1 as [[H1 _] | (e & k & s0 & t0 & t3 & _ & He & H1 & _)].
      2:{ destruct (is_BotoCoreError e || is_ClientError e); [|discriminate].
          injection He as <-. discriminate. }
      apply get_bucket_versioning_run in H1 as (pre & resp & -> & Hans & Hpre & Hn).
      destruct Hans as [(a & [= <-] & ->) | (e & [=] & _)].
      destruct (retried_poll_counts name target pre Hpre) as (Hs & Ho & Hp & H5).
      case_bool_decide as Hst; cbn [negb] in H2.
      * (* the target is observed *)
        injection H2 as <- <- <-. rewrite app_nil_r. subst st.
        split; [|split].
        -- apply Forall_app. split; [exact H5 | repeat constructor; discriminate].
        -- rewrite count_app, Hp. cbn. lia.
        -- cbn. rewrite !count_app, Hs, Ho. unfold count. cbn.
           rewrite bool_decide_true by reflexivity. cbn.
           repeat split; [lia | eauto].
      * (* not yet: sleep and go on *)
        apply bind_inv in H2 as [(u & s2 & t3 & t4 & Hemit & Hrest & ->) | [(e & Hemit & _) | (o & Hemit & _)]];
          try discriminate.
        injection Hemit as <- <- <-.
        apply IH in Hrest as (IH5 & IHp & IHo).
        assert (Hs1 : count is_sleep (pre ++ [Api (GetBucketVersioning name) (Versioning st)]) = 0).
        { rewrite count_app, Hs. reflexivity. }
        assert (Ho1 : count (is_observation target)
                        (pre ++ [Api (GetBucketVersioning name) (Versioning st)]) = 0).
        { rewrite count_app, Ho. unfold count. cbn.
          rewrite bool_decide_false by exact Hst. reflexivity. }
        split; [|split].
        -- apply Forall_app. split.
           ++ apply Forall_app. split; [exact H5 | repeat constructor; discriminate].
           ++ constructor; [intros n [= <-]; reflexivity | exact IH5].
        -- rewrite !count_app, Hp. cbn [length]. unfold count in *. cbn. lia.
        -- change ([Sleep 5] ++ t4) with (Sleep 5 :: t4).
           apply wait_outcome_later; assumption.
    + (* an exception would have to escape the handler *)
      exfalso.
      apply try_except_inv in H1 as [[H1 Hh] | (e0 & k & s0 & t0 & t3 & _ & He & H1 & _)].
      * apply get_bucket_versioning_run in H1 as (pre & resp & _ & Hans & _).
        destruct Hans as [(a & [=] & _) | (b & [= ->] & _)].
        specialize (Hh _ eq_refl). destruct b; discriminate.
      * destruct (is_BotoCoreError e0 || is_ClientError e0); [|discriminate].
        injection He as <-. discriminate.
    + (* the poll failed *)
      apply try_except_inv in H1 as [[H1 _] | (e0 & k & s0 & t0 & t3 & H1 & He & Hk & ->)].
      * apply get_bucket_versioning_run in H1 as (pre & resp & _ & Hans & _).
        destruct Hans as [(a & [=] & _) | (b & [=] & _)].
      * destruct (is_BotoCoreError e0 || is_ClientError e0); [|discriminate].
        injection He as <-. injection Hk as <- <- <-. rewrite app_nil_r.
        apply get_bucket_versioning_run in H1 as (pre & resp & -> & Hans & Hpre & Hn).
        destruct Hans as [(a & [=] & _) | (b & [= ->] & ->)].
        destruct (retried_poll_counts name target pre Hpre) as (Hs & Ho & Hp & H5).
        split; [|split].
        -- apply Forall_app. split; [exact H5 | repeat constructor; discriminate].
        -- rewrite count_app, Hp. cbn. lia.
        -- cbn. rewrite !count_app, Hs, Ho. cbn.
           repeat split; [lia | eauto].
Qed.

End Versioning.

(** ** The blocks of the workflow: events, exits and invariants *)

Lemma within_bind_ret {St A B} I P X (a : A) (k : A -> M St B) :
  within I P X (k a) -> within I P X (bind (ret a) k).
Proof.
  intros Hk s r s' t HI H. unfold bind, ret in H.
  destruct (k a s) as [[r2 s2] t2] eqn:E. injection H as <- <- <-.
  eapply Hk; eassumption.
Qed.

Lemma within_bind_raise {St A B} I P X e (k : A -> M St B) :
  within I P X (bind (raise e) k).
Proof.
  intros s r s' t HI [= <- <- <-].
  split; [assumption |]. split; [constructor | discriminate].
Qed.

Section Stages.

Context {St : Type}.
Variable s3_client : S3Client St.
Variable policy : RetryPolicy.
Variable I : St -> Prop.
Variable name : string.

Lemma probe_existence_within :
  preserved I (s3_list_buckets s3_client name) ->
  within I (stage_event ProbeExistence name) is_failure
    (probe_existence s3_client name).
Proof.
  intros Hop. unfold probe_existence, bucket_exists.
  apply within_try_except.
  - apply within_bind; [| intros; apply within_ret].
    apply within_api; [intros; reflexivity | exact Hop].
  - intros e k Hk. destruct (is_EndpointConnectionError e).
    + injection Hk as <-. apply within_fail_json_aws. exact Logic.I.
    + destruct (is_BotoCoreError e || is_ClientError e); [|discriminate].
      injection Hk as <-. apply within_fail_json_aws. exact Logic.I.
Qed.

Lemma get_bucket_versioning_within X :
  preserved I (s3_get_bucket_versioning s3_client name) ->
  within I (stage_event SuspendVersioning name) X
    (get_bucket_versioning s3_client policy name).
Proof.
  intros Hop. unfold get_bucket_versioning, exponential_backoff.
  apply within_retry_func; [intros; exact Logic.I |].
  apply within_api; [intros; reflexivity | exact Hop].
Qed.

Lemma wait_versioning_loop_within dummies target :
  preserved I (s3_get_bucket_versioning s3_client name) ->
  within I (stage_event SuspendVersioning name) is_failure
    (wait_versioning_loop s3_client policy dummies name target).
Proof.
  intros Hop. induction dummies as [|dummy rest IH]; cbn [wait_versioning_loop].
  - apply within_fail_json. exact Logic.I.
  - apply within_bind.
    + apply within_try_except; [apply get_bucket_versioning_within, Hop |].
      intros e k Hk. destruct (is_BotoCoreError e || is_ClientError e); [|discriminate].
      injection Hk as <-. apply within_fail_json_aws. exact Logic.I.
    + intros st. destruct (negb (bool_decide (st = Some target))).
      * apply within_bind; [apply within_emit; reflexivity | intros _; exact IH].
      * apply within_ret.
Qed.

Lemma suspend_versioning_within :
  preserved I (s3_get_bucket_versioning s3_client name) ->
  preserved I (s3_put_bucket_versioning s3_client name "Suspended") ->
  within I (stage_event SuspendVersioning name) is_failure
    (suspend_versioning s3_client policy name).
Proof.
  intros Hget Hput. unfold suspend_versioning.
  apply within_bind.
  - apply within_try_except; [apply get_bucket_versioning_within, Hget |].
    intros e k Hk. destruct (is_ClientError e || is_BotoCoreError e); [|discriminate].
    injection Hk as <-. apply within_fail_json_aws. exact Logic.I.
  - intros st. case_bool_decide; cbn [local]; [| apply within_bind_raise].
    apply within_bind_ret. apply within_bind.
    + cbn. apply within_try_except.
      * unfold put_bucket_versioning, exponential_backoff.
        apply within_retry_func; [intros; exact Logic.I |].
        apply within_api; [intros; split; reflexivity | exact Hput].
      * intros e k Hk. destruct (is_BotoCoreError e || is_ClientError e); [|discriminate].
        injection Hk as <-. apply within_fail_json_aws. exact Logic.I.
    + intros _. apply within_bind_ret.
      apply wait_versioning_loop_within, Hget.
Qed.

Lemma purge_versions_within :
  (forall k i, preserved I (s3_delete_object s3_client name k (Some i))) ->
  within I (stage_event PurgeVersions name) (fun _ => False)
    (purge_versions s3_client name).
Proof.
  intros Hdel. unfold purge_versions.
  apply (within_paginated I _ _
           (fun s0 => for_page (ListObjectVersions name) PageOfVersions
                        (s3_list_object_versions s3_client name s0)
                        (purge_versions_page s3_client name))).
  intros s0. apply within_for_page; [intros; reflexivity |].
  intros p. unfold purge_versions_page, delete_object.
  apply within_bind; [| intros _].
  - destruct (DeleteMarkers p); try apply within_ret.
    apply within_for_in. intros x. apply within_api; [intros; reflexivity | apply Hdel].
  - destruct (Versions p); try apply within_ret.
    apply within_for_in. intros x. apply within_api; [intros; reflexivity | apply Hdel].
Qed.

Lemma purge_plain_objects_within :
  within I (stage_event PurgePlainObjects name) (fun _ => False)
    (purge_plain_objects s3_client name).
Proof.
  unfold purge_plain_objects.
  apply (within_paginated I _ _
           (fun s0 => for_page (ListObjectsV2 name) PageOfObjects
                        (s3_list_objects_v2 s3_client name s0)
                        (purge_objects_page s3_client name))).
  intros s0. apply within_for_page; [intros; reflexivity |].
  intros p. unfold purge_objects_page.
  destruct (Contents p); [apply within_ret | apply within_raise |].
  apply within_for_in. intros x. apply within_bind_raise.
Qed.

Lemma remove_bucket_within :
  preserved I (s3_delete_bucket s3_client name) ->
  preserved I (s3_wait_bucket_not_exists s3_client name) ->
  within I (stage_event DeleteBucketStage name) is_failure
    (remove_bucket s3_client policy name).
Proof.
  intros Hdel Hwait. unfold remove_bucket.
  apply within_try_except.
  - apply within_bind; [| intros _; apply within_api; [intros; reflexivity | exact Hwait]].
    unfold delete_bucket, exponential_backoff.
    apply within_retry_func; [intros; exact Logic.I |].
    unfold delete_bucket_undecorated. apply within_try_except.
    + apply within_api; [intros; reflexivity | exact Hdel].
    + intros e k Hk. destruct e as [[| |code|]| | |]; try discriminate.
      destruct (String.eqb code "NoSuchBucket"); injection Hk as <-;
        [apply within_ret | apply within_raise].
  - intros e k Hk. destruct (is_WaiterError e).
    + injection Hk as <-. apply within_fail_json_aws. exact Logic.I.
    + destruct (is_BotoCoreError e || is_ClientError e); [|discriminate].
      injection Hk as <-. apply within_fail_json_aws. exact Logic.I.
Qed.

End Stages.

(** ** The workflow as a sequence of its blocks *)

Lemma preserved_True {St A} (op : St -> (BotoError + A) * St) :
  preserved (fun _ => True) op.
Proof. intros s r s' _ _. exact Logic.I. Qed.

Lemma stage_event_module st name ev : stage_event st name ev -> module_event name ev.
Proof. intros H. exists st. exact H. Qed.

Section Workflow.

Context {St : Type}.
Variable s3_client : S3Client St.
Variable policy : RetryPolicy.

Lemma purge_bucket_inv name s r s' t :
  purge_bucket s3_client policy name s = (r, s', t) ->
  exists r1 s1 t1,
    suspend_versioning s3_client policy name s = (r1, s1, t1) /\
    match r1 with
    | Return _ =>
        exists r2 s2 t2,
          purge_versions s3_client name s1 = (r2, s2, t2) /\
          match r2 with
          | Return _ =>
              exists t3,
                purge_plain_objects s3_client name s2 = (r, s', t3)
                /\ t = t1 ++ t2 ++ t3
          | Raise e => r = Raise e /\ s' = s2 /\ t = t1 ++ t2
          | SystemExit o => r = SystemExit o /\ s' = s2 /\ t = t1 ++ t2
          end
    | Raise e => r = Raise e /\ s' = s1 /\ t = t1
    | SystemExit o => r = SystemExit o /\ s' = s1 /\ t = t1
    end.
Proof.
  unfold purge_bucket, bind.
  destruct (suspend_versioning s3_client policy name s) as [[[st|e|o] s1] t1];
    intros H; do 3 eexists; (split; [reflexivity |]); cbn beta iota.
  - destruct (purge_versions s3_client name s1) as [[[u|e|o] s2] t2];
      do 3 eexists; (split; [reflexivity |]); cbn beta iota.
    + destruct (purge_plain_objects s3_client name s2) as [[r3 s3] t3].
      injection H as <- <- <-. exists t3. split; reflexivity.
    + injection H as <- <- <-. auto.
    + injection H as <- <- <-. auto.
  - injection H as <- <- <-. auto.
  - injection H as <- <- <-. auto.
Qed.

Lemma destroy_bucket_inv force name s r s' t :
  destroy_bucket s3_client policy force name s = (r, s', t) ->
  exists rA sA tA,
    probe_existence s3_client name s = (rA, sA, tA) /\
    match rA with
    | Return true =>
        exists rB sB tB,
          (if force then purge_bucket s3_client policy name else ret tt) sA
            = (rB, sB, tB) /\
          match rB with
          | Return _ =>
              exists rC tC,
                remove_bucket s3_client policy name sB = (rC, s', tC)
                /\ t = tA ++ tB ++ tC /\ r = after_removal rC
          | Raise e => r = Raise e /\ s' = sB /\ t = tA ++ tB
          | SystemExit o => r = SystemExit o /\ s' = sB /\ t = tA ++ tB
          end
    | Return false => r = SystemExit (ExitJson false) /\ s' = sA /\ t = tA
    | Raise e => r = Raise e /\ s' = sA /\ t = tA
    | SystemExit o => r = SystemExit o /\ s' = sA /\ t = tA
    end.
Proof.
  unfold destroy_bucket, bind.
  destruct (probe_existence s3_client name s) as [[[[|]|e|o] sA] tA];
    intros H; do 3 eexists; (split; [reflexivity |]); cbn beta iota.
  - cbn in H.
    destruct ((if force then purge_bucket s3_client policy name else ret tt) sA)
      as [[[u|e|o] sB] tB]; do 3 eexists; (split; [reflexivity |]); cbn beta iota.
    + destruct (remove_bucket s3_client policy name sB) as [[[u'|e|o] sC] tC];
        cbn in H; injection H as <- <- <-; do 2 eexists;
        (split; [reflexivity |]); rewrite ?app_nil_r; split; reflexivity.
    + injection H as <- <- <-. auto.
    + injection H as <- <- <-. auto.
  - cbn in H. injection H as <- <- <-. rewrite app_nil_r. auto.
  - injection H as <- <- <-. auto.
  - injection H as <- <- <-. auto.
Qed.

Lemma purge_bucket_within I name :
  preserved I (s3_get_bucket_versioning s3_client name) ->
  preserved I (s3_put_bucket_versioning s3_client name "Suspended") ->
  (forall k i, preserved I (s3_delete_object s3_client name k (Some i))) ->
  within I (module_event name) is_failure (purge_bucket s3_client policy name).
Proof.
  intros Hget Hput Hdel. unfold purge_bucket.
  apply within_bind; [| intros _; apply within_bind; [| intros _]].
  - eapply within_impl; [apply stage_event_module | | apply suspend_versioning_within];
      auto.
  - eapply within_impl; [apply stage_event_module | | apply purge_versions_within];
      [intros o [] | exact Hdel].
  - eapply within_impl; [apply stage_event_module | | apply purge_plain_objects_within].
    intros o [].
Qed.

Lemma destroy_bucket_within force name :
  within (fun _ => True) (module_event name) (fun _ => True)
    (destroy_bucket s3_client policy force name).
Proof.
  unfold destroy_bucket.
  apply within_bind; [| intros present; apply within_bind; [| intros _; apply within_bind; [| intros _; apply within_bind; [| intros _]]]].
  - eapply within_impl; [apply stage_event_module | | apply probe_existence_within];
      [auto | apply preserved_True].
  - destruct (negb present); [apply within_exit_json; exact Logic.I | apply within_ret].
  - destruct force; [| apply within_ret].
    eapply within_impl; [| | apply purge_bucket_within];
      auto; intros; apply preserved_True.
  - eapply within_impl; [apply stage_event_module | | apply remove_bucket_within];
      auto; apply preserved_True.
  - apply within_exit_json. exact Logic.I.
Qed.

(** The block that removes the bucket returns only after the waiter has
    confirmed. *)
Lemma remove_bucket_Return name s s' t :
  remove_bucket s3_client policy name s = (Return tt, s', t) ->
  exists s0, s3_wait_bucket_not_exists s3_client name s0 = (inr tt, s').
Proof.
  unfold remove_bucket. intros H.
  apply try_except_inv in H as [[H _] | (e & k & s1 & t1 & t2 & _ & He & H & _)].
  - apply bind_inv in H as [(a & s1 & t1 & t2 & H1 & H2 & ->) | [(e & _ & [=]) | (o & _ & [=])]].
    apply api_inv in H2 as [([] & Hs & _ & _) | (e & _ & [=] & _)].
    exists s1. exact Hs.
  - destruct (is_WaiterError e); [injection He as <-; discriminate |].
    destruct (is_BotoCoreError e || is_ClientError e); [|discriminate].
    injection He as <-. discriminate.
Qed.

(** [changed=True] is reported only after the waiter has confirmed. *)
Lemma destroy_bucket_changed force name s s' t :
  destroy_bucket s3_client policy force name s = (SystemExit (ExitJson true), s', t) ->
  exists s0, s3_wait_bucket_not_exists s3_client name s0 = (inr tt, s').
Proof.
  intros H. apply destroy_bucket_inv in H as (rA & sA & tA & HA & H).
  destruct rA as [[|]|e|o].
  - destruct H as (rB & sB & tB & HB & H). destruct rB as [u|e|o].
    + destruct H as (rC & tC & HC & _ & Hr).
      destruct rC as [[]|e|o]; cbn in Hr; try discriminate.
      * eapply remove_bucket_Return; eassumption.
      * injection Hr as Ho. subst o.
        destruct (remove_bucket_within s3_client policy (fun _ => True) name
                    (preserved_True _) (preserved_True _) _ _ _ _ Logic.I HC)
          as (_ & _ & Hx).
        destruct (Hx _ eq_refl).
    + destruct H as (Hr & _). discriminate.
    + destruct H as (Hr & _). injection Hr as Ho. subst o. destruct force.
      * destruct (purge_bucket_within (fun _ => True) name
                    (preserved_True _) (preserved_True _)
                    (fun _ _ => preserved_True _) _ _ _ _ Logic.I HB)
          as (_ & _ & Hx).
        destruct (Hx _ eq_refl).
      * discriminate.
  - destruct H as (Hr & _). discriminate.
  - destruct H as (Hr & _). discriminate.
  - destruct H as (Hr & _). injection Hr as Ho. subst o.
    destruct (probe_existence_within s3_client (fun _ => True) name
                (preserved_True _) _ _ _ _ Logic.I HA) as (_ & _ & Hx).
    destruct (Hx _ eq_refl).
Qed.

End Workflow.

(** * The reference store *)

Section Reference.

Variable max_keys : nat.
Variable policy : RetryPolicy.

Local Abbreviation client := (ref_client max_keys).

Lemma ref_listed (s : gmap string BucketState) name :
  existsb (String.eqb name) (map fst (map_to_list s)) = bucket_present s name.
Proof.
  unfold bucket_present. apply eq_true_iff_eq.
  rewrite existsb_exists, bool_decide_eq_true. split.
  - intros (x & Hin & Heq). apply String.eqb_eq in Heq. subst x.
    apply in_map_iff in Hin as ([k bk] & Hk & Hin). simpl in Hk. subst k.
    apply list_elem_of_In, elem_of_map_to_list in Hin. eauto.
  - intros [bk Hbk]. exists name. split; [| apply String.eqb_refl].
    apply in_map_iff. exists (name, bk). split; [reflexivity |].
    apply list_elem_of_In, elem_of_map_to_list. exact Hbk.
Qed.

Lemma ref_probe_existence (s : gmap string BucketState) name :
  probe_existence client name s
  = (Return (bucket_present s name), s,
     [Api (ListBuckets name) (Buckets (map fst (map_to_list s)))]).
Proof.
  unfold probe_existence, bucket_exists, try_except, bind, api, ret. cbn.
  rewrite ref_listed. reflexivity.
Qed.

Lemma bucket_present_Some (s : gmap string BucketState) name bk :
  s !! name = Some bk -> bucket_present s name = true.
Proof. intros H. apply bool_decide_eq_true. eauto. Qed.

Lemma bucket_present_None (s : gmap string BucketState) name :
  s !! name = None -> bucket_present s name = false.
Proof. intros H. apply bool_decide_eq_false. rewrite H. apply is_Some_None. Qed.

(** A bucket that is not in the store: one call, no change. *)
Lemma ref_destroy_absent force (s : gmap string BucketState) name :
  s !! name = None ->
  destroy_bucket client policy force name s
  = (SystemExit (ExitJson false), s,
     [Api (ListBuckets name) (Buckets (map fst (map_to_list s)))]).
Proof.
  intros H. unfold destroy_bucket.
  erewrite bind_Return by apply ref_probe_existence.
  rewrite (bucket_present_None _ _ H). reflexivity.
Qed.

(** The waiter of the reference store confirms only an absent bucket. *)
Lemma ref_waiter_confirms (s0 s' : gmap string BucketState) name :
  s3_wait_bucket_not_exists client name s0 = (inr tt, s') ->
  s' !! name = None.
Proof.
  cbn. destruct (s0 !! name) eqn:E; [discriminate |].
  intros [= <-]. exact E.
Qed.

Lemma absent_is_empty (s : gmap string BucketState) name :
  s !! name = None ->
  bucket_present s name = false
  /\ object_versions s name = [] /\ plain_objects s name = [].
Proof.
  intros H. unfold object_versions, plain_objects. rewrite H.
  split; [apply bucket_present_None, H | split; reflexivity].
Qed.

End Reference.

(** A fault never turns into an answer. *)
Lemma inject_answer {St A} (op : St -> (BotoError + A) * St) fs s a fs' s' :
  inject op (fs, s) = (inr a, (fs', s')) -> op s = (inr a, s').
Proof.
  unfold inject. destruct fs as [|[e|] rest].
  - destruct (op s) as [r s1]. intros [= -> <- <-]. reflexivity.
  - discriminate.
  - destruct (op s) as [r s1]. intros [= -> <- <-]. reflexivity.
Qed.

(** * Properties of the workflow *)

(** ** The versioning status that is not "Enabled" *)

(** C1: in a [force] run on an existing bucket whose versioning status, when
    read, is not "Enabled" (it is "Suspended", or missing), no
    put-bucket-versioning call and no convergence wait are issued: the trace
    is the existence probe and the one read of the status.  The run does not
    proceed: reading [required_versioning], which was never assigned, raises
    [UnboundLocalError], and the exception leaves [destroy_bucket]. *)
Theorem destroy_bucket_not_enabled_unbound {St} (s3_client : S3Client St)
    policy name s names s1 status s2 :
  s3_list_buckets s3_client name s = (inr names, s1) ->
  existsb (String.eqb name) names = true ->
  s3_get_bucket_versioning s3_client name s1 = (inr status, s2) ->
  status <> Some "Enabled" ->
  destroy_bucket s3_client policy true name s
  = (Raise (UnboundLocalError "required_versioning"), s2,
     [Api (ListBuckets name) (Buckets names);
      Api (GetBucketVersioning name) (Versioning status)]).
Proof.
  intros Hlist Hin Hget Hst.
  assert (Hprobe : probe_existence s3_client name s
                   = (Return true, s1, [Api (ListBuckets name) (Buckets names)])).
  { unfold probe_existence, bucket_exists, try_except, bind, api, ret.
    rewrite Hlist. cbn. rewrite Hin. reflexivity. }
  assert (Hread : get_bucket_versioning s3_client policy name s1
                  = (Return status, s2,
                     [Api (GetBucketVersioning name) (Versioning status)])).
  { unfold get_bucket_versioning, exponential_backoff.
    apply retry_func_Return. unfold api. rewrite Hget. reflexivity. }
  assert (Hsuspend : suspend_versioning s3_client policy name s1
                     = (Raise (UnboundLocalError "required_versioning"), s2,
                        [Api (GetBucketVersioning name) (Versioning status)])).
  { unfold suspend_versioning.
    erewrite bind_Return by (apply try_except_Return; exact Hread).
    rewrite bool_decide_false by exact Hst. cbn. reflexivity. }
  unfold destroy_bucket.
  erewrite bind_Return by exact Hprobe. cbn [negb].
  unfold purge_bucket.
  rewrite (bind_Return (ret tt) _ s1 tt s1 []) by reflexivity.
  erewrite (bind_Raise (bind (suspend_versioning s3_client policy name) _));
    [reflexivity |].
  apply bind_Raise. exact Hsuspend.
Qed.

Lemma destroy_bucket_not_enabled_unbound_witness :
  destroy_bucket (ref_client 2) sample_policy true "b1" (store1 Suspended 1)
  = (Raise (UnboundLocalError "required_versioning"), store1 Suspended 1,
     [Api (ListBuckets "b1") (Buckets ["b1"]);
      Api (GetBucketVersioning "b1") (Versioning (Some "Suspended"))]).
Proof.
  apply (destroy_bucket_not_enabled_unbound (ref_client 2) sample_policy "b1"
           (store1 Suspended 1) ["b1"] (store1 Suspended 1) (Some "Suspended")
           (store1 Suspended 1)).
  - vm_compute. reflexivity.
  - vm_compute. reflexivity.
  - vm_compute. reflexivity.
  - discriminate.
Defined.

(** ** A bucket that does not exist *)

(** C7: when the bucket named is not in the store, the run ends with
    [changed=False]; its only call is the listing of the existence probe (no
    versioning read or write, no delete-object, no bucket delete) and the
    store is left as it was. *)
Theorem destroy_bucket_absent_unchanged max_keys policy force
    (s : gmap string BucketState) name :
  bucket_present s name = false ->
  destroy_bucket (ref_client max_keys) policy force name s
  = (SystemExit (ExitJson false), s,
     [Api (ListBuckets name) (Buckets (map fst (map_to_list s)))]).
Proof.
  intros H. apply ref_destroy_absent.
  apply bool_decide_eq_false in H. destruct (s !! name) eqn:E; [| reflexivity].
  exfalso. apply H. eauto.
Qed.

Lemma destroy_bucket_absent_unchanged_witness :
  destroy_bucket (ref_client 2) sample_policy true "b2" (store1 Enabled 1)
  = (SystemExit (ExitJson false), store1 Enabled 1,
     [Api (ListBuckets "b2") (Buckets ["b1"])]).
Proof.
  apply (destroy_bucket_absent_unchanged 2 sample_policy true (store1 Enabled 1) "b2").
  vm_compute. reflexivity.
Defined.

(** ** A forced run that reports a change *)

(** C2: whenever a [force] run reports [changed=True], whatever faults the
    calls met on the way, the bucket is no longer in the store, and its
    object-version set and its plain-object set are empty. *)
Theorem forced_success_bucket_gone max_keys policy name faults
    (s : gmap string BucketState) faults' s' t :
  destroy_bucket (faulty (ref_client max_keys)) policy true name (faults, s)
  = (SystemExit (ExitJson true), (faults', s'), t) ->
  bucket_present s' name = false
  /\ object_versions s' name = []
  /\ plain_objects s' name = [].
Proof.
  intros H. apply destroy_bucket_changed in H as ([fs0 s0] & Hwait).
  apply absent_is_empty.
  apply inject_answer in Hwait. eapply ref_waiter_confirms. exact Hwait.
Qed.

Lemma forced_success_bucket_gone_witness :
  bucket_present (∅ : gmap string BucketState) "b1" = false
  /\ object_versions (∅ : gmap string BucketState) "b1" = []
  /\ plain_objects (∅ : gmap string BucketState) "b1" = [].
Proof.
  eapply (forced_success_bucket_gone 2 sample_policy "b1"
            [None; Some (ClientError "Throttling")] (store1 Enabled 1) []).
  vm_compute. reflexivity.
Defined.

(** ** Running the workflow twice *)

(** C8: when a run on a bucket that exists reports [changed=True], the same
    run repeated on the store it left reports [changed=False]: its existence
    probe finds the bucket absent, and nothing else is called. *)
Theorem destroy_bucket_twice max_keys policy force name
    (s : gmap string BucketState) s1 t1 :
  bucket_present s name = true ->
  destroy_bucket (ref_client max_keys) policy force name s
  = (SystemExit (ExitJson true), s1, t1) ->
  bucket_present s1 name = false
  /\ destroy_bucket (ref_client max_keys) policy force name s1
     = (SystemExit (ExitJson false), s1,
        [Api (ListBuckets name) (Buckets (map fst (map_to_list s1)))]).
Proof.
  intros _ H. apply destroy_bucket_changed in H as (s0 & Hwait).
  apply ref_waiter_confirms in Hwait.
  split; [apply bucket_present_None, Hwait | apply ref_destroy_absent, Hwait].
Qed.

Lemma destroy_bucket_twice_witness :
  bucket_present (∅ : gmap string BucketState) "b1" = false
  /\ destroy_bucket (ref_client 2) sample_policy true "b1" ∅
     = (SystemExit (ExitJson false), ∅, [Api (ListBuckets "b1") (Buckets [])]).
Proof.
  eapply (destroy_bucket_twice 2 sample_policy true "b1" (store1 Enabled 1)).
  - vm_compute. reflexivity.
  - vm_compute. reflexivity.
Defined.

(** ** An unforced run on a bucket that holds versions *)

(** When every attempt fails in the same way and leaves the store as it was,
    the decorated function fails in that way, after its backoffs. *)
Lemma retry_func_stuck {St A} policy extra (f : M St A) s e t1 delays :
  f s = (Raise e, s, t1) ->
  exists t,
    retry_func policy extra delays f s = (Raise e, s, t)
    /\ Forall (fun ev => In ev t1 \/ exists d, ev = Backoff d) t.
Proof.
  intros Hf. induction delays as [|d rest (t & IH & Ht)]; simpl.
  - exists t1. split; [exact Hf |].
    apply Forall_forall. intros ev Hev. left. apply list_elem_of_In, Hev.
  - destruct e as [[| |code|]| | |];
      try (exists t1; split;
           [apply try_except_uncaught; [exact Hf | reflexivity]
           | apply Forall_forall; intros ev Hev; left; apply list_elem_of_In, Hev]).
    destruct (found policy extra code) eqn:Hfound.
    + exists (t1 ++ Backoff d :: t). split.
      * erewrite try_except_caught; [| exact Hf | cbn; rewrite Hfound; reflexivity].
        unfold bind, emit. rewrite IH. reflexivity.
      * apply Forall_app. split.
        -- apply Forall_forall. intros ev Hev. left. apply list_elem_of_In, Hev.
        -- constructor; [right; eauto | exact Ht].
    + exists t1. split.
      * apply try_except_uncaught; [exact Hf | cbn; rewrite Hfound; reflexivity].
      * apply Forall_forall. intros ev Hev. left. apply list_elem_of_In, Hev.
Qed.

(** C6: on a bucket whose object-version set is not empty, a run without
    [force] ends in a failure that carries the store's refusal to delete a
    bucket that is not empty; no delete-object call is issued and the store
    is left as it was. *)
Theorem unforced_nonempty_fails max_keys policy name
    (s : gmap string BucketState) :
  object_versions s name <> [] ->
  exists t,
    destroy_bucket (ref_client max_keys) policy false name s
    = (SystemExit (FailJsonAws bucket_not_empty "Failed to delete bucket"), s, t)
    /\ count is_delete_object t = 0.
Proof.
  intros Hne. unfold object_versions in Hne.
  destruct (s !! name) as [bk|] eqn:Hbk; [| contradiction].
  assert (Hbody : delete_bucket_undecorated (ref_client max_keys) name s
                  = (Raise bucket_not_empty, s,
                     [Api (DeleteBucket name) (Failed (ClientError "BucketNotEmpty"))])).
  { unfold delete_bucket_undecorated, try_except, api. cbn. rewrite Hbk.
    destruct (records bk); [contradiction |]. reflexivity. }
  destruct (retry_func_stuck policy [] _ _ _ _ (backoff_strategy policy 120) Hbody)
    as (t & Hrun & Ht).
  exists (Api (ListBuckets name) (Buckets (map fst (map_to_list s))) :: t). split.
  - unfold destroy_bucket.
    erewrite bind_Return by apply ref_probe_existence.
    rewrite (bucket_present_Some _ _ _ Hbk). cbn [negb].
    rewrite (bind_Return (ret tt) _ s tt s []) by reflexivity.
    rewrite (bind_Return (ret tt) _ s tt s []) by reflexivity.
    erewrite bind_SystemExit; [reflexivity |].
    unfold remove_bucket.
    erewrite try_except_caught;
      [| apply bind_Raise; unfold delete_bucket, exponential_backoff; exact Hrun
       | reflexivity].
    cbn. rewrite app_nil_r. reflexivity.
  - unfold count. cbn. apply count_none.
    eapply Forall_impl; [exact Ht |].
    intros ev [Hin | (d & ->)]; [| reflexivity].
    destruct Hin as [<- | []]. reflexivity.
Qed.

Lemma unforced_nonempty_fails_witness :
  exists t,
    destroy_bucket (ref_client 2) sample_policy false "b1" (store1 Enabled 1)
    = (SystemExit (FailJsonAws bucket_not_empty "Failed to delete bucket"),
       store1 Enabled 1, t)
    /\ count is_delete_object t = 0.
Proof.
  apply (unforced_nonempty_fails 2 sample_policy "b1" (store1 Enabled 1)).
  vm_compute. discriminate.
Defined.

(** ** The wait for the versioning status *)

(** The wait in numbers: every sleep lasts 5, the requests are at most
    [12 * (retries + 1)], and the run ends in one of the three ways of
    [wait_outcome]. *)
Theorem wait_versioning_is_applied_bounded {St} (s3_client : S3Client St)
    policy name target s r s' t :
  wait_versioning_is_applied s3_client policy name target s = (r, s', t) ->
  Forall (fun ev => forall n, ev = Sleep n -> n = 5) t
  /\ count is_poll t <= 12 * S (retries policy)
  /\ wait_outcome 12 name target r t.
Proof.
  intros H. apply wait_versioning_loop_run in H. rewrite length_seq in H. exact H.
Qed.

Lemma wait_versioning_is_applied_bounded_witness :
  exists s' t,
    wait_versioning_is_applied (ref_client 2) sample_policy "b1" "Suspended"
      (store1 Enabled 0)
    = (SystemExit (FailJson timeout_msg), s', t)
    /\ Forall (fun ev => forall n, ev = Sleep n -> n = 5) t
    /\ count is_poll t <= 12 * S (retries sample_policy)
    /\ wait_outcome 12 "b1" "Suspended" (SystemExit (FailJson timeout_msg)) t.
Proof.
  eexists _, _. split; [vm_compute; reflexivity |].
  eapply (wait_versioning_is_applied_bounded (ref_client 2) sample_policy "b1"
            "Suspended" (store1 Enabled 0)).
  vm_compute. reflexivity.
Defined.

(** The status waited for, observed at the second attempt. *)
Example wait_versioning_is_applied_converges :
  exists s',
    wait_versioning_is_applied (ref_client 2) sample_policy "b1" "Suspended"
      (<["b1" := with_versioning (b1 Enabled 1) Enabled (Some (Suspended, 1))]> ∅)
    = (Return (Some "Suspended"), s',
       [Api (GetBucketVersioning "b1") (Versioning (Some "Enabled"));
        Sleep 5;
        Api (GetBucketVersioning "b1") (Versioning (Some "Suspended"))]).
Proof. eexists. vm_compute. reflexivity. Qed.

(** ** The bucket-delete step *)

Lemma delete_bucket_undecorated_calls_once {St} (s3_client : S3Client St)
    name s r s' t :
  delete_bucket_undecorated s3_client name s = (r, s', t) ->
  exists resp,
    t = [Api (DeleteBucket name) resp] /\ bucket_delete_result resp = Some r.
Proof.
  unfold delete_bucket_undecorated. intros H.
  apply try_except_inv in H as [[H Hh] | (e & k & s1 & t1 & t2 & H1 & He & Hk & ->)].
  - apply api_inv in H as [([] & _ & -> & ->) | (e & _ & -> & ->)].
    + exists Done. split; reflexivity.
    + exists (Failed e). split; [reflexivity |].
      specialize (Hh _ eq_refl). destruct e as [| |code|]; try reflexivity.
      cbn in Hh. destruct (String.eqb code "NoSuchBucket"); discriminate.
  - apply api_inv in H1 as [(a & _ & [=] & _) | (e' & _ & [= ->] & ->)].
    destruct e' as [| |code|]; try discriminate. cbn in He.
    destruct (String.eqb code "NoSuchBucket") eqn:E; injection He as <-;
      injection Hk as <- <- <-; exists (Failed (ClientError code));
      (split; [reflexivity |]); cbn; rewrite E; reflexivity.
Qed.

(** C5: in every run of the bucket-delete step, the result is decided by the
    store's answer to the last delete-bucket call: when the store answers
    "NoSuchBucket" (or deletes the bucket) the step returns normally, and when
    it answers with any other error that error is raised to the caller.  The
    calls before the last one are those the retry decorator repeated: they
    failed with a code the policy retries, never with "NoSuchBucket", which is
    swallowed at once. *)
Theorem delete_bucket_swallows_NoSuchBucket {St} (s3_client : S3Client St)
    policy name s r s' t :
  delete_bucket s3_client policy name s = (r, s', t) ->
  exists pre resp,
    t = pre ++ [Api (DeleteBucket name) resp]
    /\ bucket_delete_result resp = Some r
    /\ Forall (retried_delete policy name) pre.
Proof.
  unfold delete_bucket, exponential_backoff. intros H.
  eapply (retry_func_run policy [] (DeleteBucket name)
            (fun r resp => bucket_delete_result resp = Some r)) in H;
    [| intros; eapply delete_bucket_undecorated_calls_once; eassumption].
  destruct H as (pre & resp & -> & HQ & Hpre & _).
  exists pre, resp. split; [reflexivity |]. split; [exact HQ |].
  eapply Forall_impl; [exact Hpre |].
  intros ev [(d & ->) | (code & resp' & -> & Hres & Hfound)]; [left; eauto |].
  right. exists code.
  destruct resp' as [[| |code'|]| | | | |]; try discriminate.
  cbn in Hres. destruct (String.eqb code' "NoSuchBucket") eqn:E; [discriminate |].
  injection Hres as ->. apply String.eqb_neq in E. auto.
Qed.

Lemma delete_bucket_swallows_NoSuchBucket_witness :
  exists pre resp,
    [Api (DeleteBucket "b2") (Failed (ClientError "NoSuchBucket"))]
    = pre ++ [Api (DeleteBucket "b2") resp]
    /\ bucket_delete_result resp = Some (Return tt)
    /\ Forall (retried_delete sample_policy "b2") pre.
Proof.
  apply (delete_bucket_swallows_NoSuchBucket (ref_client 2) sample_policy "b2"
           (store1 Enabled 1) (Return tt) (store1 Enabled 1)).
  vm_compute. reflexivity.
Defined.

(** An error other than "NoSuchBucket" that the policy does not retry leaves
    [delete_bucket] at the first call, and ends the workflow. *)
Example delete_bucket_raises_AccessDenied :
  delete_bucket (faulty (ref_client 2)) sample_policy "b1"
    ([Some (ClientError "AccessDenied")], store1 Enabled 1)
  = (Raise (Boto (ClientError "AccessDenied")), ([], store1 Enabled 1),
     [Api (DeleteBucket "b1") (Failed (ClientError "AccessDenied"))]).
Proof. vm_compute. reflexivity. Qed.

(** ** The sweep of the plain objects *)

Lemma purge_objects_pages_run {St} (s3_client : S3Client St) name pages s r s' t :
  for_page (ListObjectsV2 name) PageOfObjects pages
    (purge_objects_page s3_client name) s = (r, s', t) ->
  forall page,
    In (Api (ListObjectsV2 name) (PageOfObjects page)) t ->
    has_contents page = true ->
    r = Raise (NameError "bucket_name")
    /\ exists pre, t = pre ++ [Api (ListObjectsV2 name) (PageOfObjects page)].
Proof.
  revert r s' t. induction pages as [|[e|p] rest IH]; intros r s' t H page Hin Hc.
  - injection H as <- <- <-. destruct Hin.
  - cbn in H. injection H as <- <- <-.
    destruct Hin as [[=] | []].
  - cbn [for_page] in H. unfold bind at 1 in H. unfold emit in H.
    unfold purge_objects_page, has_contents in *.
    destruct (Contents p) as [| |[|c cs]] eqn:E.
    + unfold bind, ret in H.
      destruct (for_page _ _ rest _ s) as [[r2 s2] t2] eqn:Hrest.
      injection H as <- <- <-.
      destruct Hin as [[= <-] | Hin]; [rewrite E in Hc; discriminate |].
      destruct (IH _ _ _ eq_refl page Hin Hc) as (-> & pre & ->).
      split; [reflexivity |]. eexists (_ :: pre). reflexivity.
    + cbn in H. injection H as <- <- <-.
      destruct Hin as [[= <-] | []]. rewrite E in Hc. discriminate.
    + cbn [for_in] in H. unfold bind, ret in H.
      destruct (for_page _ _ rest _ s) as [[r2 s2] t2] eqn:Hrest.
      injection H as <- <- <-.
      destruct Hin as [[= <-] | Hin]; [rewrite E in Hc; discriminate |].
      destruct (IH _ _ _ eq_refl page Hin Hc) as (-> & pre & ->).
      split; [reflexivity |]. eexists (_ :: pre). reflexivity.
    + cbn in H. injection H as <- <- <-.
      destruct Hin as [[= <-] | []].
      split; [reflexivity |]. exists []. reflexivity.
Qed.

Lemma module_event_not_plain_delete name ev :
  module_event name ev -> is_plain_delete ev = false.
Proof.
  intros [st H]. destruct ev as [[b|b|b status|b|b|b k [i|]|b|b] resp| |];
    try reflexivity.
  destruct st; cbn in H; contradiction.
Qed.

Lemma listing_only_in_sweep st name page t :
  Forall (stage_event st name) t ->
  st <> PurgePlainObjects ->
  ~ In (Api (ListObjectsV2 name) (PageOfObjects page)) t.
Proof.
  intros Ht Hst Hin. rewrite Forall_forall in Ht.
  apply list_elem_of_In, Ht in Hin. destruct st; cbn in Hin; congruence.
Qed.

(** C10: no run of the workflow ever issues a delete-object call without a
    version id.  In a [force] run, as soon as a page of the plain listing
    comes back with at least one object under 'Contents', the run stops on
    that page, which is the last event of its trace: naming [bucket_name]
    raises [NameError], and the exception leaves [destroy_bucket]. *)
Theorem plain_sweep_never_deletes {St} (s3_client : S3Client St)
    policy name s r s' t :
  destroy_bucket s3_client policy true name s = (r, s', t) ->
  count is_plain_delete t = 0
  /\ forall page,
       In (Api (ListObjectsV2 name) (PageOfObjects page)) t ->
       has_contents page = true ->
       r = Raise (NameError "bucket_name")
       /\ exists pre, t = pre ++ [Api (ListObjectsV2 name) (PageOfObjects page)].
Proof.
  intros H. split.
  { destruct (destroy_bucket_within s3_client policy true name _ _ _ _ Logic.I H)
      as (_ & Ht & _).
    apply count_none. eapply Forall_impl; [exact Ht |].
    apply module_event_not_plain_delete. }
  intros page Hin Hc.
  pose (T := fun _ : St => True).
  apply destroy_bucket_inv in H as (rA & sA & tA & HA & H).
  destruct (probe_existence_within s3_client T name (preserved_True _)
              _ _ _ _ Logic.I HA) as (_ & HtA & _).
  assert (HnA := listing_only_in_sweep _ _ page _ HtA ltac:(discriminate)).
  destruct rA as [[|]|e|o];
    try (destruct H as (_ & _ & ->); contradiction).
  destruct H as (rB & sB & tB & HB & H).
  apply purge_bucket_inv in HB as (r1 & s1 & t1 & H1 & HB).
  destruct (suspend_versioning_within s3_client policy T name
              (preserved_True _) (preserved_True _) _ _ _ _ Logic.I H1)
    as (_ & Ht1 & _).
  assert (Hn1 := listing_only_in_sweep _ _ page _ Ht1 ltac:(discriminate)).
  assert (Hstop1 : forall tB', tB' = t1 -> ~ In (Api (ListObjectsV2 name) (PageOfObjects page)) (tA ++ tB')).
  { intros tB' -> Hi. apply in_app_or in Hi as [Hi | Hi]; contradiction. }
  destruct r1 as [st|e|o].
  2:{ destruct HB as (-> & _ & HtB). destruct H as (_ & _ & ->).
      exfalso. eapply Hstop1; eassumption. }
  2:{ destruct HB as (-> & _ & HtB). destruct H as (_ & _ & ->).
      exfalso. eapply Hstop1; eassumption. }
  destruct HB as (r2 & s2 & t2 & H2 & HB).
  destruct (purge_versions_within s3_client T name
              (fun _ _ => preserved_True _) _ _ _ _ Logic.I H2) as (_ & Ht2 & _).
  assert (Hn2 := listing_only_in_sweep _ _ page _ Ht2 ltac:(discriminate)).
  assert (Hstop2 : forall tB', tB' = t1 ++ t2 -> ~ In (Api (ListObjectsV2 name) (PageOfObjects page)) (tA ++ tB')).
  { intros tB' -> Hi. apply in_app_or in Hi as [Hi | Hi]; [contradiction |].
    apply in_app_or in Hi as [Hi | Hi]; contradiction. }
  destruct r2 as [u|e|o].
  2:{ destruct HB as (-> & _ & HtB). destruct H as (_ & _ & ->).
      exfalso. eapply Hstop2; eassumption. }
  2:{ destruct HB as (-> & _ & HtB). destruct H as (_ & _ & ->).
      exfalso. eapply Hstop2; eassumption. }
  destruct HB as (t3 & H3 & ->).
  pose proof (purge_objects_pages_run _ _ _ _ _ _ _ H3 page) as Hsweep.
  destruct rB as [u'|e|o].
  - (* the sweep returned: the page cannot be in its trace *)
    destruct H as (rC & tC & HC & -> & _).
    destruct (remove_bucket_within s3_client policy T name
                (preserved_True _) (preserved_True _) _ _ _ _ Logic.I HC)
      as (_ & HtC & _).
    assert (HnC := listing_only_in_sweep _ _ page _ HtC ltac:(discriminate)).
    exfalso.
    apply in_app_or in Hin as [Hi | Hi]; [contradiction |].
    apply in_app_or in Hi as [Hi | Hi]; [| contradiction].
    apply in_app_or in Hi as [Hi | Hi]; [contradiction |].
    apply in_app_or in Hi as [Hi | Hi]; [contradiction |].
    destruct (Hsweep Hi Hc) as ([=] & _).
  - destruct H as (-> & _ & ->).
    apply in_app_or in Hin as [Hi | Hi]; [contradiction |].
    apply in_app_or in Hi as [Hi | Hi]; [contradiction |].
    apply in_app_or in Hi as [Hi | Hi]; [contradiction |].
    destruct (Hsweep Hi Hc) as (-> & pre & ->).
    split; [reflexivity |]. exists (tA ++ t1 ++ t2 ++ pre).
    rewrite <- !app_assoc. reflexivity.
  - destruct H as (-> & _ & ->). exfalso.
    apply in_app_or in Hin as [Hi | Hi]; [contradiction |].
    apply in_app_or in Hi as [Hi | Hi]; [contradiction |].
    apply in_app_or in Hi as [Hi | Hi]; [contradiction |].
    destruct (Hsweep Hi Hc) as ([=] & _).
Qed.

(** A bucket that holds plain objects: the version is purged, then the sweep
    stops on the first page of the plain listing and the objects stay. *)
Lemma plain_sweep_never_deletes_witness :
  exists s' t,
    destroy_bucket (ref_client 2) sample_policy true "b1" store2
    = (Raise (NameError "bucket_name"), s', t)
    /\ plain_objects s' "b1" = ["x"; "y"; "z"]
    /\ count is_plain_delete t = 0
    /\ forall page,
         In (Api (ListObjectsV2 "b1") (PageOfObjects page)) t ->
         has_contents page = true ->
         Raise (NameError "bucket_name") = Raise (A := unit) (NameError "bucket_name")
         /\ exists pre, t = pre ++ [Api (ListObjectsV2 "b1") (PageOfObjects page)].
Proof.
  eexists _, _. split; [vm_compute; reflexivity |].
  split; [vm_compute; reflexivity |].
  eapply (plain_sweep_never_deletes (ref_client 2) sample_policy "b1" store2).
  vm_compute. reflexivity.
Defined.

(** ** Which calls are retried *)

(** C9 as stated does not hold: the existence probe is not wrapped.  With a
    policy that has retries left and counts "Throttling" as transient, one
    throttled answer to the listing of the probe ends the run at once, with no
    backoff and no second attempt, although the store would have answered the
    next call. *)
Lemma probe_not_retried :
  retries sample_policy = 3
  /\ found sample_policy [] "Throttling" = true
  /\ destroy_bucket (faulty (ref_client 2)) sample_policy true "b1"
       ([Some (ClientError "Throttling")], store1 Enabled 1)
     = (SystemExit (FailJsonAws (Boto (ClientError "Throttling"))
                      "Failed to check bucket presence"),
        ([], store1 Enabled 1),
        [Api (ListBuckets "b1") (Failed (ClientError "Throttling"))])
  /\ fst (s3_list_buckets (faulty (ref_client 2)) "b1" ([], store1 Enabled 1))
     = inr ["b1"].
Proof. repeat split; vm_compute; reflexivity. Qed.

(** ** The purge of the versions on the reference store *)

Lemma filter_partition {A} (p : A -> bool) (l : list A) :
  Permutation (List.filter p l ++ List.filter (fun x => negb (p x)) l) l.
Proof.
  induction l as [|x l IH]; cbn; [constructor |].
  destruct (p x); cbn.
  - constructor. exact IH.
  - symmetry. apply Permutation_cons_app. symmetry. exact IH.
Qed.

Lemma chunks_concat {A} fuel per_page (l : list A) :
  length l <= fuel -> concat (chunks fuel per_page l) = l.
Proof.
  revert l. induction fuel as [|fuel IH]; intros l Hl.
  - destruct l; [reflexivity | cbn in Hl; lia].
  - destruct l as [|x l]; [reflexivity |].
    cbn [chunks concat]. rewrite IH.
    + apply take_drop.
    + cbn [drop]. rewrite length_drop. cbn in Hl. lia.
Qed.

Lemma paginate_concat {A} max_keys (l : list A) :
  concat (paginate max_keys l) = l.
Proof.
  unfold paginate. destruct l as [|x l]; [reflexivity |].
  apply chunks_concat. lia.
Qed.

Lemma version_deletes_app t1 t2 :
  version_deletes (t1 ++ t2) = version_deletes t1 ++ version_deletes t2.
Proof. unfold version_deletes. apply flat_map_app. Qed.

Lemma version_deletes_deleted name l :
  version_deletes (map (deleted name) l) = map (record_id name) l.
Proof. induction l as [|r l IH]; cbn; [reflexivity | rewrite <- IH; reflexivity]. Qed.

Lemma version_deletes_pages name pages :
  Permutation (version_deletes (flat_map (page_trace name) pages))
    (map (record_id name) (concat pages)).
Proof.
  induction pages as [|page pages IH]; cbn [flat_map concat]; [constructor |].
  rewrite version_deletes_app, map_app. apply Permutation_app; [| exact IH].
  unfold page_trace. cbn [version_deletes flat_map app].
  change (flat_map _ ?t) with (version_deletes t).
  rewrite version_deletes_app, !version_deletes_deleted, <- map_app.
  apply Permutation_map, filter_partition.
Qed.

Lemma stage_no_version_deletes st name t :
  Forall (stage_event st name) t -> st <> PurgeVersions -> version_deletes t = [].
Proof.
  intros Ht Hst. induction Ht as [|ev t Hev _ IH]; [reflexivity |].
  unfold version_deletes in *. cbn [flat_map]. rewrite IH, app_nil_r.
  destruct ev as [[b|b|b status|b|b|b k [i|]|b|b] resp| |]; try reflexivity.
  destruct st; cbn in Hev; first [contradiction | congruence].
Qed.

Lemma stage_no_bucket_delete st name t :
  Forall (stage_event st name) t -> st <> DeleteBucketStage ->
  count is_delete_bucket t = 0.
Proof.
  intros Ht Hst. apply count_none. eapply Forall_impl; [exact Ht |].
  intros ev Hev.
  destruct ev as [[b|b|b status|b|b|b k i|b|b] resp| |]; try reflexivity.
  destruct st; cbn in Hev; first [contradiction | congruence].
Qed.

Section ReferencePurge.

Variable max_keys : nat.
Variable policy : RetryPolicy.
Variable name : string.

Local Abbreviation client := (ref_client max_keys).

Lemma ref_get_holds rs os :
  preserved (holds name rs os) (s3_get_bucket_versioning client name).
Proof.
  intros s r s' (bk & Hbk & Hr & Ho). cbn. rewrite Hbk.
  destruct (pending bk) as [[m [|n]]|]; intros [= <- <-].
  - eexists. rewrite lookup_insert_eq. split; [reflexivity | auto].
  - eexists. rewrite lookup_insert_eq. split; [reflexivity | auto].
  - exists bk. auto.
Qed.

Lemma ref_put_holds rs os status :
  preserved (holds name rs os) (s3_put_bucket_versioning client name status).
Proof.
  intros s r s' (bk & Hbk & Hr & Ho). cbn. rewrite Hbk.
  destruct (mode_of_status status); intros [= <- <-].
  - eexists. rewrite lookup_insert_eq. split; [reflexivity | auto].
  - exists bk. auto.
Qed.

(** The delete-object calls for the entries of a page succeed one after the
    other while the bucket is there. *)
Lemma ref_delete_entries (l : list ObjectVersionRecord)
    (s : gmap string BucketState) :
  is_Some (s !! name) ->
  exists s',
    for_in (map entry_of l) (fun e =>
      delete_object client name (Key e) (Some (VersionId e))) s
    = (Return tt, s', map (deleted name) l)
    /\ is_Some (s' !! name).
Proof.
  revert s. induction l as [|r l IH]; intros s [bk Hbk].
  - exists s. split; [reflexivity | eauto].
  - cbn [map for_in].
    set (s1 := <[name := with_contents bk
                   (List.filter (fun r' => negb (same_record (key r) (versionId r) r'))
                      (records bk)) (objects bk)]> s).
    assert (H1 : delete_object client name (key r) (Some (versionId r)) s
                 = (Return tt, s1, [deleted name r])).
    { unfold delete_object, api. cbn. rewrite Hbk. reflexivity. }
    destruct (IH s1) as (s' & Hrest & Hs').
    { unfold s1. rewrite lookup_insert_eq. eauto. }
    exists s'. split; [| exact Hs'].
    cbn [entry_of Key VersionId].
    erewrite bind_Return by exact H1. rewrite Hrest. reflexivity.
Qed.

Lemma for_in_listed {A} (l : list A) (body : A -> M (gmap string BucketState) unit) :
  match listed l with
  | Value xs => for_in xs body
  | PyNone | Missing => ret tt
  end = for_in l body.
Proof. destruct l; reflexivity. Qed.

Lemma ref_purge_versions_page page (s : gmap string BucketState) :
  is_Some (s !! name) ->
  exists s',
    purge_versions_page client name (versions_page page) s
    = (Return tt, s',
       map (deleted name) (List.filter isDeleteMarker page)
       ++ map (deleted name) (List.filter (fun r => negb (isDeleteMarker r)) page))
    /\ is_Some (s' !! name).
Proof.
  intros Hs. unfold purge_versions_page, versions_page.
  cbn [DeleteMarkers Versions]. rewrite !for_in_listed.
  destruct (ref_delete_entries (List.filter isDeleteMarker page) s Hs)
    as (s1 & H1 & Hs1).
  destruct (ref_delete_entries
              (List.filter (fun r => negb (isDeleteMarker r)) page) s1 Hs1)
    as (s2 & H2 & Hs2).
  exists s2. split; [| exact Hs2].
  erewrite bind_Return by exact H1. rewrite H2. reflexivity.
Qed.

Lemma ref_purge_versions_pages pages (s : gmap string BucketState) :
  is_Some (s !! name) ->
  exists s',
    for_page (ListObjectVersions name) PageOfVersions
      (map (fun c => inr (versions_page c)) pages)
      (purge_versions_page client name) s
    = (Return tt, s', flat_map (page_trace name) pages)
    /\ is_Some (s' !! name).
Proof.
  revert s. induction pages as [|page pages IH]; intros s Hs.
  - exists s. split; [reflexivity | exact Hs].
  - destruct (ref_purge_versions_page page s Hs) as (s1 & H1 & Hs1).
    destruct (IH s1 Hs1) as (s2 & H2 & Hs2).
    exists s2. split; [| exact Hs2].
    cbn [map for_page flat_map].
    unfold bind at 1. unfold emit.
    erewrite bind_Return by exact H1. rewrite H2.
    unfold page_trace. cbn. rewrite <- app_assoc. reflexivity.
Qed.

Lemma ref_purge_versions rs os (s : gmap string BucketState) :
  holds name rs os s ->
  exists s',
    purge_versions client name s
    = (Return tt, s', flat_map (page_trace name) (paginate max_keys rs)).
Proof.
  intros (bk & Hbk & <- & _). unfold purge_versions. cbn [s3_list_object_versions ref_client].
  rewrite Hbk.
  destruct (ref_purge_versions_pages (paginate max_keys (records bk)) s) as (s' & H & _);
    [eauto |].
  exists s'. exact H.
Qed.

End ReferencePurge.

(** ** The purge comes before the bucket delete *)

Lemma retry_func_first {St A} policy extra c (Q : Result A -> Response -> Prop)
    (f : M St A) :
  (forall s r s' t, f s = (r, s', t) -> exists resp, t = [Api c resp] /\ Q r resp) ->
  forall delays s r s' t,
    retry_func policy extra delays f s = (r, s', t) ->
    exists resp rest, t = Api c resp :: rest.
Proof.
  intros Hf delays s r s' t H. destruct delays as [|d rest]; simpl in H.
  - apply Hf in H as (resp & -> & _). eauto.
  - apply try_except_inv in H as [[H _] | (e & k & s1 & t1 & t2 & H1 & _ & _ & ->)].
    + apply Hf in H as (resp & -> & _). eauto.
    + apply Hf in H1 as (resp & -> & _). eauto.
Qed.

(** The first event of the block that removes the bucket is the
    delete-bucket call. *)
Lemma remove_bucket_first {St} (s3_client : S3Client St) policy name s r s' t :
  remove_bucket s3_client policy name s = (r, s', t) ->
  exists resp rest, t = Api (DeleteBucket name) resp :: rest.
Proof.
  assert (Hd : forall s r s' t,
             delete_bucket s3_client policy name s = (r, s', t) ->
             exists resp rest, t = Api (DeleteBucket name) resp :: rest).
  { intros s0 r0 s0' t0. unfold delete_bucket, exponential_backoff.
    apply (retry_func_first policy [] (DeleteBucket name)
             (fun r resp => bucket_delete_result resp = Some r)).
    intros; eapply delete_bucket_undecorated_calls_once; eassumption. }
  assert (Hb : forall s r s' t,
             bind (delete_bucket s3_client policy name)
               (fun _ => api (WaitBucketNotExists name) (fun _ => Done)
                           (s3_wait_bucket_not_exists s3_client name)) s
             = (r, s', t) ->
             exists resp rest, t = Api (DeleteBucket name) resp :: rest).
  { intros s0 r0 s0' t0 H.
    apply bind_inv in H as [(a & s1 & t1 & t2 & H1 & _ & ->) | [(e & H1 & _) | (o & H1 & _)]];
      apply Hd in H1 as (resp & rest & ->); eauto. }
  unfold remove_bucket. intros H.
  apply try_except_inv in H as [[H _] | (e & k & s1 & t1 & t2 & H1 & _ & _ & ->)].
  - eapply Hb; eassumption.
  - apply Hb in H1 as (resp & rest & ->). exists resp, (rest ++ t2). reflexivity.
Qed.

(** In every [force] run on the reference store that issues the
    bucket-delete request, the calls before that request include exactly one
    version-aware delete-object call for each record of the bucket, and no
    such call follows it. *)
Theorem purge_precedes_bucket_delete max_keys policy name
    (s : gmap string BucketState) r s' t :
  destroy_bucket (ref_client max_keys) policy true name s = (r, s', t) ->
  count is_delete_bucket t <> 0 ->
  exists pre resp post,
    t = pre ++ Api (DeleteBucket name) resp :: post
    /\ count is_delete_bucket pre = 0
    /\ Permutation (version_deletes pre)
         (map (record_id name) (object_versions s name))
    /\ length (version_deletes pre)
       = length (data_versions s name) + length (delete_markers s name)
    /\ version_deletes post = [].
Proof.
  intros H Hissued.
  apply destroy_bucket_inv in H as (rA & sA & tA & HA & H).
  rewrite ref_probe_existence in HA. injection HA as <- <- <-.
  set (tA := [Api (ListBuckets name) (Buckets (map fst (map_to_list s)))]) in *.
  assert (HtA : count is_delete_bucket tA = 0) by reflexivity.
  assert (HvA : version_deletes tA = []) by reflexivity.
  destruct (bucket_present s name) eqn:Hpresent.
  2:{ destruct H as (_ & _ & ->). contradiction. }
  apply bool_decide_eq_true in Hpresent as [bk Hbk].
  destruct H as (rB & sB & tB & HB & H).
  apply purge_bucket_inv in HB as (r1 & s1 & t1 & H1 & HB).
  destruct (suspend_versioning_within (ref_client max_keys) policy
              (holds name (records bk) (objects bk)) name
              (ref_get_holds max_keys name _ _) (ref_put_holds max_keys name _ _ _)
              _ _ _ _ (ex_intro _ bk (conj Hbk (conj eq_refl eq_refl))) H1)
    as (Hs1 & Ht1 & _).
  assert (Hc1 := stage_no_bucket_delete _ _ _ Ht1 ltac:(discriminate)).
  assert (Hv1 := stage_no_version_deletes _ _ _ Ht1 ltac:(discriminate)).
  destruct r1 as [st|e|o].
  2:{ destruct HB as (-> & _ & ->). destruct H as (_ & _ & ->).
      rewrite count_app, HtA, Hc1 in Hissued. contradiction. }
  2:{ destruct HB as (-> & _ & ->). destruct H as (_ & _ & ->).
      rewrite count_app, HtA, Hc1 in Hissued. contradiction. }
  destruct HB as (r2 & s2 & t2 & H2 & HB).
  destruct (ref_purge_versions max_keys name _ _ _ Hs1) as (s2' & Hpurge).
  rewrite Hpurge in H2. injection H2 as <- <- <-.
  destruct HB as (t3 & H3 & ->).
  destruct (purge_plain_objects_within (ref_client max_keys) (fun _ => True) name
              _ _ _ _ Logic.I H3) as (_ & Ht3 & _).
  assert (Hc3 := stage_no_bucket_delete _ _ _ Ht3 ltac:(discriminate)).
  assert (Hv3 := stage_no_version_deletes _ _ _ Ht3 ltac:(discriminate)).
  set (t2 := flat_map (page_trace name) (paginate max_keys (records bk))) in *.
  assert (Ht2 : Forall (stage_event PurgeVersions name) t2).
  { destruct (purge_versions_within (ref_client max_keys) (fun _ => True) name
                (fun _ _ => preserved_True _) _ _ _ _ Logic.I Hpurge) as (_ & Ht2 & _).
    exact Ht2. }
  assert (Hc2 := stage_no_bucket_delete _ _ _ Ht2 ltac:(discriminate)).
  assert (Hpre : count is_delete_bucket (tA ++ t1 ++ t2 ++ t3) = 0).
  { rewrite !count_app, HtA, Hc1, Hc2, Hc3. reflexivity. }
  assert (Hperm : Permutation (version_deletes (tA ++ t1 ++ t2 ++ t3))
                    (map (record_id name) (records bk))).
  { rewrite !version_deletes_app, HvA, Hv1, Hv3, app_nil_r. cbn [app].
    unfold t2. rewrite version_deletes_pages, paginate_concat. reflexivity. }
  destruct rB as [u|e|o].
  2:{ destruct H as (_ & _ & ->). rewrite Hpre in Hissued. contradiction. }
  2:{ destruct H as (_ & _ & ->). rewrite Hpre in Hissued. contradiction. }
  destruct H as (rC & tC & HC & -> & _).
  destruct (remove_bucket_within (ref_client max_keys) policy (fun _ => True) name
              (preserved_True _) (preserved_True _) _ _ _ _ Logic.I HC)
    as (_ & HtC & _).
  apply remove_bucket_first in HC as (resp & post & ->).
  exists (tA ++ t1 ++ t2 ++ t3), resp, post.
  unfold data_versions, delete_markers, object_versions. rewrite Hbk.
  split; [| split; [exact Hpre | split; [exact Hperm | split]]].
  - rewrite <- !app_assoc. reflexivity.
  - rewrite (Permutation_length Hperm), length_map.
    rewrite <- (Permutation_length (filter_partition isDeleteMarker (records bk))).
    rewrite length_app. lia.
  - apply Forall_cons in HtC as [_ Hpost].
    eapply stage_no_version_deletes; [exact Hpost | discriminate].
Qed.

(** The scenario of the spec: versioning [Enabled], three data versions and
    two delete markers, [force]: the versioning is suspended, five deletions
    are issued, the bucket is deleted and the run reports a change. *)
Lemma purge_precedes_bucket_delete_witness :
  exists s' t pre resp post,
    destroy_bucket (ref_client 2) sample_policy true "b1" (store1 Enabled 1)
    = (SystemExit (ExitJson true), s', t)
    /\ t = pre ++ Api (DeleteBucket "b1") resp :: post
    /\ count is_delete_bucket pre = 0
    /\ Permutation (version_deletes pre)
         (map (record_id "b1") (object_versions (store1 Enabled 1) "b1"))
    /\ length (version_deletes pre)
       = length (data_versions (store1 Enabled 1) "b1")
         + length (delete_markers (store1 Enabled 1) "b1")
    /\ version_deletes post = [].
Proof.
  eexists _, _.
  assert (Hrun : destroy_bucket (ref_client 2) sample_policy true "b1" (store1 Enabled 1)
                 = (SystemExit (ExitJson true), _, _)) by (vm_compute; reflexivity).
  destruct (purge_precedes_bucket_delete 2 sample_policy "b1" (store1 Enabled 1)
              _ _ _ Hrun) as (pre & resp & post & H).
  { vm_compute. discriminate. }
  exists pre, resp, post. split; [exact Hrun | exact H].
Defined.


(** ** The scenarios of the spec *)

(** Bucket "b1" exists, versioning [Enabled], three data versions and two
    delete markers, [force]: the versioning is suspended, five deletions are
    issued page by page, the bucket is deleted, the run reports a change. *)
Example scenario_b1 :
  destroy_bucket (ref_client 2) sample_policy true "b1" (store1 Enabled 1)
  = (SystemExit (ExitJson true), ∅,
     [Api (ListBuckets "b1") (Buckets ["b1"]);
      Api (GetBucketVersioning "b1") (Versioning (Some "Enabled"));
      Api (PutBucketVersioning "b1" "Suspended") Done;
      Api (GetBucketVersioning "b1") (Versioning (Some "Enabled"));
      Sleep 5;
      Api (GetBucketVersioning "b1") (Versioning (Some "Suspended"));
      Api (ListObjectVersions "b1") (PageOfVersions (versions_page [v "a" "1"; dm "a" "2"]));
      Api (DeleteObject "b1" "a" (Some "2")) Done;
      Api (DeleteObject "b1" "a" (Some "1")) Done;
      Api (ListObjectVersions "b1") (PageOfVersions (versions_page [v "b" "1"; v "c" "1"]));
      Api (DeleteObject "b1" "b" (Some "1")) Done;
      Api (DeleteObject "b1" "c" (Some "1")) Done;
      Api (ListObjectVersions "b1") (PageOfVersions (versions_page [dm "c" "2"]));
      Api (DeleteObject "b1" "c" (Some "2")) Done;
      Api (ListObjectsV2 "b1") (PageOfObjects (objects_page []));
      Api (DeleteBucket "b1") Done;
      Api (WaitBucketNotExists "b1") Done]).
Proof. vm_compute. reflexivity. Qed.

(** The same bucket with versioning never enabled: the run stops on the
    unassigned variable. *)
Example scenario_b1_unset :
  destroy_bucket (ref_client 2) sample_policy true "b1" (store1 Unset 1)
  = (Raise (UnboundLocalError "required_versioning"), store1 Unset 1,
     [Api (ListBuckets "b1") (Buckets ["b1"]);
      Api (GetBucketVersioning "b1") (Versioning None)]).
Proof. vm_compute. reflexivity. Qed.

(** Bucket "b2" does not exist. *)
Example scenario_b2 :
  destroy_bucket (ref_client 2) sample_policy true "b2" ∅
  = (SystemExit (ExitJson false), ∅, [Api (ListBuckets "b2") (Buckets [])]).
Proof. vm_compute. reflexivity. Qed.

(** An injected "NoSuchBucket" on the delete call is swallowed and the step
    goes on to the waiter; the bucket being still there, the waiter gives up
    and the run fails on the waiter, not on the delete. *)
Example scenario_NoSuchBucket_then_waiter :
  destroy_bucket (faulty (ref_client 2)) sample_policy false "b1"
    ([None; Some (ClientError "NoSuchBucket")], store1 Enabled 1)
  = (SystemExit (FailJsonAws (Boto WaiterError)
                   "An error occurred waiting for the bucket to be deleted."),
     ([], store1 Enabled 1),
     [Api (ListBuckets "b1") (Buckets ["b1"]);
      Api (DeleteBucket "b1") (Failed (ClientError "NoSuchBucket"));
      Api (WaitBucketNotExists "b1") (Failed WaiterError)]).
Proof. vm_compute. reflexivity. Qed.

(** * Further properties of the module *)

(** ** The existence probe *)

Lemma existsb_eqb_In name (names : list string) :
  existsb (String.eqb name) names = true <-> In name names.
Proof.
  rewrite existsb_exists. split.
  - intros (x & Hin & Heq). apply String.eqb_eq in Heq. subst x. exact Hin.
  - intros Hin. exists name. split; [exact Hin | apply String.eqb_refl].
Qed.

Lemma probe_existence_run {St} (s3_client : S3Client St) name s r s' t :
  probe_existence s3_client name s = (r, s', t) ->
  (exists names,
      s3_list_buckets s3_client name s = (inr names, s')
      /\ r = Return (existsb (String.eqb name) names)
      /\ t = [Api (ListBuckets name) (Buckets names)])
  \/ (exists e,
      s3_list_buckets s3_client name s = (inl e, s')
      /\ r = SystemExit (FailJsonAws (Boto e) (probe_failed_msg e))
      /\ t = [Api (ListBuckets name) (Failed e)]).
Proof.
  unfold probe_existence, bucket_exists, try_except, bind, api, ret.
  destruct (s3_list_buckets s3_client name s) as [[e|names] s1].
  - destruct e; cbn; intros [= <- <- <-]; right; eexists; repeat split.
  - cbn. intros [= <- <- <-]. left. eexists. repeat split.
Qed.

(** X1: the existence probe makes exactly one call, the listing.  It answers
    whether the name is among the names listed (an exact match), and it never
    raises: any error of the listing ends the process through
    [fail_json_aws], with the message for an invalid endpoint when the error
    is [EndpointConnectionError] and the message for a failed check
    otherwise. *)
Theorem probe_existence_outcomes {St} (s3_client : S3Client St) name s r s' t :
  probe_existence s3_client name s = (r, s', t) ->
  (exists names b,
      t = [Api (ListBuckets name) (Buckets names)]
      /\ r = Return b /\ (b = true <-> In name names))
  \/ (exists e,
      t = [Api (ListBuckets name) (Failed e)]
      /\ r = SystemExit (FailJsonAws (Boto e)
             (if is_EndpointConnectionError (Boto e)
              then "Invalid endpoint provided: " ++ to_text (Boto e)
              else "Failed to check bucket presence"))).
Proof.
  intros H.
  apply probe_existence_run in H as [(names & _ & -> & ->) | (e & _ & -> & ->)].
  - left. exists names, (existsb (String.eqb name) names).
    repeat split; apply existsb_eqb_In.
  - right. exists e. split; [reflexivity |]. destruct e; reflexivity.
Qed.

Lemma probe_existence_outcomes_witness :
  (exists names b,
      [Api (ListBuckets "b") (Buckets ["b1"])]
      = [Api (ListBuckets "b") (Buckets names)]
      /\ Return false = Return b /\ (b = true <-> In "b" names))
  \/ (exists e,
      [Api (ListBuckets "b") (Buckets ["b1"])] = [Api (ListBuckets "b") (Failed e)]
      /\ Return false = SystemExit (FailJsonAws (Boto e)
             (if is_EndpointConnectionError (Boto e)
              then "Invalid endpoint provided: " ++ to_text (Boto e)
              else "Failed to check bucket presence"))).
Proof.
  apply (probe_existence_outcomes (ref_client 2) "b" (store1 Enabled 1)
           (Return false) (store1 Enabled 1)).
  vm_compute. reflexivity.
Defined.

(** ** The block that removes the bucket *)

Lemma delete_bucket_run {St} (s3_client : S3Client St) policy name s r s' t :
  delete_bucket s3_client policy name s = (r, s', t) ->
  exists pre resp,
    t = pre ++ [Api (DeleteBucket name) resp]
    /\ bucket_delete_result resp = Some r.
Proof.
  unfold delete_bucket, exponential_backoff. intros H.
  eapply (retry_func_run policy [] (DeleteBucket name)
            (fun r resp => bucket_delete_result resp = Some r)) in H;
    [| intros; eapply delete_bucket_undecorated_calls_once; eassumption].
  destruct H as (pre & resp & -> & HQ & _). eauto.
Qed.

Lemma bucket_delete_result_Raise resp e :
  bucket_delete_result resp = Some (Raise e) ->
  exists b, e = Boto b /\ resp = Failed b.
Proof.
  destruct resp as [[| |code|]| | | | |]; cbn; try discriminate;
    try (intros [= <-]; eauto).
  destruct (String.eqb code "NoSuchBucket"); [discriminate |].
  intros [= <-]. eauto.
Qed.

Lemma remove_bucket_run {St} (s3_client : S3Client St) policy name s r s' t :
  remove_bucket s3_client policy name s = (r, s', t) ->
  (r = Return tt
   /\ exists pre, t = pre ++ [Api (WaitBucketNotExists name) Done])
  \/ (exists e pre c,
      r = SystemExit (FailJsonAws (Boto e) (removal_failed_msg e))
      /\ t = pre ++ [Api c (Failed e)]
      /\ (c = DeleteBucket name \/ c = WaitBucketNotExists name)).
Proof.
  unfold remove_bucket. intros H.
  assert (Hh : forall b k,
             (if is_WaiterError (Boto b)
              then Some (fail_json_aws (Boto b)
                     "An error occurred waiting for the bucket to be deleted.")
              else if is_BotoCoreError (Boto b) || is_ClientError (Boto b)
              then Some (fail_json_aws (Boto b) "Failed to delete bucket")
              else None) = Some k ->
             k = @fail_json_aws St unit (Boto b) (removal_failed_msg b)).
  { intros b k. destruct b; cbn; intros [= <-]; reflexivity. }
  apply try_except_inv in H as [[H Hnone] | (e & k & s1 & t1 & t2 & H1 & He & Hk & ->)].
  - apply bind_inv in H as [(a & s1 & t1 & t2 & H1 & H2 & ->) | [(e & H1 & ->) | (o & H1 & ->)]].
    + apply api_inv in H2 as [([] & _ & -> & ->) | (e & _ & -> & ->)].
      * left. split; [reflexivity |]. exists t1. reflexivity.
      * specialize (Hnone _ eq_refl). destruct e; discriminate.
    + apply delete_bucket_run in H1 as (pre & resp & _ & Hres).
      apply bucket_delete_result_Raise in Hres as (b & -> & _).
      specialize (Hnone _ eq_refl). destruct b; discriminate.
    + apply delete_bucket_run in H1 as (pre & resp & _ & Hres).
      destruct resp as [[| |code|]| | | | |]; cbn in Hres; try discriminate.
      destruct (String.eqb code "NoSuchBucket"); discriminate.
  - right.
    apply bind_inv in H1 as [(a & s2 & t3 & t4 & H1 & H2 & ->) | [(e' & H1 & [= <-]) | (o & _ & [=])]].
    + apply api_inv in H2 as [(u & _ & [=] & _) | (b & _ & [= ->] & ->)].
      apply Hh in He. subst k. injection Hk as <- <- <-.
      exists b, t3, (WaitBucketNotExists name). rewrite app_nil_r. auto.
    + apply delete_bucket_run in H1 as (pre & resp & -> & Hres).
      apply bucket_delete_result_Raise in Hres as (b & -> & ->).
      apply Hh in He. subst k. injection Hk as <- <- <-.
      exists b, pre, (DeleteBucket name). rewrite app_nil_r. auto.
Qed.

(** X2: the block that removes the bucket never raises.  It returns only
    when the waiter has answered, as the last event of the run; otherwise the
    process ends through [fail_json_aws] with the error of the last call,
    which is the delete-bucket call or the waiter, and the message is the one
    for the waiter exactly when the error is a [WaiterError]. *)
Theorem remove_bucket_outcomes {St} (s3_client : S3Client St) policy name
    s r s' t :
  remove_bucket s3_client policy name s = (r, s', t) ->
  (r = Return tt
   /\ exists pre, t = pre ++ [Api (WaitBucketNotExists name) Done])
  \/ (exists e pre c,
      r = SystemExit (FailJsonAws (Boto e)
            (if is_WaiterError (Boto e)
             then "An error occurred waiting for the bucket to be deleted."
             else "Failed to delete bucket"))
      /\ t = pre ++ [Api c (Failed e)]
      /\ (c = DeleteBucket name \/ c = WaitBucketNotExists name)).
Proof.
  intros H. apply remove_bucket_run in H as [H | (e & pre & c & -> & -> & Hc)].
  - left. exact H.
  - right. exists e, pre, c. split; [destruct e; reflexivity | auto].
Qed.

Lemma remove_bucket_outcomes_witness :
  exists s' t,
    remove_bucket (ref_client 2) sample_policy "b1" (store1 Enabled 1) = (
      SystemExit (FailJsonAws bucket_not_empty "Failed to delete bucket"), s', t)
    /\ ((SystemExit (FailJsonAws bucket_not_empty "Failed to delete bucket")
         = Return tt
         /\ exists pre, t = pre ++ [Api (WaitBucketNotExists "b1") Done])
        \/ (exists e pre c,
             SystemExit (FailJsonAws bucket_not_empty "Failed to delete bucket")
             = SystemExit (A := unit) (FailJsonAws (Boto e)
                 (if is_WaiterError (Boto e)
                  then "An error occurred waiting for the bucket to be deleted."
                  else "Failed to delete bucket"))
             /\ t = pre ++ [Api c (Failed e)]
             /\ (c = DeleteBucket "b1" \/ c = WaitBucketNotExists "b1"))).
Proof.
  eexists _, _. split; [vm_compute; reflexivity |].
  eapply (remove_bucket_outcomes (ref_client 2) sample_policy "b1" (store1 Enabled 1)).
  vm_compute. reflexivity.
Defined.

(** ** The suspension of the versioning *)

Lemma retried_call_counts c pre :
  Forall (retried_call c) pre ->
  count is_sleep pre = 0
  /\ (forall c' resp,
        (forall code, resp <> Failed (ClientError code)) ->
        ~ In (Api c' resp) pre).
Proof.
  intros H. split.
  - apply count_none. eapply Forall_impl; [exact H |].
    intros ev [(d & ->) | (code & ->)]; reflexivity.
  - intros c' resp Hne Hin. rewrite Forall_forall in H.
    apply list_elem_of_In, H in Hin as [(d & [=]) | (code & [= _ ->])].
    exact (Hne code eq_refl).
Qed.

Lemma decorated_api_run {St A} policy max_delay extra c (answer : A -> Response)
    op (s : St) r s' t :
  exponential_backoff policy max_delay extra (api c answer op) s = (r, s', t) ->
  exists pre resp,
    t = pre ++ [Api c resp] /\ answered answer r resp
    /\ Forall (retried_call c) pre.
Proof.
  unfold exponential_backoff. intros H.
  eapply (retry_func_run policy extra c (answered answer)) in H;
    [| intros; eapply api_calls_once; eassumption].
  destruct H as (pre & resp & -> & HQ & Hpre & _).
  exists pre, resp. split; [reflexivity |]. split; [exact HQ |].
  eapply Forall_impl; [exact Hpre |].
  intros ev [(d & ->) | (code & resp' & -> & Hans & _)]; [left; eauto |].
  right. exists code.
  destruct Hans as [(a & Hr & _) | (e & [= <-] & ->)]; [discriminate | reflexivity].
Qed.

Lemma read_status_run {St} (s3_client : S3Client St) policy name s r s' t :
  read_status s3_client policy name s = (r, s', t) ->
  exists pre resp,
    t = pre ++ [Api (GetBucketVersioning name) resp]
    /\ Forall (retried_call (GetBucketVersioning name)) pre
    /\ ((exists st, r = Return st /\ resp = Versioning st)
        \/ (exists b, r = SystemExit (FailJsonAws (Boto b)
                            "Failed to get bucket versioning")
                      /\ resp = Failed b)).
Proof.
  unfold read_status. intros H.
  apply try_except_inv in H as [[H Hnone] | (e & k & s1 & t1 & t2 & H1 & He & Hk & ->)].
  - apply decorated_api_run in H as (pre & resp & -> & Hans & Hpre).
    exists pre, resp. split; [reflexivity |]. split; [exact Hpre |].
    destruct Hans as [(a & -> & ->) | (b & -> & ->)]; [left; eauto |].
    specialize (Hnone _ eq_refl). destruct b; discriminate.
  - apply decorated_api_run in H1 as (pre & resp & -> & Hans & Hpre).
    destruct Hans as [(a & [=] & _) | (b & [= ->] & ->)].
    assert (k = fail_json_aws (Boto b) "Failed to get bucket versioning") as ->.
    { destruct b; cbn in He; injection He as <-; reflexivity. }
    injection Hk as <- <- <-. rewrite app_nil_r.
    exists pre, (Failed b). split; [reflexivity |]. split; [exact Hpre |].
    right. eauto.
Qed.

Lemma write_suspended_run {St} (s3_client : S3Client St) policy name s r s' t :
  write_suspended s3_client policy name s = (r, s', t) ->
  exists pre resp,
    t = pre ++ [Api (PutBucketVersioning name "Suspended") resp]
    /\ Forall (retried_call (PutBucketVersioning name "Suspended")) pre
    /\ ((r = Return tt /\ resp = Done)
        \/ (exists b, r = SystemExit (FailJsonAws (Boto b)
                            "Failed to update bucket versioning")
                      /\ resp = Failed b)).
Proof.
  unfold write_suspended. intros H.
  apply try_except_inv in H as [[H Hnone] | (e & k & s1 & t1 & t2 & H1 & He & Hk & ->)].
  - apply decorated_api_run in H as (pre & resp & -> & Hans & Hpre).
    exists pre, resp. split; [reflexivity |]. split; [exact Hpre |].
    destruct Hans as [([] & -> & ->) | (b & -> & ->)]; [left; eauto |].
    specialize (Hnone _ eq_refl). destruct b; discriminate.
  - apply decorated_api_run in H1 as (pre & resp & -> & Hans & Hpre).
    destruct Hans as [(a & [=] & _) | (b & [= ->] & ->)].
    assert (k = fail_json_aws (Boto b) "Failed to update bucket versioning") as ->.
    { destruct b; cbn in He; injection He as <-; reflexivity. }
    injection Hk as <- <- <-. rewrite app_nil_r.
    exists pre, (Failed b). split; [reflexivity |]. split; [exact Hpre |].
    right. eauto.
Qed.

(** The suspension as the sequence of its three steps. *)
Lemma suspend_versioning_inv {St} (s3_client : S3Client St) policy name
    s r s' t :
  suspend_versioning s3_client policy name s = (r, s', t) ->
  exists r1 s1 t1,
    read_status s3_client policy name s = (r1, s1, t1) /\
    match r1 with
    | Return st =>
        if bool_decide (st = Some "Enabled")
        then
          exists r2 s2 t2,
            write_suspended s3_client policy name s1 = (r2, s2, t2) /\
            match r2 with
            | Return _ =>
                exists tw,
                  wait_versioning_is_applied s3_client policy name "Suspended" s2
                  = (r, s', tw)
                  /\ t = t1 ++ t2 ++ tw
            | Raise e => r = Raise e /\ s' = s2 /\ t = t1 ++ t2
            | SystemExit o => r = SystemExit o /\ s' = s2 /\ t = t1 ++ t2
            end
        else r = Raise (UnboundLocalError "required_versioning")
             /\ s' = s1 /\ t = t1
    | Raise e => r = Raise e /\ s' = s1 /\ t = t1
    | SystemExit o => r = SystemExit o /\ s' = s1 /\ t = t1
    end.
Proof.
  unfold suspend_versioning.
  change (try_except (get_bucket_versioning s3_client policy name) _)
    with (read_status s3_client policy name).
  unfold bind at 1.
  destruct (read_status s3_client policy name s) as [[[st|e|o] s1] t1];
    intros H; do 3 eexists; (split; [reflexivity |]); cbn beta iota.
  - case_bool_decide; cbn [local] in H.
    + unfold bind at 1, ret at 1 in H. cbn [truthy String.eqb negb] in H.
      change (try_except (put_bucket_versioning s3_client policy name "Suspended") _)
        with (write_suspended s3_client policy name) in H.
      unfold bind at 1 in H.
      destruct (write_suspended s3_client policy name s1) as [[[u|e|o] s2] t2];
        do 3 eexists; (split; [reflexivity |]); cbn beta iota.
      * unfold bind, ret in H.
        destruct (wait_versioning_is_applied s3_client policy name "Suspended" s2)
          as [[r3 s3] t3].
        injection H as <- <- <-. eexists. split; reflexivity.
      * injection H as <- <- <-. auto.
      * injection H as <- <- <-. auto.
    + unfold bind, raise in H. injection H as <- <- <-.
      rewrite app_nil_r. auto.
  - injection H as <- <- <-. auto.
  - injection H as <- <- <-. auto.
Qed.

Lemma retried_call_no_put c pre :
  (forall b st, c <> PutBucketVersioning b st) ->
  Forall (retried_call c) pre -> count is_put_versioning pre = 0.
Proof.
  intros Hc H. apply count_none. eapply Forall_impl; [exact H |].
  intros ev [(d & ->) | (code & ->)]; [reflexivity |].
  destruct c; try reflexivity. exfalso. eapply Hc. reflexivity.
Qed.

(** X3: how the suspension of the versioning ends.  It returns only the
    status "Suspended", observed by the last request of the run, and only
    after a put-bucket-versioning call with "Suspended" was answered.  It
    raises only [UnboundLocalError] on [required_versioning], and then no put
    was issued.  Otherwise the process ends: on the timeout of the wait after
    12 sleeps, or through [fail_json_aws] with the error of the last call and
    the message of the step that failed: the first read (no put issued yet),
    the put, or a read of the wait (the put answered before). *)
Theorem suspend_versioning_outcomes {St} (s3_client : S3Client St) policy name
    s r s' t :
  suspend_versioning s3_client policy name s = (r, s', t) ->
  match r with
  | Return st =>
      st = Some "Suspended"
      /\ In (Api (PutBucketVersioning name "Suspended") Done) t
      /\ exists pre,
           t = pre ++ [Api (GetBucketVersioning name) (Versioning (Some "Suspended"))]
  | Raise e =>
      e = UnboundLocalError "required_versioning"
      /\ count is_put_versioning t = 0
  | SystemExit o => suspend_failure name o t
  end.
Proof.
  intros H. apply suspend_versioning_inv in H as (r1 & s1 & t1 & H1 & H).
  apply read_status_run in H1 as (pre1 & resp1 & -> & Hpre1 & Hr1).
  assert (Hnoput1 : forall resp,
             count is_put_versioning (pre1 ++ [Api (GetBucketVersioning name) resp]) = 0).
  { intros resp. rewrite count_app,
      (retried_call_no_put (GetBucketVersioning name) pre1
         ltac:(intros; discriminate) Hpre1).
    reflexivity. }
  destruct (retried_call_counts _ _ Hpre1) as (Hsl1 & _).
  destruct Hr1 as [(st & -> & ->) | (b & -> & ->)].
  2:{ destruct H as (-> & _ & ->). cbn.
      exists b, pre1, (GetBucketVersioning name).
      split; [reflexivity |]. split; [reflexivity |]. left. auto. }
  case_bool_decide as Hst.
  2:{ destruct H as (-> & _ & ->). split; [reflexivity | apply Hnoput1]. }
  destruct H as (r2 & s2 & t2 & H2 & H).
  apply write_suspended_run in H2 as (pre2 & resp2 & -> & Hpre2 & Hr2).
  destruct (retried_call_counts _ _ Hpre2) as (Hsl2 & _).
  destruct Hr2 as [(-> & ->) | (b & -> & ->)].
  2:{ destruct H as (-> & _ & ->). cbn.
      exists b, ((pre1 ++ [Api (GetBucketVersioning name) (Versioning st)]) ++ pre2),
        (PutBucketVersioning name "Suspended").
      split; [reflexivity |]. split; [rewrite <- !app_assoc; reflexivity |].
      right. left. auto. }
  destruct H as (tw & Hw & ->).
  assert (Hin : In (Api (PutBucketVersioning name "Suspended") Done)
                  ((pre1 ++ [Api (GetBucketVersioning name) (Versioning st)])
                   ++ (pre2 ++ [Api (PutBucketVersioning name "Suspended") Done])
                   ++ tw)).
  { apply in_or_app. right. apply in_or_app. left.
    apply in_or_app. right. left. reflexivity. }
  apply wait_versioning_loop_run in Hw as (_ & _ & Hout).
  rewrite length_seq in Hout.
  destruct r as [st4|e|[b|msg|e msg]]; cbn in Hout; try contradiction.
  - destruct Hout as (-> & _ & _ & prew & ->).
    split; [reflexivity |]. split; [exact Hin |].
    eexists. rewrite !app_assoc. reflexivity.
  - destruct Hout as (-> & Hsl & _). cbn. split; [reflexivity |].
    rewrite !count_app, Hsl1, Hsl2, Hsl. reflexivity.
  - destruct Hout as (-> & _ & _ & b & prew & -> & ->). cbn.
    exists b, ((pre1 ++ [Api (GetBucketVersioning name) (Versioning st)])
               ++ (pre2 ++ [Api (PutBucketVersioning name "Suspended") Done])
               ++ prew), (GetBucketVersioning name).
    split; [reflexivity |]. split; [rewrite <- !app_assoc; reflexivity |].
    right. right. split; [reflexivity |]. split; [reflexivity |].
    rewrite <- !app_assoc in Hin. rewrite <- !app_assoc. exact Hin.
Qed.

Lemma suspend_versioning_outcomes_witness :
  exists s' t,
    suspend_versioning (ref_client 2) sample_policy "b1" (store1 Enabled 1)
    = (Return (Some "Suspended"), s', t)
    /\ Some "Suspended" = Some "Suspended"
    /\ In (Api (PutBucketVersioning "b1" "Suspended") Done) t
    /\ exists pre,
         t = pre ++ [Api (GetBucketVersioning "b1") (Versioning (Some "Suspended"))].
Proof.
  eexists _, _. split; [vm_compute; reflexivity |].
  eapply (suspend_versioning_outcomes (ref_client 2) sample_policy "b1"
            (store1 Enabled 1) (Return (Some "Suspended"))).
  vm_compute. reflexivity.
Defined.

(** ** One page of versions *)

Lemma bind_assoc {St A B C} (m : M St A) (k : A -> M St B) (h : B -> M St C) s :
  bind (bind m k) h s = bind m (fun a => bind (k a) h) s.
Proof.
  unfold bind. destruct (m s) as [[[a|e|o] s1] t1]; [| reflexivity | reflexivity].
  destruct (k a s1) as [[[b|e|o] s2] t2]; [| reflexivity | reflexivity].
  destruct (h b s2) as [[r3 s3] t3]. rewrite app_assoc. reflexivity.
Qed.

Lemma bind_ext {St A B} (m : M St A) (k k' : A -> M St B) s :
  (forall a s1, k a s1 = k' a s1) -> bind m k s = bind m k' s.
Proof.
  intros H. unfold bind. destruct (m s) as [[[a|e|o] s1] t1]; [| reflexivity | reflexivity].
  rewrite H. reflexivity.
Qed.

Lemma bind_ret_l {St A B} (a : A) (k : A -> M St B) s : bind (ret a) k s = k a s.
Proof. unfold bind, ret. destruct (k a s) as [[r s1] t1]. reflexivity. Qed.

Lemma for_in_app {St A} (l1 l2 : list A) (body : A -> M St unit) s :
  for_in (l1 ++ l2) body s
  = bind (for_in l1 body) (fun _ => for_in l2 body) s.
Proof.
  revert s. induction l1 as [|x l1 IH]; intros s; cbn [app for_in].
  - rewrite bind_ret_l. reflexivity.
  - rewrite bind_assoc. apply bind_ext. intros _ s1. apply IH.
Qed.

Lemma purge_versions_page_entries {St} (s3_client : S3Client St) name page s :
  purge_versions_page s3_client name page s
  = for_in (page_entries page) (fun e =>
      delete_object s3_client name (Key e) (Some (VersionId e))) s.
Proof.
  unfold purge_versions_page, page_entries. rewrite for_in_app.
  assert (Hf : forall (f : field (list Entry)) s1,
             match f with
             | Value l => for_in l (fun e =>
                 delete_object s3_client name (Key e) (Some (VersionId e)))
             | PyNone | Missing => ret tt
             end s1
             = for_in (entries f) (fun e =>
                 delete_object s3_client name (Key e) (Some (VersionId e))) s1).
  { intros f s1. destruct f; reflexivity. }
  unfold bind. rewrite Hf.
  destruct (for_in (entries (DeleteMarkers page)) _ s) as [[[u|e|o] s1] t1];
    [| reflexivity | reflexivity].
  rewrite Hf. reflexivity.
Qed.

Lemma for_in_delete_run {St} (s3_client : S3Client St) name (l : list Entry)
    s r s' t :
  for_in l (fun e => delete_object s3_client name (Key e) (Some (VersionId e))) s
  = (r, s', t) ->
  (r = Return tt /\ t = map (delete_answered name Done) l)
  \/ (exists l1 x l2 b,
        l = l1 ++ x :: l2 /\ r = Raise (Boto b)
        /\ t = map (delete_answered name Done) l1
               ++ [delete_answered name (Failed b) x]).
Proof.
  revert s r s' t. induction l as [|x l IH]; intros s r s' t H.
  - injection H as <- <- <-. left. auto.
  - cbn [for_in] in H.
    apply bind_inv in H as [(a & s1 & t1 & t2 & H1 & H2 & ->) | [(e & H1 & ->) | (o & H1 & ->)]].
    + apply api_inv in H1 as [(u & _ & _ & ->) | (e & _ & [=] & _)].
      apply IH in H2 as [(-> & ->) | (l1 & y & l2 & b & -> & -> & ->)].
      * left. auto.
      * right. exists (x :: l1), y, l2, b. auto.
    + apply api_inv in H1 as [(u & _ & [=] & _) | (b & _ & [= ->] & ->)].
      right. exists [], x, l, b. auto.
    + apply api_inv in H1 as [(u & _ & [=] & _) | (b & _ & [=] & _)].
Qed.

(** X4: on a page of versions the module issues one version-aware
    delete-object call per entry, the delete markers first and the versions
    after them, in the order of the page; a key that is missing or [None]
    counts for no entry.  The page is done when every call was answered.  The
    first call that fails ends the page: its error is raised, the entries
    after it are not attempted, and the calls answered before it stay
    made. *)
Theorem purge_versions_page_in_order {St} (s3_client : S3Client St) name page
    s r s' t :
  purge_versions_page s3_client name page s = (r, s', t) ->
  (r = Return tt /\ t = map (delete_answered name Done) (page_entries page))
  \/ (exists l1 x l2 b,
        page_entries page = l1 ++ x :: l2 /\ r = Raise (Boto b)
        /\ t = map (delete_answered name Done) l1
               ++ [delete_answered name (Failed b) x]).
Proof.
  rewrite purge_versions_page_entries. apply for_in_delete_run.
Qed.

(** The second call of a page fails: the first stays made, the third is not
    attempted. *)
Lemma purge_versions_page_in_order_witness :
  let page := versions_page [v "a" "1"; dm "a" "2"; v "b" "1"] in
  let r : Result unit := Raise (Boto (ClientError "AccessDenied")) in
  let t := [Api (DeleteObject "b1" "a" (Some "2")) Done;
            Api (DeleteObject "b1" "a" (Some "1")) (Failed (ClientError "AccessDenied"))] in
  (r = Return tt /\ t = map (delete_answered "b1" Done) (page_entries page))
  \/ (exists l1 x l2 b,
        page_entries page = l1 ++ x :: l2 /\ r = Raise (Boto b)
        /\ t = map (delete_answered "b1" Done) l1
               ++ [delete_answered "b1" (Failed b) x]).
Proof.
  cbv zeta.
  eapply (purge_versions_page_in_order (faulty (ref_client 2)) "b1"
            (versions_page [v "a" "1"; dm "a" "2"; v "b" "1"])
            ([None; Some (ClientError "AccessDenied")], store1 Enabled 1)).
  vm_compute. reflexivity.
Defined.

(** ** How the workflow ends *)







(** ** The order and the target of the calls *)

Lemma purge_bucket_in_stages {St} (s3_client : S3Client St) policy name
    s r s' t :
  purge_bucket s3_client policy name s = (r, s', t) ->
  exists t1 t2 t3,
    t = t1 ++ t2 ++ t3
    /\ Forall (stage_event SuspendVersioning name) t1
    /\ Forall (stage_event PurgeVersions name) t2
    /\ Forall (stage_event PurgePlainObjects name) t3.
Proof.
  intros H. pose (T := fun _ : St => True).
  apply purge_bucket_inv in H as (r1 & s1 & t1 & H1 & H).
  destruct (suspend_versioning_within s3_client policy T name
              (preserved_True _) (preserved_True _) _ _ _ _ Logic.I H1)
    as (_ & Ht1 & _).
  assert (Hstop1 : t = t1 ->
            exists t1 t2 t3,
              t = t1 ++ t2 ++ t3
              /\ Forall (stage_event SuspendVersioning name) t1
              /\ Forall (stage_event PurgeVersions name) t2
              /\ Forall (stage_event PurgePlainObjects name) t3).
  { intros ->. exists t1, [], []. rewrite !app_nil_r. repeat split; auto; try apply Forall_nil; try discriminate. }
  destruct r1 as [st|e|o]; [| apply Hstop1, H | apply Hstop1, H].
  destruct H as (r2 & s2 & t2 & H2 & H).
  destruct (purge_versions_within s3_client T name
              (fun _ _ => preserved_True _) _ _ _ _ Logic.I H2) as (_ & Ht2 & _).
  assert (Hstop2 : t = t1 ++ t2 ->
            exists t1 t2 t3,
              t = t1 ++ t2 ++ t3
              /\ Forall (stage_event SuspendVersioning name) t1
              /\ Forall (stage_event PurgeVersions name) t2
              /\ Forall (stage_event PurgePlainObjects name) t3).
  { intros ->. exists t1, t2, []. rewrite !app_nil_r. repeat split; auto; try apply Forall_nil; try discriminate. }
  destruct r2 as [u|e|o]; [| apply Hstop2, H | apply Hstop2, H].
  destruct H as (t3 & H3 & ->).
  destruct (purge_plain_objects_within s3_client T name _ _ _ _ Logic.I H3)
    as (_ & Ht3 & _).
  exists t1, t2, t3. repeat split; auto.
Qed.

(** X6: the calls of a run come in the order of the blocks of the workflow:
    first the listing of the existence probe, then the reads, the write and
    the sleeps of the suspension of the versioning, then the pages of versions
    with their version-aware delete-object calls, then the pages of the plain
    listing, and last the delete-bucket calls and the waiter; a block may be
    empty when the run stopped before it.  In particular no delete-object call
    comes before the suspension is over, and no delete-bucket call before the
    purge is.  Without [force] the three blocks in the middle are empty. *)
Theorem destroy_bucket_in_stages {St} (s3_client : S3Client St) policy force
    name s r s' t :
  destroy_bucket s3_client policy force name s = (r, s', t) ->
  exists tA t1 t2 t3 tC,
    t = tA ++ t1 ++ t2 ++ t3 ++ tC
    /\ Forall (stage_event ProbeExistence name) tA
    /\ Forall (stage_event SuspendVersioning name) t1
    /\ Forall (stage_event PurgeVersions name) t2
    /\ Forall (stage_event PurgePlainObjects name) t3
    /\ Forall (stage_event DeleteBucketStage name) tC
    /\ (force = false -> t1 = [] /\ t2 = [] /\ t3 = []).
Proof.
  intros H. pose (T := fun _ : St => True).
  apply destroy_bucket_inv in H as (rA & sA & tA & HA & H).
  destruct (probe_existence_within s3_client T name (preserved_True _)
              _ _ _ _ Logic.I HA) as (_ & HtA & _).
  assert (HstopA : t = tA ->
            exists tA t1 t2 t3 tC,
              t = tA ++ t1 ++ t2 ++ t3 ++ tC
              /\ Forall (stage_event ProbeExistence name) tA
              /\ Forall (stage_event SuspendVersioning name) t1
              /\ Forall (stage_event PurgeVersions name) t2
              /\ Forall (stage_event PurgePlainObjects name) t3
              /\ Forall (stage_event DeleteBucketStage name) tC
              /\ (force = false -> t1 = [] /\ t2 = [] /\ t3 = [])).
  { intros ->. exists tA, [], [], [], []. rewrite !app_nil_r. repeat split; auto; try apply Forall_nil; try discriminate. }
  destruct rA as [[|]|e|o]; [| apply HstopA, H | apply HstopA, H | apply HstopA, H].
  destruct H as (rB & sB & tB & HB & H).
  assert (HtB : exists t1 t2 t3,
             tB = t1 ++ t2 ++ t3
             /\ Forall (stage_event SuspendVersioning name) t1
             /\ Forall (stage_event PurgeVersions name) t2
             /\ Forall (stage_event PurgePlainObjects name) t3
             /\ (force = false -> t1 = [] /\ t2 = [] /\ t3 = [])).
  { destruct force.
    - apply purge_bucket_in_stages in HB as (t1 & t2 & t3 & -> & H1 & H2 & H3).
      exists t1, t2, t3. repeat split; auto; discriminate.
    - injection HB as <- <- <-. exists [], [], [].
      repeat split; auto; apply Forall_nil. }
  destruct HtB as (t1 & t2 & t3 & -> & H1 & H2 & H3 & Hf).
  assert (HstopB : t = tA ++ t1 ++ t2 ++ t3 ->
            exists tA t1 t2 t3 tC,
              t = tA ++ t1 ++ t2 ++ t3 ++ tC
              /\ Forall (stage_event ProbeExistence name) tA
              /\ Forall (stage_event SuspendVersioning name) t1
              /\ Forall (stage_event PurgeVersions name) t2
              /\ Forall (stage_event PurgePlainObjects name) t3
              /\ Forall (stage_event DeleteBucketStage name) tC
              /\ (force = false -> t1 = [] /\ t2 = [] /\ t3 = [])).
  { intros ->. exists tA, t1, t2, t3, []. rewrite !app_nil_r.
    repeat (split; [solve [auto | apply Forall_nil] |]). exact Hf. }
  destruct rB as [u|e|o]; [| apply HstopB, H | apply HstopB, H].
  destruct H as (rC & tC & HC & -> & _).
  destruct (remove_bucket_within s3_client policy T name
              (preserved_True _) (preserved_True _) _ _ _ _ Logic.I HC)
    as (_ & HtC & _).
  exists tA, t1, t2, t3, tC. rewrite <- !app_assoc.
  repeat (split; [solve [auto] |]). exact Hf.
Qed.

Lemma destroy_bucket_in_stages_witness :
  exists s' t tA t1 t2 t3 tC,
    destroy_bucket (ref_client 2) sample_policy true "b1" (store1 Enabled 1)
    = (SystemExit (ExitJson true), s', t)
    /\ t = tA ++ t1 ++ t2 ++ t3 ++ tC
    /\ Forall (stage_event ProbeExistence "b1") tA
    /\ Forall (stage_event SuspendVersioning "b1") t1
    /\ Forall (stage_event PurgeVersions "b1") t2
    /\ Forall (stage_event PurgePlainObjects "b1") t3
    /\ Forall (stage_event DeleteBucketStage "b1") tC
    /\ (true = false -> t1 = [] /\ t2 = [] /\ t3 = []).
Proof.
  eexists _, _.
  assert (Hrun : destroy_bucket (ref_client 2) sample_policy true "b1" (store1 Enabled 1)
                 = (SystemExit (ExitJson true), _, _)) by (vm_compute; reflexivity).
  destruct (destroy_bucket_in_stages (ref_client 2) sample_policy true "b1"
              (store1 Enabled 1) _ _ _ Hrun) as (tA & t1 & t2 & t3 & tC & H).
  exists tA, t1, t2, t3, tC. split; [exact Hrun | exact H].
Defined.

Lemma module_event_on_bucket name ev : module_event name ev -> on_bucket name ev.
Proof.
  intros [st H].
  destruct ev as [[b|b|b status|b|b|b k [i|]|b|b] resp|n|d];
    destruct st; cbn in H; try contradiction; cbn; tauto.
Qed.

(** X7: whatever the store answers, a run of the workflow on a bucket calls
    the store about that bucket only, never writes a versioning status other
    than "Suspended" (it never enables versioning), and never sleeps but for
    5. *)
Theorem destroy_bucket_on_bucket {St} (s3_client : S3Client St) policy force
    name s r s' t :
  destroy_bucket s3_client policy force name s = (r, s', t) ->
  Forall (on_bucket name) t.
Proof.
  intros H.
  destruct (destroy_bucket_within s3_client policy force name _ _ _ _ Logic.I H)
    as (_ & Ht & _).
  eapply Forall_impl; [exact Ht | apply module_event_on_bucket].
Qed.

Lemma destroy_bucket_on_bucket_witness :
  exists s' t,
    destroy_bucket (ref_client 2) sample_policy true "b1" store3
    = (SystemExit (ExitJson true), s', t)
    /\ Forall (on_bucket "b1") t.
Proof.
  eexists _, _.
  assert (Hrun : destroy_bucket (ref_client 2) sample_policy true "b1" store3
                 = (SystemExit (ExitJson true), _, _)) by (vm_compute; reflexivity).
  split; [exact Hrun |].
  exact (destroy_bucket_on_bucket (ref_client 2) sample_policy true "b1" store3
           _ _ _ Hrun).
Defined.

(** ** The entry point *)

(** X8: [main] touches the store only for [state == 'absent'] and only
    when a client could be made.  For any other state, the default
    ['present'] included, it returns without a single call, without a change
    of the store and without calling [exit_json]; without a client it ends
    through [fail_json] before any call. *)
Theorem main_inert_unless_absent {St} (get_s3_client : string -> option (S3Client St))
    policy region state force name s r s' t :
  state <> "absent" \/ get_s3_client (location_of region) = None ->
  main get_s3_client policy region state force name s = (r, s', t) ->
  t = [] /\ s' = s
  /\ (r = Return tt <-> get_s3_client (location_of region) <> None)
  /\ (r = SystemExit (FailJson no_connection_msg)
      <-> get_s3_client (location_of region) = None).
Proof.
  intros Hor. unfold main.
  destruct (get_s3_client (location_of region)) as [c|].
  - destruct Hor as [Hstate | [=]]. apply String.eqb_neq in Hstate. rewrite Hstate.
    intros [= <- <- <-].
    split; [reflexivity |]. split; [reflexivity |]. split; split.
    + discriminate.
    + reflexivity.
    + discriminate.
    + discriminate.
  - intros [= <- <- <-].
    split; [reflexivity |]. split; [reflexivity |]. split; split.
    + discriminate.
    + intros H. contradiction.
    + reflexivity.
    + reflexivity.
Qed.

Lemma main_inert_unless_absent_witness :
  @nil Event = [] /\ store1 Enabled 1 = store1 Enabled 1
  /\ (Return tt = Return tt
      <-> (fun _ => Some (ref_client 2)) (location_of None) <> None)
  /\ (Return tt = SystemExit (FailJson no_connection_msg)
      <-> (fun _ => Some (ref_client 2)) (location_of None) = None).
Proof.
  apply (main_inert_unless_absent (fun _ => Some (ref_client 2)) sample_policy
           None "present" true "b1" (store1 Enabled 1)).
  - left. discriminate.
  - reflexivity.
Defined.

(** X9: the location handed to the connection is never empty, and a region
    that is missing, empty or "us-east-1" makes no difference: in the three
    cases [main] connects to "us-east-1" and runs the same; any other region
    is the location. *)
Theorem main_default_location {St} (get_s3_client : string -> option (S3Client St))
    policy region state force name :
  location_of region <> ""
  /\ (region = None \/ region = Some "" \/ region = Some "us-east-1" ->
      location_of region = "us-east-1"
      /\ main get_s3_client policy region state force name
         = main get_s3_client policy (Some "us-east-1") state force name)
  /\ (forall r, region = Some r -> r <> "" -> location_of region = r).
Proof.
  split; [| split].
  - destruct region as [r|]; cbn; [| discriminate].
    destruct (String.eqb r "us-east-1"); cbn; [discriminate |].
    destruct (String.eqb r "") eqn:E; [discriminate |].
    apply String.eqb_neq in E. exact E.
  - intros [-> | [-> | ->]]; split; reflexivity.
  - intros r -> Hr. cbn.
    destruct (String.eqb r "us-east-1") eqn:E1; cbn.
    + apply String.eqb_eq in E1. congruence.
    + apply String.eqb_neq in Hr. rewrite Hr. reflexivity.
Qed.

Lemma main_default_location_witness :
  location_of None <> ""
  /\ (@None string = None \/ None = Some "" \/ None = Some "us-east-1" ->
      location_of None = "us-east-1"
      /\ main (fun _ => Some (ref_client 2)) sample_policy None "absent" true "b1"
         = main (fun _ => Some (ref_client 2)) sample_policy (Some "us-east-1")
             "absent" true "b1")
  /\ (forall r, None = Some r -> r <> "" -> location_of None = r).
Proof.
  exact (main_default_location (fun _ => Some (ref_client 2)) sample_policy
           None "absent" true "b1").
Defined.

(** ** What a run leaves of the reference store *)

Lemma destroy_bucket_keeps {St} (s3_client : S3Client St) policy force name
    (I : St -> Prop) :
  preserved I (s3_list_buckets s3_client name) ->
  preserved I (s3_get_bucket_versioning s3_client name) ->
  preserved I (s3_put_bucket_versioning s3_client name "Suspended") ->
  (forall k i, preserved I (s3_delete_object s3_client name k (Some i))) ->
  preserved I (s3_delete_bucket s3_client name) ->
  preserved I (s3_wait_bucket_not_exists s3_client name) ->
  within I (module_event name) (fun _ => True)
    (destroy_bucket s3_client policy force name).
Proof.
  intros Hlist Hget Hput Hdel Hrm Hwait. unfold destroy_bucket.
  apply within_bind; [| intros present; apply within_bind; [| intros _; apply within_bind; [| intros _; apply within_bind; [| intros _]]]].
  - eapply within_impl; [apply stage_event_module | | apply probe_existence_within];
      auto.
  - destruct (negb present); [apply within_exit_json; exact Logic.I | apply within_ret].
  - destruct force; [| apply within_ret].
    eapply within_impl; [| | apply purge_bucket_within]; auto.
  - eapply within_impl; [apply stage_event_module | | apply remove_bucket_within];
      auto.
  - apply within_exit_json. exact Logic.I.
Qed.

Lemma ref_keeps_other max_keys name other (bk : option BucketState) :
  other <> name ->
  let I := fun s : gmap string BucketState => s !! other = bk in
  preserved I (s3_list_buckets (ref_client max_keys) name)
  /\ preserved I (s3_get_bucket_versioning (ref_client max_keys) name)
  /\ (forall status,
        preserved I (s3_put_bucket_versioning (ref_client max_keys) name status))
  /\ (forall k i, preserved I (s3_delete_object (ref_client max_keys) name k i))
  /\ preserved I (s3_delete_bucket (ref_client max_keys) name)
  /\ preserved I (s3_wait_bucket_not_exists (ref_client max_keys) name).
Proof.
  intros Hne I. unfold I, preserved. cbn.
  assert (Hins : forall (s : gmap string BucketState) x,
             <[name := x]> s !! other = s !! other).
  { intros s x. apply lookup_insert_ne. congruence. }
  repeat split.
  - intros s r s' Hs [= <- <-]. exact Hs.
  - intros s r s' Hs. destruct (s !! name) as [b|]; [| intros [= <- <-]; exact Hs].
    destruct (pending b) as [[m [|n]]|]; intros [= <- <-];
      rewrite ?Hins; exact Hs.
  - intros status s r s' Hs. destruct (s !! name) as [b|]; [| intros [= <- <-]; exact Hs].
    destruct (mode_of_status status); intros [= <- <-]; rewrite ?Hins; exact Hs.
  - intros k i s r s' Hs. destruct (s !! name) as [b|]; [| intros [= <- <-]; exact Hs].
    destruct i; intros [= <- <-]; rewrite Hins; exact Hs.
  - intros s r s' Hs. destruct (s !! name) as [b|]; [| intros [= <- <-]; exact Hs].
    destruct (records b), (objects b); intros [= <- <-]; try exact Hs.
    rewrite lookup_delete_ne by congruence. exact Hs.
  - intros s r s' Hs. destruct (s !! name); intros [= <- <-]; exact Hs.
Qed.

(** X10: a run of the workflow on a bucket of the reference store, however
    it ends, leaves every other bucket as it was: its versioning, its records
    and its plain objects. *)
Theorem destroy_bucket_keeps_other_buckets max_keys policy force name other
    (s : gmap string BucketState) r s' t :
  other <> name ->
  destroy_bucket (ref_client max_keys) policy force name s = (r, s', t) ->
  s' !! other = s !! other.
Proof.
  intros Hne H.
  destruct (ref_keeps_other max_keys name other (s !! other) Hne)
    as (Hlist & Hget & Hput & Hdel & Hrm & Hwait).
  destruct (destroy_bucket_keeps (ref_client max_keys) policy force name _
              Hlist Hget (Hput _) (fun k i => Hdel k (Some i)) Hrm Hwait
              _ _ _ _ eq_refl H) as (Hs' & _).
  exact Hs'.
Qed.

Lemma destroy_bucket_keeps_other_buckets_witness :
  (delete "b1" store3 : gmap string BucketState) !! "other" = store3 !! "other".
Proof.
  eapply (destroy_bucket_keeps_other_buckets 2 sample_policy true "b1" "other"
            store3 (SystemExit (ExitJson true))).
  - discriminate.
  - vm_compute. reflexivity.
Defined.

(** ** A forced run from start to end on the reference store *)

Lemma purged_cons x l rs :
  purged (x :: l) rs
  = purged l (List.filter (fun r' =>
      negb (same_record (key x) (versionId x) r')) rs).
Proof.
  unfold purged. induction rs as [|r rs IH]; [reflexivity |].
  simpl in *. rewrite IH.
  destruct (same_record (key x) (versionId x) r); simpl; [reflexivity |].
  destruct (existsb _ l); reflexivity.
Qed.

Lemma purged_nil rs : purged [] rs = rs.
Proof.
  unfold purged. induction rs as [|r rs IH]; [reflexivity |].
  simpl in *. rewrite IH. reflexivity.
Qed.

Lemma purged_app l1 l2 rs : purged (l1 ++ l2) rs = purged l2 (purged l1 rs).
Proof.
  revert rs. induction l1 as [|x l1 IH]; intros rs; cbn [app].
  - rewrite purged_nil. reflexivity.
  - rewrite !purged_cons. apply IH.
Qed.

Lemma purged_all l rs : (forall r, In r rs -> In r l) -> purged l rs = [].
Proof.
  unfold purged. induction rs as [|r rs IH]; intros H; [reflexivity |].
  cbn [List.filter].
  assert (Hr : existsb (fun x => same_record (key x) (versionId x) r) l = true).
  { apply existsb_exists. exists r. split; [apply H; left; reflexivity |].
    unfold same_record. rewrite !String.eqb_refl. reflexivity. }
  rewrite Hr. cbn. apply IH. intros r' Hin. apply H. right. exact Hin.
Qed.

Lemma deletion_order_concat pages :
  Permutation (deletion_order pages) (concat pages).
Proof.
  induction pages as [|page pages IH]; cbn; [constructor |].
  apply Permutation_app; [apply filter_partition | exact IH].
Qed.

Section ReferenceRun.

Variable max_keys : nat.
Variable policy : RetryPolicy.
Variable name : string.

Local Abbreviation client := (ref_client max_keys).

Lemma ref_get_bucket_versioning (s : gmap string BucketState) st s1 :
  s3_get_bucket_versioning client name s = (inr st, s1) ->
  get_bucket_versioning client policy name s
  = (Return st, s1, [Api (GetBucketVersioning name) (Versioning st)]).
Proof.
  intros H. unfold get_bucket_versioning, exponential_backoff.
  apply retry_func_Return. unfold api. rewrite H. reflexivity.
Qed.

(** The wait on the reference store: the status is observed once the reads
    still due have been made. *)
Lemma ref_wait_converges reads dummies bk (s : gmap string BucketState) :
  s !! name = Some bk ->
  pending bk = Some (Suspended, reads) ->
  mode bk <> Suspended ->
  reads < length dummies ->
  exists tw,
    wait_versioning_loop client policy dummies name "Suspended" s
    = (Return (Some "Suspended"),
       <[name := with_versioning bk Suspended None]> s, tw).
Proof.
  revert dummies bk s.
  induction reads as [|reads IH]; intros dummies bk s Hbk Hp Hm Hlen;
    (destruct dummies as [|dummy rest]; [cbn in Hlen; lia |]);
    cbn [wait_versioning_loop].
  - eexists.
    erewrite bind_Return;
      [| apply try_except_Return, ref_get_bucket_versioning;
         cbn; rewrite Hbk, Hp; reflexivity].
    cbn. reflexivity.
  - set (bk1 := with_versioning bk (mode bk) (Some (Suspended, reads))).
    destruct (IH rest bk1 (<[name := bk1]> s)) as (tw & Hw).
    { apply lookup_insert_eq. }
    { reflexivity. }
    { exact Hm. }
    { cbn in Hlen. lia. }
    eexists.
    erewrite bind_Return;
      [| apply try_except_Return, ref_get_bucket_versioning;
         cbn; rewrite Hbk, Hp; reflexivity].
    fold bk1.
    rewrite bool_decide_false by (destruct (mode bk); cbn; congruence).
    cbn [negb]. unfold time_sleep, bind at 1, emit. rewrite Hw.
    rewrite insert_insert_eq. reflexivity.
Qed.

Lemma ref_suspend_versioning bk (s : gmap string BucketState) :
  s !! name = Some bk ->
  mode bk = Enabled -> pending bk = None -> lag bk < 12 ->
  exists t1,
    suspend_versioning client policy name s
    = (Return (Some "Suspended"),
       <[name := with_versioning bk Suspended None]> s, t1).
Proof.
  intros Hbk Hm Hp Hlag.
  set (bk1 := with_versioning bk (mode bk) (Some (Suspended, lag bk))).
  destruct (ref_wait_converges (lag bk) (seq 0 12) bk1 (<[name := bk1]> s))
    as (tw & Hw).
  { apply lookup_insert_eq. }
  { reflexivity. }
  { cbn. rewrite Hm. discriminate. }
  { rewrite length_seq. exact Hlag. }
  eexists. unfold suspend_versioning.
  erewrite bind_Return;
    [| apply try_except_Return, ref_get_bucket_versioning;
       cbn; rewrite Hbk, Hp, Hm; reflexivity].
  rewrite bool_decide_true by reflexivity. cbn [local].
  rewrite bind_ret_l. cbn [truthy String.eqb negb].
  erewrite bind_Return;
    [| apply try_except_Return; unfold put_bucket_versioning, exponential_backoff;
       apply retry_func_Return; unfold api; cbn; rewrite Hbk; reflexivity].
  rewrite bind_ret_l. unfold wait_versioning_is_applied. fold bk1. rewrite Hw.
  rewrite insert_insert_eq. reflexivity.
Qed.

Lemma ref_delete_entries_state (l : list ObjectVersionRecord) bk
    (s : gmap string BucketState) :
  s !! name = Some bk ->
  for_in (map entry_of l) (fun e =>
    delete_object client name (Key e) (Some (VersionId e))) s
  = (Return tt,
     <[name := with_contents bk (purged l (records bk)) (objects bk)]> s,
     map (deleted name) l).
Proof.
  revert bk s. induction l as [|r l IH]; intros bk s Hbk.
  - cbn. rewrite purged_nil. rewrite insert_id; [reflexivity |].
    rewrite Hbk. destruct bk; reflexivity.
  - cbn [map for_in entry_of Key VersionId].
    set (bk1 := with_contents bk
                  (List.filter (fun r' => negb (same_record (key r) (versionId r) r'))
                     (records bk)) (objects bk)).
    assert (H1 : delete_object client name (key r) (Some (versionId r)) s
                 = (Return tt, <[name := bk1]> s, [deleted name r])).
    { unfold delete_object, api. cbn. rewrite Hbk. reflexivity. }
    erewrite bind_Return by exact H1.
    rewrite (IH bk1 (<[name := bk1]> s)) by apply lookup_insert_eq.
    rewrite insert_insert_eq, purged_cons. reflexivity.
Qed.

Lemma ref_purge_versions_page_state page bk (s : gmap string BucketState) :
  s !! name = Some bk ->
  exists tp,
    purge_versions_page client name (versions_page page) s
    = (Return tt,
       <[name := with_contents bk (purged (deletion_order [page]) (records bk))
                   (objects bk)]> s, tp).
Proof.
  intros Hbk. eexists. unfold purge_versions_page, versions_page.
  cbn [DeleteMarkers Versions]. rewrite !for_in_listed.
  set (bk1 := with_contents bk
                (purged (List.filter isDeleteMarker page) (records bk)) (objects bk)).
  erewrite bind_Return by (apply ref_delete_entries_state; exact Hbk).
  fold bk1.
  rewrite (ref_delete_entries_state _ bk1 (<[name := bk1]> s))
    by apply lookup_insert_eq.
  rewrite insert_insert_eq.
  cbn [records objects with_contents bk1 deletion_order flat_map].
  rewrite app_nil_r, purged_app. reflexivity.
Qed.

Lemma ref_purge_versions_pages_state pages bk (s : gmap string BucketState) :
  s !! name = Some bk ->
  exists tp,
    for_page (ListObjectVersions name) PageOfVersions
      (map (fun c => inr (versions_page c)) pages)
      (purge_versions_page client name) s
    = (Return tt,
       <[name := with_contents bk (purged (deletion_order pages) (records bk))
                   (objects bk)]> s, tp).
Proof.
  revert bk s. induction pages as [|page pages IH]; intros bk s Hbk.
  - eexists. cbn. rewrite purged_nil. rewrite insert_id; [reflexivity |].
    rewrite Hbk. destruct bk; reflexivity.
  - destruct (ref_purge_versions_page_state page bk s Hbk) as (tp & Hp).
    set (bk1 := with_contents bk (purged (deletion_order [page]) (records bk))
                  (objects bk)) in *.
    destruct (IH bk1 (<[name := bk1]> s)) as (tr & Hr); [apply lookup_insert_eq |].
    eexists. cbn [map for_page].
    unfold bind at 1. unfold emit.
    erewrite bind_Return by exact Hp. rewrite Hr.
    rewrite insert_insert_eq. cbn [records objects with_contents bk1].
    rewrite <- purged_app. cbn [deletion_order flat_map]. rewrite app_nil_r.
    reflexivity.
Qed.

(** After the purge of the versions nothing is left of the records. *)
Lemma ref_purge_versions_all bk (s : gmap string BucketState) :
  s !! name = Some bk ->
  exists tp,
    purge_versions client name s
    = (Return tt, <[name := with_contents bk [] (objects bk)]> s, tp).
Proof.
  intros Hbk. unfold purge_versions. cbn [s3_list_object_versions ref_client].
  rewrite Hbk.
  destruct (ref_purge_versions_pages_state (paginate max_keys (records bk)) bk s Hbk)
    as (tp & Hp).
  exists tp. rewrite Hp. rewrite purged_all; [reflexivity |].
  intros r Hr.
  eapply Permutation_in; [symmetry; apply deletion_order_concat |].
  rewrite paginate_concat. exact Hr.
Qed.

End ReferenceRun.

Section ReferenceEndToEnd.

Variable max_keys : nat.
Variable policy : RetryPolicy.
Variable name : string.

Local Abbreviation client := (ref_client max_keys).

Lemma ref_purge_plain_objects_none bk (s : gmap string BucketState) :
  s !! name = Some bk -> objects bk = [] ->
  purge_plain_objects client name s
  = (Return tt, s, [Api (ListObjectsV2 name) (PageOfObjects (objects_page []))]).
Proof.
  intros Hbk Ho. unfold purge_plain_objects. cbn [s3_list_objects_v2 ref_client].
  rewrite Hbk, Ho. reflexivity.
Qed.

Lemma ref_purge_plain_objects_some bk (s : gmap string BucketState) :
  s !! name = Some bk -> objects bk <> [] ->
  exists t3,
    purge_plain_objects client name s = (Raise (NameError "bucket_name"), s, t3).
Proof.
  intros Hbk Ho. unfold purge_plain_objects. cbn [s3_list_objects_v2 ref_client].
  rewrite Hbk. destruct (objects bk) as [|o os]; [contradiction |].
  eexists. cbn. reflexivity.
Qed.

Lemma ref_remove_bucket_empty bk (s : gmap string BucketState) :
  s !! name = Some bk -> records bk = [] -> objects bk = [] ->
  remove_bucket client policy name s
  = (Return tt, delete name s,
     [Api (DeleteBucket name) Done; Api (WaitBucketNotExists name) Done]).
Proof.
  intros Hbk Hr Ho. unfold remove_bucket.
  apply try_except_Return.
  erewrite bind_Return.
  2:{ unfold delete_bucket, exponential_backoff. apply retry_func_Return.
      unfold delete_bucket_undecorated. apply try_except_Return.
      unfold api. cbn. rewrite Hbk, Hr, Ho. reflexivity. }
  unfold api. cbn. rewrite lookup_delete_eq. reflexivity.
Qed.

(** The suspension and the purge of the versions, from a bucket whose
    versioning is enabled and settles in time. *)
Lemma ref_suspend_and_purge bk (s : gmap string BucketState) :
  s !! name = Some bk ->
  mode bk = Enabled -> pending bk = None -> lag bk < 12 ->
  exists t12,
    bind (suspend_versioning client policy name)
      (fun _ => purge_versions client name) s
    = (Return tt,
       <[name := with_contents (with_versioning bk Suspended None) []
                   (objects bk)]> s, t12).
Proof.
  intros Hbk Hm Hp Hlag.
  destruct (ref_suspend_versioning max_keys policy name bk s Hbk Hm Hp Hlag)
    as (t1 & H1).
  set (bk1 := with_versioning bk Suspended None) in *.
  destruct (ref_purge_versions_all max_keys name bk1 (<[name := bk1]> s))
    as (t2 & H2); [apply lookup_insert_eq |].
  eexists. erewrite bind_Return by exact H1. rewrite H2.
  rewrite insert_insert_eq. reflexivity.
Qed.

(** X11: on the reference store, a [force] run on a bucket whose versioning
    is enabled, with no change of versioning pending, whose suspension settles
    within the reads of the wait (fewer than 12) and which holds no plain
    object, reports [changed=True] and leaves the store without that bucket
    and otherwise as it was, however many data versions and delete markers the
    bucket held, whatever the page size and the retry policy. *)
Theorem forced_run_deletes_bucket bk (s : gmap string BucketState) :
  s !! name = Some bk ->
  mode bk = Enabled -> pending bk = None -> lag bk < 12 ->
  objects bk = [] ->
  exists t,
    destroy_bucket client policy true name s
    = (SystemExit (ExitJson true), delete name s, t).
Proof.
  intros Hbk Hm Hp Hlag Ho.
  destruct (ref_suspend_and_purge bk s Hbk Hm Hp Hlag) as (t12 & H12).
  set (bk2 := with_contents (with_versioning bk Suspended None) [] (objects bk)) in *.
  eexists. unfold destroy_bucket.
  erewrite bind_Return by apply ref_probe_existence.
  rewrite (bucket_present_Some _ _ _ Hbk). cbn [negb].
  rewrite bind_ret_l.
  erewrite bind_Return.
  2:{ unfold purge_bucket. rewrite <- bind_assoc.
      erewrite bind_Return by exact H12.
      rewrite (ref_purge_plain_objects_none bk2) by
        (first [apply lookup_insert_eq | exact Ho]).
      reflexivity. }
  erewrite bind_Return.
  2:{ apply (ref_remove_bucket_empty bk2);
        first [apply lookup_insert_eq | reflexivity | exact Ho]. }
  rewrite delete_insert_eq. cbn. reflexivity.
Qed.

(** X12: on the reference store, in the same conditions but with at least
    one plain object in the bucket, the [force] run ends with [NameError]
    after it has deleted every data version and every delete marker: the
    bucket is still there, with its versioning suspended, no record left and
    its plain objects untouched. *)
Theorem forced_run_purges_then_stops bk (s : gmap string BucketState) :
  s !! name = Some bk ->
  mode bk = Enabled -> pending bk = None -> lag bk < 12 ->
  objects bk <> [] ->
  exists t,
    destroy_bucket client policy true name s
    = (Raise (NameError "bucket_name"),
       <[name := with_contents (with_versioning bk Suspended None) []
                   (objects bk)]> s, t).
Proof.
  intros Hbk Hm Hp Hlag Ho.
  destruct (ref_suspend_and_purge bk s Hbk Hm Hp Hlag) as (t12 & H12).
  set (bk2 := with_contents (with_versioning bk Suspended None) [] (objects bk)) in *.
  destruct (ref_purge_plain_objects_some bk2 (<[name := bk2]> s)) as (t3 & H3);
    [apply lookup_insert_eq | exact Ho |].
  eexists. unfold destroy_bucket.
  erewrite bind_Return by apply ref_probe_existence.
  rewrite (bucket_present_Some _ _ _ Hbk). cbn [negb].
  rewrite bind_ret_l.
  erewrite bind_Raise; [reflexivity |].
  unfold purge_bucket. rewrite <- bind_assoc.
  erewrite bind_Return by exact H12. rewrite H3. reflexivity.
Qed.

(** X13: on the reference store, a run without [force] on a bucket that
    holds neither records nor plain objects needs no purge: it makes the
    listing of the probe, the delete-bucket call and the wait, reports
    [changed=True] and leaves the store without the bucket. *)
Theorem unforced_empty_bucket_deleted bk (s : gmap string BucketState) :
  s !! name = Some bk -> records bk = [] -> objects bk = [] ->
  destroy_bucket client policy false name s
  = (SystemExit (ExitJson true), delete name s,
     [Api (ListBuckets name) (Buckets (map fst (map_to_list s)));
      Api (DeleteBucket name) Done;
      Api (WaitBucketNotExists name) Done]).
Proof.
  intros Hbk Hr Ho. unfold destroy_bucket.
  erewrite bind_Return by apply ref_probe_existence.
  rewrite (bucket_present_Some _ _ _ Hbk). cbn [negb].
  rewrite !bind_ret_l.
  erewrite bind_Return by (apply (ref_remove_bucket_empty bk); assumption).
  reflexivity.
Qed.

End ReferenceEndToEnd.

Lemma forced_run_deletes_bucket_witness :
  exists t,
    destroy_bucket (ref_client 2) sample_policy true "b1" store3
    = (SystemExit (ExitJson true), delete "b1" store3, t).
Proof.
  apply (forced_run_deletes_bucket 2 sample_policy "b1" (b1 Enabled 1) store3).
  - vm_compute. reflexivity.
  - reflexivity.
  - reflexivity.
  - vm_compute. lia.
  - reflexivity.
Defined.

Lemma forced_run_purges_then_stops_witness :
  exists t,
    destroy_bucket (ref_client 2) sample_policy true "b1" store2
    = (Raise (NameError "bucket_name"),
       <["b1" := with_contents
                   (with_versioning
                      (with_contents (b1 Enabled 0) [v "a" "1"] ["x"; "y"; "z"])
                      Suspended None)
                   [] ["x"; "y"; "z"]]> store2, t).
Proof.
  apply (forced_run_purges_then_stops 2 sample_policy "b1"
           (with_contents (b1 Enabled 0) [v "a" "1"] ["x"; "y"; "z"]) store2).
  - vm_compute. reflexivity.
  - reflexivity.
  - reflexivity.
  - vm_compute. lia.
  - discriminate.
Defined.

Lemma unforced_empty_bucket_deleted_witness :
  destroy_bucket (ref_client 2) sample_policy false "b1"
    ({[ "b1" := with_contents (b1 Enabled 0) [] [] ]})
  = (SystemExit (ExitJson true),
     delete "b1" ({[ "b1" := with_contents (b1 Enabled 0) [] [] ]}),
     [Api (ListBuckets "b1")
        (Buckets (map fst (map_to_list
           ({[ "b1" := with_contents (b1 Enabled 0) [] [] ]}
            : gmap string BucketState))));
      Api (DeleteBucket "b1") Done;
      Api (WaitBucketNotExists "b1") Done]).
Proof.
  apply (unforced_empty_bucket_deleted 2 sample_policy "b1"
           (with_contents (b1 Enabled 0) [] [])).
  - vm_compute. reflexivity.
  - reflexivity.
  - reflexivity.
Defined.

(** ** A suspension that does not settle in time *)

Section ReferenceTimeout.

Variable max_keys : nat.
Variable policy : RetryPolicy.
Variable name : string.

Local Abbreviation client := (ref_client max_keys).

Lemma with_versioning_same bk reads :
  pending bk = Some (Suspended, reads) ->
  with_versioning bk (mode bk) (Some (Suspended, reads)) = bk.
Proof. destruct bk; cbn; intros ->; reflexivity. Qed.

Lemma ref_wait_times_out dummies reads bk (s : gmap string BucketState) :
  s !! name = Some bk ->
  pending bk = Some (Suspended, reads) ->
  mode bk <> Suspended ->
  length dummies <= reads ->
  exists tw,
    wait_versioning_loop client policy dummies name "Suspended" s
    = (SystemExit (FailJson timeout_msg),
       <[name := with_versioning bk (mode bk)
                   (Some (Suspended, reads - length dummies))]> s, tw).
Proof.
  revert reads bk s.
  induction dummies as [|dummy rest IH]; intros reads bk s Hbk Hp Hm Hlen;
    cbn [wait_versioning_loop length].
  - exists []. rewrite Nat.sub_0_r, with_versioning_same by exact Hp.
    rewrite insert_id by exact Hbk. reflexivity.
  - destruct reads as [|reads]; [cbn in Hlen; lia |].
    set (bk1 := with_versioning bk (mode bk) (Some (Suspended, reads))).
    destruct (IH reads bk1 (<[name := bk1]> s)) as (tw & Hw).
    { apply lookup_insert_eq. }
    { reflexivity. }
    { exact Hm. }
    { cbn in Hlen. lia. }
    eexists.
    erewrite bind_Return;
      [| apply try_except_Return, ref_get_bucket_versioning;
         cbn; rewrite Hbk, Hp; reflexivity].
    fold bk1.
    rewrite bool_decide_false by (destruct (mode bk); cbn; congruence).
    cbn [negb]. unfold time_sleep, bind at 1, emit. rewrite Hw.
    rewrite insert_insert_eq. reflexivity.
Qed.

(** X14: on the reference store, when the suspension settles only after 12
    reads or more, the [force] run ends on the timeout of the wait: no record
    and no plain object of the bucket is deleted, the bucket stays, and the
    change of versioning that was requested stays pending in the store. *)
Theorem forced_run_times_out bk (s : gmap string BucketState) :
  s !! name = Some bk ->
  mode bk = Enabled -> pending bk = None -> 12 <= lag bk ->
  exists t,
    destroy_bucket client policy true name s
    = (SystemExit (FailJson timeout_msg),
       <[name := with_versioning bk Enabled (Some (Suspended, lag bk - 12))]> s, t)
    /\ count is_delete_object t = 0
    /\ count is_delete_bucket t = 0.
Proof.
  intros Hbk Hm Hp Hlag.
  set (bk1 := with_versioning bk (mode bk) (Some (Suspended, lag bk))).
  destruct (ref_wait_times_out (seq 0 12) (lag bk) bk1 (<[name := bk1]> s))
    as (tw & Hw).
  { apply lookup_insert_eq. }
  { reflexivity. }
  { cbn. rewrite Hm. discriminate. }
  { rewrite length_seq. exact Hlag. }
  rewrite length_seq, insert_insert_eq in Hw.
  assert (Hsus : exists t1,
             suspend_versioning client policy name s
             = (SystemExit (FailJson timeout_msg),
                <[name := with_versioning bk Enabled (Some (Suspended, lag bk - 12))]> s,
                t1)).
  { eexists. unfold suspend_versioning.
    erewrite bind_Return;
      [| apply try_except_Return, ref_get_bucket_versioning;
         cbn; rewrite Hbk, Hp, Hm; reflexivity].
    rewrite bool_decide_true by reflexivity. cbn [local].
    rewrite bind_ret_l. cbn [truthy String.eqb negb].
    erewrite bind_Return;
      [| apply try_except_Return; unfold put_bucket_versioning, exponential_backoff;
         apply retry_func_Return; unfold api; cbn; rewrite Hbk; reflexivity].
    rewrite bind_ret_l. unfold wait_versioning_is_applied. fold bk1. rewrite Hw.
    unfold bk1. cbn [with_versioning mode lag records objects]. rewrite Hm.
    reflexivity. }
  destruct Hsus as (t1 & Hsus).
  assert (Ht1 : Forall (stage_event SuspendVersioning name) t1).
  { destruct (suspend_versioning_within client policy (fun _ => True) name
                (preserved_True _) (preserved_True _) _ _ _ _ Logic.I Hsus)
      as (_ & Ht1 & _). exact Ht1. }
  exists (Api (ListBuckets name) (Buckets (map fst (map_to_list s))) :: t1).
  split; [| split].
  - unfold destroy_bucket.
    erewrite bind_Return by apply ref_probe_existence.
    rewrite (bucket_present_Some _ _ _ Hbk). cbn [negb].
    rewrite bind_ret_l.
    erewrite bind_SystemExit; [reflexivity |].
    unfold purge_bucket. erewrite bind_SystemExit; [reflexivity | exact Hsus].
  - unfold count. cbn. apply count_none. eapply Forall_impl; [exact Ht1 |].
    intros ev Hev.
    destruct ev as [[b|b|b status|b|b|b k i|b|b] resp| |]; try reflexivity.
    destruct Hev.
  - change (count is_delete_bucket ([Api (ListBuckets name)
              (Buckets (map fst (map_to_list s)))] ++ t1) = 0).
    rewrite count_app, (stage_no_bucket_delete _ _ _ Ht1) by discriminate.
    reflexivity.
Qed.

End ReferenceTimeout.

Lemma forced_run_times_out_witness :
  exists t,
    destroy_bucket (ref_client 2) sample_policy true "b1" (store1 Enabled 12)
    = (SystemExit (FailJson timeout_msg),
       <["b1" := with_versioning (b1 Enabled 12) Enabled (Some (Suspended, 12 - 12))]>
         (store1 Enabled 12), t)
    /\ count is_delete_object t = 0
    /\ count is_delete_bucket t = 0.
Proof.
  apply (forced_run_times_out 2 sample_policy "b1" (b1 Enabled 12) (store1 Enabled 12)).
  - vm_compute. reflexivity.
  - reflexivity.
  - reflexivity.
  - vm_compute. lia.
Defined.

(** * The attempts of a decorated call and of the wait *)

Lemma decorated_api_call {St A} policy extra c (answer : A -> Response) op
    delays (s : St) r s' t :
  (forall a e, answer a <> Failed e) ->
  retry_func policy extra delays (api c answer op) s = (r, s', t) ->
  exists resp,
    decorated_call policy extra delays c resp t /\ answered answer r resp.
Proof.
  intros Hanswer. revert s r s' t.
  induction delays as [|d rest IH]; intros s r s' t H; cbn [retry_func] in H.
  - apply api_calls_once in H as (resp & -> & Hans).
    exists resp. split; [| exact Hans]. exists []. repeat split; auto.
  - apply try_except_inv in H as [[H Hnone] | (e & k & s1 & t1 & t2 & H1 & He & Hk & ->)].
    + apply api_calls_once in H as (resp & -> & Hans).
      exists resp. split; [| exact Hans]. exists [].
      split; [cbn; lia |]. split; [constructor |]. split; [reflexivity |].
      intros code -> Hfound. exfalso.
      destruct Hans as [(a & _ & Ha) | (b & -> & [= <-])].
      * symmetry in Ha. exact (Hanswer _ _ Ha).
      * specialize (Hnone _ eq_refl). cbn in Hnone. rewrite Hfound in Hnone.
        discriminate.
    + apply api_calls_once in H1 as (resp1 & -> & Hans1).
      destruct e as [[| |code|]| | |]; try discriminate.
      destruct (found policy extra code) eqn:Hfound; [|discriminate].
      injection He as <-.
      destruct Hans1 as [(a & [=] & _) | (b & [= <-] & ->)].
      apply bind_inv in Hk as [(u & s2 & t3 & t4 & Hemit & Hrest & ->) | [(e & Hemit & _) | (o & Hemit & _)]];
        try discriminate.
      injection Hemit as <- <- <-.
      apply IH in Hrest as (resp & (codes & Hlen & Hcodes & -> & Hlast) & Hans).
      exists resp. split; [| exact Hans]. exists (code :: codes).
      split; [cbn; lia |]. split; [constructor; assumption |].
      split; [reflexivity |].
      intros code' Hr Hf. cbn. rewrite (Hlast code' Hr Hf). reflexivity.
Qed.

Lemma get_bucket_versioning_attempt {St} (s3_client : S3Client St) policy
    name s r s' t :
  get_bucket_versioning s3_client policy name s = (r, s', t) ->
  exists resp, read_attempt policy name resp t /\ answered Versioning r resp.
Proof.
  unfold get_bucket_versioning, exponential_backoff, read_attempt.
  apply decorated_api_call. discriminate.
Qed.

Lemma wait_run_later policy n name target r ta st t :
  st <> Some target ->
  read_attempt policy name (Versioning st) ta ->
  wait_run policy n name target r t ->
  wait_run policy (S n) name target r (ta ++ Sleep 5 :: t).
Proof.
  intros Hst Hta (misses & final & -> & Hmisses & Hr).
  exists (ta :: misses), final. split; [| split].
  - cbn [flat_map]. rewrite <- !app_assoc. reflexivity.
  - constructor; [exists st; auto | exact Hmisses].
  - cbn [length]. destruct r as [st'|e|[b|msg|e msg]]; try exact Hr.
    + destruct Hr as (? & ? & ?). repeat split; auto. lia.
    + destruct Hr as (? & ? & ?). repeat split; auto.
    + destruct Hr as (? & ? & ?). repeat split; auto. lia.
Qed.

Lemma wait_versioning_loop_attempts {St} (s3_client : S3Client St) policy
    dummies name target s r s' t :
  wait_versioning_loop s3_client policy dummies name target s = (r, s', t) ->
  wait_run policy (length dummies) name target r t.
Proof.
  revert s r s' t. induction dummies as [|dummy rest IH]; intros s r s' t H.
  - injection H as <- <- <-. exists [], []. repeat split; constructor.
  - cbn [wait_versioning_loop] in H.
    apply bind_inv in H as [(st & s1 & t1 & t2 & H1 & H2 & ->) | [(e & H1 & ->) | (o & H1 & ->)]].
    + apply try_except_inv in H1 as [[H1 _] | (e & k & s0 & t0 & t3 & _ & He & H1 & _)].
      2:{ destruct (is_BotoCoreError e || is_ClientError e); [|discriminate].
          injection He as <-. discriminate. }
      apply get_bucket_versioning_attempt in H1 as (resp & Hta & Hans).
      destruct Hans as [(a & [= <-] & ->) | (e & [=] & _)].
      case_bool_decide as Hst; cbn [negb] in H2.
      * injection H2 as <- <- <-. rewrite app_nil_r. subst st.
        exists [], t1. cbn. repeat split; [constructor | lia | exact Hta].
      * apply bind_inv in H2 as [(u & s2 & t3 & t4 & Hemit & Hrest & ->) | [(e & Hemit & _) | (o & Hemit & _)]];
          try discriminate.
        injection Hemit as <- <- <-. apply IH in Hrest.
        change ([Sleep 5] ++ t4) with (Sleep 5 :: t4).
        eapply wait_run_later; eassumption.
    + exfalso.
      apply try_except_inv in H1 as [[H1 Hh] | (e0 & k & s0 & t0 & t3 & _ & He & H1 & _)].
      * apply get_bucket_versioning_attempt in H1 as (resp & _ & Hans).
        destruct Hans as [(a & [=] & _) | (b & [= ->] & _)].
        specialize (Hh _ eq_refl). destruct b; discriminate.
      * destruct (is_BotoCoreError e0 || is_ClientError e0); [|discriminate].
        injection He as <-. discriminate.
    + apply try_except_inv in H1 as [[H1 _] | (e0 & k & s0 & t0 & t3 & H1 & He & Hk & ->)].
      * apply get_bucket_versioning_attempt in H1 as (resp & _ & Hans).
        destruct Hans as [(a & [=] & _) | (b & [=] & _)].
      * destruct (is_BotoCoreError e0 || is_ClientError e0); [|discriminate].
        injection He as <-. injection Hk as <- <- <-. rewrite app_nil_r.
        apply get_bucket_versioning_attempt in H1 as (resp & Hta & Hans).
        destruct Hans as [(a & [=] & _) | (b & [= ->] & ->)].
        exists [], t0. cbn.
        repeat split; [constructor | lia |]. exists b. auto.
Qed.

Lemma backoff_strategy_ceiling policy max_delay :
  Forall (fun d => d <= max_delay) (backoff_strategy policy max_delay).
Proof.
  unfold backoff_strategy. apply Forall_forall. intros d Hd.
  apply list_elem_of_In, in_map_iff in Hd as (retry & <- & _). lia.
Qed.

(** C4: a run of the wait is a sequence of at most 12 attempts.  Each attempt
    is one call of [get_bucket_versioning]: it ends with one request for the
    versioning status and its answer, after the requests the retry decorator
    repeated, each with the backoff of its rank (at most 120).  An attempt
    that reads another status than the one waited for is followed by a sleep
    of exactly 5 and by the next attempt.  The first attempt that reads the
    status waited for ends the run, which returns that status with nothing
    after the answer.  An attempt whose request fails ends the run through
    [fail_json_aws].  When 12 attempts have missed, the run ends with
    [fail_json] and the timeout message right after the twelfth sleep: there
    is no thirteenth attempt.  Being defined by recursion on [range(0, 12)],
    the wait always ends. *)
Theorem wait_versioning_is_applied_attempts {St} (s3_client : S3Client St)
    policy name target s r s' t :
  wait_versioning_is_applied s3_client policy name target s = (r, s', t) ->
  wait_run policy 12 name target r t
  /\ Forall (fun d => d <= 120) (backoff_strategy policy 120).
Proof.
  intros H. split; [| apply backoff_strategy_ceiling].
  apply wait_versioning_loop_attempts in H. rewrite length_seq in H. exact H.
Qed.

(** The first request is throttled and repeated after a backoff of 3, the
    attempt reads "Enabled" and is followed by the sleep of 5; the second
    attempt reads "Suspended" and ends the wait. *)
Lemma wait_versioning_is_applied_attempts_witness :
  let t :=
    [Api (GetBucketVersioning "b1") (Failed (ClientError "Throttling"));
     Backoff 3;
     Api (GetBucketVersioning "b1") (Versioning (Some "Enabled"));
     Sleep 5;
     Api (GetBucketVersioning "b1") (Versioning (Some "Suspended"))] in
  wait_run sample_policy 12 "b1" "Suspended" (Return (Some "Suspended")) t
  /\ Forall (fun d => d <= 120) (backoff_strategy sample_policy 120).
Proof.
  cbv zeta.
  eapply (wait_versioning_is_applied_attempts (faulty (ref_client 2)) sample_policy
            "b1" "Suspended"
            ([Some (ClientError "Throttling")],
             <["b1" := with_versioning (b1 Enabled 1) Enabled (Some (Suspended, 1))]> ∅)).
  vm_compute. reflexivity.
Defined.

(** Twelve attempts that miss: twelve requests, twelve sleeps, then the
    timeout. *)
Example wait_versioning_is_applied_gives_up :
  exists s',
    wait_versioning_is_applied (ref_client 2) sample_policy "b1" "Suspended"
      (store1 Enabled 0)
    = (SystemExit (FailJson timeout_msg), s',
       flat_map (fun ta => ta ++ [Sleep 5])
         (repeat [Api (GetBucketVersioning "b1") (Versioning (Some "Enabled"))] 12)).
Proof. eexists. vm_compute. reflexivity. Qed.

(** * The purge in a run whose suspension is observed *)



(** The scenario of the spec, in the total form: five deletions, then the
    plain listing and the bucket delete. *)
Example purge_issues_every_deletion_b1 :
  exists r s' pre post,
    destroy_bucket (ref_client 2) sample_policy true "b1" (store1 Enabled 1)
    = (r, s', pre ++ post)
    /\ length (version_deletes pre) = 5
    /\ count is_delete_bucket pre = 0
    /\ count is_delete_bucket post = 1
    /\ version_deletes post = [].
Proof.
  eexists _, _,
    (firstn 14 (snd (destroy_bucket (ref_client 2) sample_policy true "b1"
                       (store1 Enabled 1)))),
    (skipn 14 (snd (destroy_bucket (ref_client 2) sample_policy true "b1"
                      (store1 Enabled 1)))).
  repeat split; vm_compute; reflexivity.
Qed.


(** * Calls that are retried and calls that are not *)

Lemma exponential_backoff_first_retry {St A} policy max_delay extra (f : M St A)
    s code s1 t1 a s2 t2 :
  retries policy <> 0 ->
  f s = (Raise (Boto (ClientError code)), s1, t1) ->
  found policy extra code = true ->
  f s1 = (Return a, s2, t2) ->
  exponential_backoff policy max_delay extra f s
  = (Return a, s2, t1 ++ Backoff (first_backoff policy max_delay) :: t2).
Proof.
  intros Hn Hfail Hfound Hok. unfold exponential_backoff, backoff_strategy.
  destruct (retries policy) as [|n]; [contradiction |].
  cbn [seq map].
  erewrite retry_func_retried by eassumption.
  erewrite retry_func_Return by eassumption.
  unfold first_backoff. cbn [Nat.pow]. rewrite Nat.mul_1_r. reflexivity.
Qed.

(** Nothing follows an event that is the last one and occurs only there. *)
Lemma last_direct_failure (t pre post pre' : list Event) ev :
  t = pre ++ ev :: post ->
  t = pre' ++ [ev] ->
  Forall (fun x => direct_failure_event x = false) pre' ->
  direct_failure_event ev = true ->
  post = [].
Proof.
  intros H1 H2 Hpre Hev.
  destruct post as [|y post] using rev_ind; [reflexivity |]. exfalso.
  rewrite H1 in H2.
  change (pre ++ ev :: post ++ [y]) with (pre ++ (ev :: post) ++ [y]) in H2.
  rewrite app_assoc in H2. apply app_inj_tail in H2 as [<- _].
  apply Forall_app in Hpre as [_ Hpre]. inversion Hpre; congruence.
Qed.

Lemma answered_no_failure name l :
  Forall (fun x => direct_failure_event x = false)
    (map (delete_answered name Done) l).
Proof. induction l; constructor; [reflexivity | assumption]. Qed.

Lemma not_failed_in_answered name l c e :
  ~ In (Api c (Failed e)) (map (delete_answered name Done) l).
Proof. intros H. apply in_map_iff in H as (x & [=] & _). Qed.

Lemma decorated_stage_no_direct_failure name t :
  Forall (stage_event SuspendVersioning name) t ->
  Forall (fun x => direct_failure_event x = false) t.
Proof.
  intros Ht. eapply Forall_impl; [exact Ht |].
  intros [[b|b|b status|b|b|b k i|b|b] [e| | | | |]| |] H;
    first [reflexivity | destruct H].
Qed.

(** No direct failure in a list where none can be found. *)
Lemma no_direct_failure_intro (t : list Event) :
  (forall c e, is_decorated c = false -> ~ In (Api c (Failed e)) t) ->
  Forall (fun x => direct_failure_event x = false) t.
Proof.
  intros H. apply Forall_forall. intros ev Hin. apply list_elem_of_In in Hin.
  destruct ev as [c [e| | | | |]| |]; try reflexivity.
  cbn. destruct (is_decorated c) eqn:Hc; [reflexivity |].
  destruct (H c e Hc Hin).
Qed.

Lemma purge_versions_pages_failed {St} (s3_client : S3Client St) name pages
    s r s' t c e :
  for_page (ListObjectVersions name) PageOfVersions pages
    (purge_versions_page s3_client name) s = (r, s', t) ->
  In (Api c (Failed e)) t ->
  r = Raise (Boto e)
  /\ exists pre, t = pre ++ [Api c (Failed e)]
       /\ Forall (fun x => direct_failure_event x = false) pre.
Proof.
  revert s r s' t. induction pages as [|[e0|p] rest IH]; intros s r s' t H Hin.
  - injection H as <- <- <-. destruct Hin.
  - cbn in H. injection H as <- <- <-.
    destruct Hin as [[= <- <-] | []]. split; [reflexivity |].
    exists []. split; [reflexivity | constructor].
  - cbn [for_page] in H. unfold bind at 1 in H. unfold emit in H.
    match type of H with
    | match ?m s with _ => _ end = _ => destruct (m s) as [[r2 s2] t2] eqn:Hrest
    end.
    injection H as <- <- <-.
    destruct Hin as [[=] | Hin].
    apply bind_inv in Hrest as [(a & s1 & t1 & t3 & H1 & H2 & ->) | [(e1 & H1 & ->) | (o & H1 & ->)]].
    + rewrite purge_versions_page_entries in H1.
      apply for_in_delete_run in H1 as [(_ & ->) | (l1 & x & l2 & b & _ & [=] & _)].
      apply in_app_or in Hin as [Hin | Hin]; [destruct (not_failed_in_answered _ _ _ _ Hin) |].
      destruct (IH _ _ _ _ H2 Hin) as (-> & pre & -> & Hpre).
      split; [reflexivity |].
      exists (([Api (ListObjectVersions name) (PageOfVersions p)]
               ++ map (delete_answered name Done) (page_entries p)) ++ pre).
      split; [rewrite <- !app_assoc; reflexivity |].
      apply Forall_app. split; [| exact Hpre].
      constructor; [reflexivity | apply answered_no_failure].
    + rewrite purge_versions_page_entries in H1.
      apply for_in_delete_run in H1 as [([=] & _) | (l1 & x & l2 & b & _ & [= ->] & ->)].
      apply in_app_or in Hin as [Hin | Hin]; [destruct (not_failed_in_answered _ _ _ _ Hin) |].
      destruct Hin as [[= <- <-] | []].
      split; [reflexivity |].
      exists ([Api (ListObjectVersions name) (PageOfVersions p)]
              ++ map (delete_answered name Done) l1).
      split; [rewrite <- !app_assoc; reflexivity |].
      constructor; [reflexivity | apply answered_no_failure].
    + rewrite purge_versions_page_entries in H1.
      apply for_in_delete_run in H1 as [([=] & _) | (l1 & x & l2 & b & _ & [=] & _)].
Qed.

Lemma purge_objects_pages_failed {St} (s3_client : S3Client St) name pages
    s r s' t c e :
  for_page (ListObjectsV2 name) PageOfObjects pages
    (purge_objects_page s3_client name) s = (r, s', t) ->
  In (Api c (Failed e)) t ->
  r = Raise (Boto e)
  /\ exists pre, t = pre ++ [Api c (Failed e)]
       /\ Forall (fun x => direct_failure_event x = false) pre.
Proof.
  revert r s' t. induction pages as [|[e0|p] rest IH]; intros r s' t H Hin.
  - injection H as <- <- <-. destruct Hin.
  - cbn in H. injection H as <- <- <-.
    destruct Hin as [[= <- <-] | []]. split; [reflexivity |].
    exists []. split; [reflexivity | constructor].
  - cbn [for_page] in H. unfold bind at 1 in H. unfold emit in H.
    unfold purge_objects_page in *.
    destruct (Contents p) as [| |[|x xs]].
    + unfold bind, ret in H.
      destruct (for_page _ _ rest _ s) as [[r2 s2] t2] eqn:Hrest.
      injection H as <- <- <-. destruct Hin as [[=] | Hin].
      destruct (IH _ _ _ eq_refl Hin) as (-> & pre & -> & Hpre).
      split; [reflexivity |]. eexists (_ :: pre).
      split; [reflexivity | constructor; [reflexivity | exact Hpre]].
    + cbn in H. injection H as <- <- <-. destruct Hin as [[=] | []].
    + cbn [for_in] in H. unfold bind, ret in H.
      destruct (for_page _ _ rest _ s) as [[r2 s2] t2] eqn:Hrest.
      injection H as <- <- <-. destruct Hin as [[=] | Hin].
      destruct (IH _ _ _ eq_refl Hin) as (-> & pre & -> & Hpre).
      split; [reflexivity |]. eexists (_ :: pre).
      split; [reflexivity | constructor; [reflexivity | exact Hpre]].
    + cbn in H. injection H as <- <- <-. destruct Hin as [[=] | []].
Qed.

(** An event of a call made directly, in the block it belongs to. *)
Lemma direct_call_stage st name c e :
  stage_event st name (Api c (Failed e)) -> is_decorated c = false ->
  (st = ProbeExistence /\ c = ListBuckets name)
  \/ (st = PurgeVersions
      /\ (c = ListObjectVersions name \/ exists k i, c = DeleteObject name k (Some i)))
  \/ (st = PurgePlainObjects /\ c = ListObjectsV2 name)
  \/ (st = DeleteBucketStage /\ c = WaitBucketNotExists name).
Proof.
  intros H Hdec.
  destruct c as [b|b|b status|b|b|b k [i|]|b|b]; try discriminate;
    destruct st; cbn in H; try contradiction; subst b; eauto 10.
Qed.

Lemma direct_call_in_stage st name t c e :
  Forall (stage_event st name) t -> In (Api c (Failed e)) t ->
  stage_event st name (Api c (Failed e)).
Proof.
  intros Ht Hin. rewrite Forall_forall in Ht. apply Ht, list_elem_of_In, Hin.
Qed.

Lemma purge_bucket_failed {St} (s3_client : S3Client St) policy name
    s r s' t c e :
  purge_bucket s3_client policy name s = (r, s', t) ->
  is_decorated c = false ->
  In (Api c (Failed e)) t ->
  r = Raise (Boto e) /\ direct_failure c e = Raise (Boto e)
  /\ exists pre, t = pre ++ [Api c (Failed e)]
       /\ Forall (fun x => direct_failure_event x = false) pre.
Proof.
  intros H Hdec Hin. pose (T := fun _ : St => True).
  apply purge_bucket_inv in H as (r1 & s1 & t1 & H1 & H).
  destruct (suspend_versioning_within s3_client policy T name
              (preserved_True _) (preserved_True _) _ _ _ _ Logic.I H1)
    as (_ & Ht1 & _).
  pose proof (decorated_stage_no_direct_failure _ _ Ht1) as Hf1.
  assert (Hn1 : ~ In (Api c (Failed e)) t1).
  { intros Hi. apply (direct_call_in_stage _ _ _ _ _ Ht1) in Hi.
    apply direct_call_stage in Hi as [(? & _) | [(? & _) | [(? & _) | (? & _)]]];
      [discriminate .. | exact Hdec]. }
  destruct r1 as [st|e1|o];
    [| destruct H as (_ & _ & ->); contradiction
     | destruct H as (_ & _ & ->); contradiction].
  destruct H as (r2 & s2 & t2 & H2 & H).
  destruct (purge_versions_within s3_client T name
              (fun _ _ => preserved_True _) _ _ _ _ Logic.I H2) as (_ & Ht2 & _).
  assert (Hk2 : In (Api c (Failed e)) t2 -> direct_failure c e = Raise (Boto e)).
  { intros Hi. apply (direct_call_in_stage _ _ _ _ _ Ht2) in Hi.
    apply direct_call_stage in Hi as [(? & _) | [(_ & Hc) | [(? & _) | (? & _)]]];
      [discriminate | | discriminate | discriminate | exact Hdec].
    destruct Hc as [-> | (k & i & ->)]; reflexivity. }
  pose proof (fun c e => purge_versions_pages_failed _ _ _ _ _ _ _ c e H2) as Hv.
  destruct r2 as [u|e2|o].
  - destruct H as (t3 & H3 & ->).
    destruct (purge_plain_objects_within s3_client T name _ _ _ _ Logic.I H3)
      as (_ & Ht3 & _).
    assert (Hf2 : Forall (fun x => direct_failure_event x = false) t2).
    { apply no_direct_failure_intro. intros c' e' _ Hi.
      destruct (Hv _ _ Hi) as ([=] & _). }
    apply in_app_or in Hin as [Hi | Hi]; [contradiction |].
    apply in_app_or in Hi as [Hi | Hi]; [destruct (Hv _ _ Hi) as ([=] & _) |].
    destruct (purge_objects_pages_failed _ _ _ _ _ _ _ c e H3 Hi)
      as (-> & pre & -> & Hpre).
    split; [reflexivity |]. split.
    + apply (direct_call_in_stage _ _ _ _ _ Ht3) in Hi.
      apply direct_call_stage in Hi as [(? & _) | [(? & _) | [(_ & ->) | (? & _)]]];
        [discriminate | discriminate | reflexivity | discriminate | exact Hdec].
    + exists (t1 ++ t2 ++ pre). split; [rewrite <- !app_assoc; reflexivity |].
      repeat (apply Forall_app; split); assumption.
  - destruct H as (-> & _ & ->).
    apply in_app_or in Hin as [Hi | Hi]; [contradiction |].
    destruct (Hv _ _ Hi) as ([= ->] & pre & -> & Hpre).
    split; [reflexivity |]. split; [apply Hk2, Hi |].
    exists (t1 ++ pre). split; [rewrite <- !app_assoc; reflexivity |].
    apply Forall_app; split; assumption.
  - destruct H as (-> & _ & ->).
    apply in_app_or in Hin as [Hi | Hi]; [contradiction |].
    destruct (Hv _ _ Hi) as ([=] & _).
Qed.

Lemma delete_bucket_no_direct_failure {St} (s3_client : S3Client St) policy name
    s r s' t :
  delete_bucket s3_client policy name s = (r, s', t) ->
  Forall (fun x => direct_failure_event x = false) t.
Proof.
  intros H.
  assert (Hw : within (fun _ : St => True)
                 (fun x => direct_failure_event x = false)
                 (fun _ => True) (delete_bucket s3_client policy name)).
  { unfold delete_bucket, exponential_backoff.
    apply within_retry_func; [reflexivity |].
    unfold delete_bucket_undecorated. apply within_try_except.
    - apply within_api; [intros resp; destruct resp; reflexivity | apply preserved_True].
    - intros e0 k Hk. destruct e0 as [[| |code|]| | |]; try discriminate.
      destruct (String.eqb code "NoSuchBucket"); injection Hk as <-;
        [apply within_ret | apply within_raise]. }
  destruct (Hw _ _ _ _ Logic.I H) as (_ & Ht & _). exact Ht.
Qed.

Lemma delete_bucket_no_waiter {St} (s3_client : S3Client St) policy name
    s r s' t e :
  delete_bucket s3_client policy name s = (r, s', t) ->
  ~ In (Api (WaitBucketNotExists name) (Failed e)) t.
Proof.
  intros H Hin. apply delete_bucket_no_direct_failure in H.
  rewrite Forall_forall in H. apply list_elem_of_In, H in Hin. discriminate.
Qed.

Lemma remove_bucket_failed_wait {St} (s3_client : S3Client St) policy name
    s r s' t e :
  remove_bucket s3_client policy name s = (r, s', t) ->
  In (Api (WaitBucketNotExists name) (Failed e)) t ->
  r = SystemExit (FailJsonAws (Boto e) (removal_failed_msg e))
  /\ exists pre, t = pre ++ [Api (WaitBucketNotExists name) (Failed e)]
       /\ Forall (fun x => direct_failure_event x = false) pre.
Proof.
  unfold remove_bucket. intros H Hin.
  apply try_except_inv in H as [[H Hnone] | (e0 & k & s1 & t1 & t2 & H1 & He & Hk & ->)].
  - exfalso.
    apply bind_inv in H as [(a & s1 & t1 & t2 & H1 & H2 & ->) | [(e1 & H1 & ->) | (o & H1 & ->)]].
    + apply in_app_or in Hin as [Hi | Hi];
        [exact (delete_bucket_no_waiter _ _ _ _ _ _ _ _ H1 Hi) |].
      apply api_inv in H2 as [(u & _ & _ & ->) | (b & _ & -> & ->)].
      * destruct Hi as [[=] | []].
      * specialize (Hnone _ eq_refl). destruct b; discriminate.
    + exact (delete_bucket_no_waiter _ _ _ _ _ _ _ _ H1 Hin).
    + exact (delete_bucket_no_waiter _ _ _ _ _ _ _ _ H1 Hin).
  - apply bind_inv in H1 as [(a & s2 & t3 & t4 & H1 & H2 & ->) | [(e1 & H1 & [= <-]) | (o & _ & [=])]].
    + apply api_inv in H2 as [(u & _ & [=] & _) | (b & _ & [= ->] & ->)].
      assert (k = @fail_json_aws St unit (Boto b) (removal_failed_msg b)) as ->.
      { destruct b; cbn in He; injection He as <-; reflexivity. }
      injection Hk as <- <- <-. rewrite app_nil_r in *.
      apply in_app_or in Hin as [Hi | Hi];
        [destruct (delete_bucket_no_waiter _ _ _ _ _ _ _ _ H1 Hi) |].
      destruct Hi as [[= <-] | []]. split; [reflexivity |]. exists t3.
      split; [reflexivity | exact (delete_bucket_no_direct_failure _ _ _ _ _ _ _ H1)].
    + exfalso. apply in_app_or in Hin as [Hi | Hi];
        [exact (delete_bucket_no_waiter _ _ _ _ _ _ _ _ H1 Hi) |].
      destruct e0 as [b| | |].
      * assert (k = @fail_json_aws St unit (Boto b) (removal_failed_msg b)) as ->.
        { destruct b; cbn in He; injection He as <-; reflexivity. }
        injection Hk as <- <- <-. destruct Hi.
      * discriminate.
      * discriminate.
      * discriminate.
Qed.

(** A failed call made directly is the last event of the workflow, and the
    only such failure of the run. *)
Lemma destroy_bucket_direct_failure {St} (s3_client : S3Client St) policy force
    name s r s' t c e :
  destroy_bucket s3_client policy force name s = (r, s', t) ->
  is_decorated c = false ->
  In (Api c (Failed e)) t ->
  r = direct_failure c e
  /\ exists pre, t = pre ++ [Api c (Failed e)]
       /\ Forall (fun x => direct_failure_event x = false) pre.
Proof.
  intros H Hdec Hin.
  apply destroy_bucket_inv in H as (rA & sA & tA & HA & H).
  apply probe_existence_run in HA
    as [(names & _ & -> & ->) | (e0 & _ & -> & ->)].
  2:{ destruct H as (-> & _ & ->). destruct Hin as [[= <- <-] | []].
      split; [reflexivity |]. exists []. split; [reflexivity | constructor]. }
  destruct (existsb (String.eqb name) names).
  2:{ destruct H as (_ & _ & ->). destruct Hin as [[=] | []]. }
  destruct H as (rB & sB & tB & HB & H).
  assert (HfB : In (Api c (Failed e)) tB ->
                rB = Raise (Boto e) /\ direct_failure c e = Raise (Boto e)
                /\ exists pre, tB = pre ++ [Api c (Failed e)]
                     /\ Forall (fun x => direct_failure_event x = false) pre).
  { destruct force.
    - apply (purge_bucket_failed _ _ _ _ _ _ _ _ _ HB Hdec).
    - injection HB as <- <- <-. intros []. }
  destruct rB as [u|eB|o].
  - destruct H as (rC & tC & HC & -> & ->).
    cbn [app] in Hin. destruct Hin as [[=] | Hin].
    apply in_app_or in Hin as [Hi | Hi]; [destruct (HfB Hi) as ([=] & _) |].
    assert (HnB : Forall (fun x => direct_failure_event x = false) tB).
    { destruct force.
      - apply no_direct_failure_intro. intros c' e' Hc' Hi'.
        destruct (purge_bucket_failed _ _ _ _ _ _ _ _ _ HB Hc' Hi') as ([=] & _).
      - injection HB as <- <- <-. constructor. }
    destruct (remove_bucket_within s3_client policy (fun _ => True) name
                (preserved_True _) (preserved_True _) _ _ _ _ Logic.I HC)
      as (_ & HtC & _).
    pose proof (direct_call_in_stage _ _ _ _ _ HtC Hi) as Hst.
    apply direct_call_stage in Hst as [(? & _) | [(? & _) | [(? & _) | (_ & ->)]]];
      [discriminate | discriminate | discriminate | | exact Hdec].
    destruct (remove_bucket_failed_wait _ _ _ _ _ _ _ _ HC Hi) as (-> & pre & -> & Hpre).
    split; [reflexivity |].
    exists (([Api (ListBuckets name) (Buckets names)] ++ tB) ++ pre).
    split; [rewrite <- !app_assoc; reflexivity |].
    apply Forall_app. split; [| exact Hpre].
    constructor; [reflexivity | exact HnB].
  - destruct H as (-> & _ & ->).
    cbn [app] in Hin. destruct Hin as [[=] | Hin].
    destruct (HfB Hin) as ([= ->] & -> & pre & -> & Hpre).
    split; [reflexivity |].
    exists ([Api (ListBuckets name) (Buckets names)] ++ pre).
    split; [rewrite <- !app_assoc; reflexivity |].
    constructor; [reflexivity | exact Hpre].
  - destruct H as (-> & _ & ->).
    cbn [app] in Hin. destruct Hin as [[=] | Hin].
    destruct (HfB Hin) as ([=] & _).
Qed.

(** ** The backoffs of a run *)

Lemma within_retry_func_delays {St A} (I : St -> Prop) (P : Event -> Prop) X
    policy extra delays (f : M St A) :
  Forall (fun d => P (Backoff d)) delays -> within I P X f ->
  within I P X (retry_func policy extra delays f).
Proof.
  intros Hd Hf. induction Hd as [|d rest Hb _ IH]; simpl; [exact Hf |].
  apply within_try_except; [exact Hf |].
  intros e k Hk. destruct e as [[| |code|]| | |]; try discriminate.
  destruct (found policy extra code); [|discriminate].
  injection Hk as <-.
  apply within_bind; [apply within_emit, Hb | intros _; exact IH].
Qed.

Lemma exponential_backoff_scheduled {St A} (I : St -> Prop) X policy max_delay
    extra (f : M St A) :
  within I (scheduled_backoff policy max_delay) X f ->
  within I (scheduled_backoff policy max_delay) X
    (exponential_backoff policy max_delay extra f).
Proof.
  intros Hf. unfold exponential_backoff.
  apply within_retry_func_delays; [| exact Hf].
  apply Forall_forall. intros d Hd. apply list_elem_of_In, Hd.
Qed.

Lemma undecorated_stage_scheduled st name policy max_delay ev :
  st <> SuspendVersioning -> st <> DeleteBucketStage ->
  stage_event st name ev -> scheduled_backoff policy max_delay ev.
Proof.
  intros H1 H2 H. destruct ev as [c resp|n|d]; [exact Logic.I | exact Logic.I |].
  destruct st; first [congruence | destruct H].
Qed.

Section Backoffs.

Context {St : Type}.
Variable s3_client : S3Client St.
Variable policy : RetryPolicy.
Variable name : string.

Local Abbreviation T := (fun _ : St => True).
Local Abbreviation Any := (fun _ : ModuleExit => True).
Local Abbreviation scheduled := (scheduled_backoff policy 120).

Lemma get_bucket_versioning_scheduled :
  within T scheduled Any (get_bucket_versioning s3_client policy name).
Proof.
  unfold get_bucket_versioning. apply exponential_backoff_scheduled.
  apply within_api; [intros; exact Logic.I | apply preserved_True].
Qed.

Lemma wait_versioning_loop_scheduled dummies target :
  within T scheduled Any
    (wait_versioning_loop s3_client policy dummies name target).
Proof.
  induction dummies as [|dummy rest IH]; cbn [wait_versioning_loop].
  - apply within_fail_json. exact Logic.I.
  - apply within_bind.
    + apply within_try_except; [apply get_bucket_versioning_scheduled |].
      intros e k Hk. destruct (is_BotoCoreError e || is_ClientError e); [|discriminate].
      injection Hk as <-. apply within_fail_json_aws. exact Logic.I.
    + intros st. destruct (negb (bool_decide (st = Some target))).
      * apply within_bind; [apply within_emit; exact Logic.I | intros _; exact IH].
      * apply within_ret.
Qed.

Lemma suspend_versioning_scheduled :
  within T scheduled Any (suspend_versioning s3_client policy name).
Proof.
  unfold suspend_versioning.
  apply within_bind.
  - apply within_try_except; [apply get_bucket_versioning_scheduled |].
    intros e k Hk. destruct (is_ClientError e || is_BotoCoreError e); [|discriminate].
    injection Hk as <-. apply within_fail_json_aws. exact Logic.I.
  - intros st. case_bool_decide; cbn [local]; [| apply within_bind_raise].
    apply within_bind_ret. apply within_bind.
    + cbn. apply within_try_except.
      * unfold put_bucket_versioning. apply exponential_backoff_scheduled.
        apply within_api; [intros; exact Logic.I | apply preserved_True].
      * intros e k Hk. destruct (is_BotoCoreError e || is_ClientError e); [|discriminate].
        injection Hk as <-. apply within_fail_json_aws. exact Logic.I.
    + intros _. apply within_bind_ret.
      apply wait_versioning_loop_scheduled.
Qed.

Lemma remove_bucket_scheduled :
  within T scheduled Any (remove_bucket s3_client policy name).
Proof.
  unfold remove_bucket.
  apply within_try_except.
  - apply within_bind;
      [| intros _; apply within_api; [intros; exact Logic.I | apply preserved_True]].
    unfold delete_bucket. apply exponential_backoff_scheduled.
    unfold delete_bucket_undecorated. apply within_try_except.
    + apply within_api; [intros; exact Logic.I | apply preserved_True].
    + intros e k Hk. destruct e as [[| |code|]| | |]; try discriminate.
      destruct (String.eqb code "NoSuchBucket"); injection Hk as <-;
        [apply within_ret | apply within_raise].
  - intros e k Hk. destruct (is_WaiterError e).
    + injection Hk as <-. apply within_fail_json_aws. exact Logic.I.
    + destruct (is_BotoCoreError e || is_ClientError e); [|discriminate].
      injection Hk as <-. apply within_fail_json_aws. exact Logic.I.
Qed.

Lemma destroy_bucket_scheduled force :
  within T scheduled Any (destroy_bucket s3_client policy force name).
Proof.
  unfold destroy_bucket.
  apply within_bind; [| intros present; apply within_bind; [| intros _; apply within_bind; [| intros _; apply within_bind; [| intros _]]]].
  - eapply within_impl; [| | apply probe_existence_within, preserved_True];
      [intros ev; apply undecorated_stage_scheduled; discriminate | auto].
  - destruct (negb present); [apply within_exit_json; exact Logic.I | apply within_ret].
  - destruct force; [| apply within_ret].
    unfold purge_bucket.
    apply within_bind; [| intros _; apply within_bind; [| intros _]].
    + apply suspend_versioning_scheduled.
    + eapply within_impl;
        [| | apply purge_versions_within; intros; apply preserved_True];
        [intros ev; apply undecorated_stage_scheduled; discriminate | auto].
    + eapply within_impl; [| | apply purge_plain_objects_within];
        [intros ev; apply undecorated_stage_scheduled; discriminate | auto].
  - apply remove_bucket_scheduled.
  - apply within_exit_json. exact Logic.I.
Qed.

End Backoffs.

(** C9, as the code has it: the retry policy wraps three calls only, the read
    and the write of the versioning status and the bucket delete.  On each of
    them a failure with a code the policy retries is followed by the first
    backoff of the strategy, the policy's delay capped at 120, and by another
    attempt, whose answer is the answer of the call; every backoff of a run
    of [destroy_bucket] is a delay of that strategy, at most 120.  The other
    calls, the existence probe, the pages of both listings, every
    delete-object call and the waiter, are made directly: in every run of
    [destroy_bucket] a failed answer to one of them, on any page and any
    record, is the last event of the run, preceded by no other such failure
    and followed by no backoff and no other attempt, and it decides how the
    run ends: through [fail_json_aws] for the probe and the waiter, and as
    the client's exception leaving [destroy_bucket] uncaught for a listing
    page or a delete-object call. *)
Theorem retry_wraps_three_calls_only {St} (s3_client : S3Client St) policy name :
  retries policy <> 0 ->
  (forall s code s1 st s2,
      s3_get_bucket_versioning s3_client name s = (inl (ClientError code), s1) ->
      found policy ["NoSuchBucket"] code = true ->
      s3_get_bucket_versioning s3_client name s1 = (inr st, s2) ->
      get_bucket_versioning s3_client policy name s
      = (Return st, s2,
         [Api (GetBucketVersioning name) (Failed (ClientError code));
          Backoff (first_backoff policy 120);
          Api (GetBucketVersioning name) (Versioning st)]))
  /\ (forall status s code s1 s2,
      s3_put_bucket_versioning s3_client name status s = (inl (ClientError code), s1) ->
      found policy ["NoSuchBucket"] code = true ->
      s3_put_bucket_versioning s3_client name status s1 = (inr tt, s2) ->
      put_bucket_versioning s3_client policy name status s
      = (Return tt, s2,
         [Api (PutBucketVersioning name status) (Failed (ClientError code));
          Backoff (first_backoff policy 120);
          Api (PutBucketVersioning name status) Done]))
  /\ (forall s code s1 s2,
      s3_delete_bucket s3_client name s = (inl (ClientError code), s1) ->
      code <> "NoSuchBucket" ->
      found policy [] code = true ->
      s3_delete_bucket s3_client name s1 = (inr tt, s2) ->
      delete_bucket s3_client policy name s
      = (Return tt, s2,
         [Api (DeleteBucket name) (Failed (ClientError code));
          Backoff (first_backoff policy 120);
          Api (DeleteBucket name) Done]))
  /\ (forall force s r s' t d,
      destroy_bucket s3_client policy force name s = (r, s', t) ->
      In (Backoff d) t ->
      In d (backoff_strategy policy 120) /\ d <= 120)
  /\ (forall force s r s' t pre c e post,
      destroy_bucket s3_client policy force name s = (r, s', t) ->
      is_decorated c = false ->
      t = pre ++ Api c (Failed e) :: post ->
      post = []
      /\ r = direct_failure c e
      /\ Forall (fun ev => direct_failure_event ev = false) pre).
Proof.
  intros Hn. repeat apply conj.
  - intros s code s1 st s2 Hfail Hfound Hok.
    unfold get_bucket_versioning.
    apply (exponential_backoff_first_retry policy 120 _ _ s code s1
             [Api (GetBucketVersioning name) (Failed (ClientError code))] st s2
             [Api (GetBucketVersioning name) (Versioning st)]);
      [exact Hn | unfold api; rewrite Hfail; reflexivity | exact Hfound
      | unfold api; rewrite Hok; reflexivity].
  - intros status s code s1 s2 Hfail Hfound Hok.
    unfold put_bucket_versioning.
    apply (exponential_backoff_first_retry policy 120 _ _ s code s1
             [Api (PutBucketVersioning name status) (Failed (ClientError code))] tt s2
             [Api (PutBucketVersioning name status) Done]);
      [exact Hn | unfold api; rewrite Hfail; reflexivity | exact Hfound
      | unfold api; rewrite Hok; reflexivity].
  - intros s code s1 s2 Hfail Hne Hfound Hok.
    unfold delete_bucket.
    apply (exponential_backoff_first_retry policy 120 _ _ s code s1
             [Api (DeleteBucket name) (Failed (ClientError code))] tt s2
             [Api (DeleteBucket name) Done]);
      [exact Hn
      | unfold delete_bucket_undecorated, try_except, api; rewrite Hfail; cbn;
        apply String.eqb_neq in Hne; rewrite Hne; reflexivity
      | exact Hfound
      | unfold delete_bucket_undecorated, try_except, api; rewrite Hok; reflexivity].
  - intros force s r s' t d H Hin.
    destruct (destroy_bucket_scheduled s3_client policy name force _ _ _ _ Logic.I H)
      as (_ & Ht & _).
    rewrite Forall_forall in Ht. apply list_elem_of_In, Ht in Hin. cbn in Hin.
    split; [exact Hin |].
    pose proof (backoff_strategy_ceiling policy 120) as Hc.
    rewrite Forall_forall in Hc. apply Hc, list_elem_of_In, Hin.
  - intros force s r s' t pre c e post H Hdec Ht.
    assert (Hin : In (Api c (Failed e)) t).
    { rewrite Ht. apply in_or_app. right. left. reflexivity. }
    destruct (destroy_bucket_direct_failure _ _ _ _ _ _ _ _ _ _ H Hdec Hin)
      as (Hr & pre' & Ht' & Hpre').
    assert (Hpost : post = []).
    { apply (last_direct_failure t pre post pre' _ Ht Ht' Hpre').
      cbn. rewrite Hdec. reflexivity. }
    subst post. split; [reflexivity |]. split; [exact Hr |].
    rewrite Ht in Ht'. apply app_inj_tail in Ht' as [-> _]. exact Hpre'.
Qed.

Lemma retry_wraps_three_calls_only_witness :
  retries sample_policy <> 0
  /\ get_bucket_versioning (faulty (ref_client 2)) sample_policy "b1"
       ([Some (ClientError "Throttling")], store1 Enabled 1)
     = (Return (Some "Enabled"), ([], store1 Enabled 1),
        [Api (GetBucketVersioning "b1") (Failed (ClientError "Throttling"));
         Backoff 3;
         Api (GetBucketVersioning "b1") (Versioning (Some "Enabled"))])
  /\ exists pre,
       snd (destroy_bucket (faulty (ref_client 2)) sample_policy true "b1"
              ([None; None; None; None; None; None; None; None;
                Some (ClientError "Throttling")], store1 Enabled 1))
       = pre ++ [Api (DeleteObject "b1" "c" (Some "1"))
                   (Failed (ClientError "Throttling"))]
       /\ length pre = 11
       /\ fst (fst (destroy_bucket (faulty (ref_client 2)) sample_policy true "b1"
                      ([None; None; None; None; None; None; None; None;
                        Some (ClientError "Throttling")], store1 Enabled 1)))
          = Raise (Boto (ClientError "Throttling")).
Proof.
  assert (Hn : retries sample_policy <> 0) by (vm_compute; discriminate).
  destruct (retry_wraps_three_calls_only (faulty (ref_client 2)) sample_policy
              "b1" Hn) as (Hget & _ & _ & _ & Hdirect).
  split; [exact Hn |]. split.
  - refine (Hget ([Some (ClientError "Throttling")], store1 Enabled 1) "Throttling"
              ([], store1 Enabled 1) (Some "Enabled") ([], store1 Enabled 1) _ _ _);
      vm_compute; reflexivity.
  - set (run := destroy_bucket (faulty (ref_client 2)) sample_policy true "b1" _).
    exists (removelast (snd run)).
    assert (Ht : snd run
                 = removelast (snd run)
                   ++ [Api (DeleteObject "b1" "c" (Some "1"))
                         (Failed (ClientError "Throttling"))])
      by (vm_compute; reflexivity).
    split; [exact Ht |]. split; [vm_compute; reflexivity |].
    assert (Hrun : run = (fst (fst run), snd (fst run), snd run))
      by (vm_compute; reflexivity).
    exact (proj1 (proj2 (Hdirect true _ _ _ _ (removelast (snd run))
                           (DeleteObject "b1" "c" (Some "1"))
                           (ClientError "Throttling") [] Hrun eq_refl Ht))).
Defined.
